(** * Flickerfy: the frame-generation pipeline of [src/index.tsx]

    A shallow embedding of the pipeline functions of the [App] component
    ([detectObjects], [generatePrompts], [generateFrames],
    [runObjectDetection], [handleGenerateAnimation]) and the properties
    claimed about them; then the handlers of the page around the
    pipeline ([resetState], [processUploadedFile], the drag-and-drop
    handlers, [handleDownloadGif], [downloadImage]) and the state
    updates of the [FlickerBook] player, with what the code shows about
    them.

    Conventions of the embedding.
    - A JavaScript string is the list of its UTF-16 code units.
    - [undefined] is [None]; a value that is always defined is not wrapped.
    - [ai.models.generateContent] and [JSON.parse] are not code of this
      repository.  The service is a state machine given as a parameter
      (any state type, any transition function), so a statement proved
      for every service holds for every sequence of answers and errors.
      [JSON.parse] is a parameter as well; a reader for the grammar of
      ECMA-404, proved total, is given for the concrete runs.
    - A parsed number keeps its literal.  What depends on its value as a
      double ([Number.prototype.toString], whether it is [0]) is a
      parameter.
    - A timer wait is recorded with the delay handed to [setTimeout];
      the clock itself is not modelled.
    - A thrown value is an [Error] object carrying a [message], as
      thrown by the SDK and by the source's own [throw new Error(...)].
    - An [async] function is a computation of the monad [M]: it reads and
      updates the world (service state, React state), returns normally or
      throws, and emits the trace of what it did (requests issued, timer
      waits, console output, progress messages). *)

From Stdlib Require Import List NArith Bool String Ascii Lia Arith PeanoNat.
From Stdlib Require Import DecimalString ZArith.
From Stdlib Require DecimalNat DecimalFacts.
Import ListNotations.

Set Implicit Arguments.

(** ** JavaScript strings *)

Definition JSString := list N.

Definition js (s : string) : JSString :=
  map N_of_ascii (list_ascii_of_string s).

(** Code units the literals of the source need and Rocq strings cannot
    hold directly. *)
Definition LF : N := 10.
Definition DQUOTE : N := 34.

Fixpoint startsWith (s p : JSString) : bool :=
  match p, s with
  | [], _ => true
  | _ :: _, [] => false
  | c :: p', d :: s' => (c =? d)%N && startsWith s' p'
  end.

(** [s.includes(p)] *)
Fixpoint includes (s p : JSString) : bool :=
  startsWith s p ||
  match s with
  | [] => false
  | _ :: s' => includes s' p
  end.

Fixpoint jsstring_eqb (a b : JSString) : bool :=
  match a, b with
  | [], [] => true
  | c :: a', d :: b' => (c =? d)%N && jsstring_eqb a' b'
  | _, _ => false
  end.

(** WhiteSpace and LineTerminator code units (ECMA-262 12.2, 12.3). *)
Definition isLineTerminator (c : N) : bool :=
  ((c =? 10) || (c =? 13) || (c =? 8232) || (c =? 8233))%N.

Definition isWhiteSpace (c : N) : bool :=
  ((c =? 9) || (c =? 11) || (c =? 12) || (c =? 32) || (c =? 160) ||
   (c =? 5760) || ((8192 <=? c) && (c <=? 8202)) || (c =? 8239) ||
   (c =? 8287) || (c =? 12288) || (c =? 65279))%N.

Definition isTrimmed (c : N) : bool := isWhiteSpace c || isLineTerminator c.

Fixpoint trimStart (s : JSString) : JSString :=
  match s with
  | [] => []
  | c :: s' => if isTrimmed c then trimStart s' else s
  end.

(** [s.trim()] *)
Definition trim (s : JSString) : JSString :=
  rev (trimStart (rev (trimStart s))).

(** Decimal rendering of a non-negative integer, as a template literal
    renders [${i + 2}]. *)
Definition nat_to_js (n : nat) : JSString :=
  js (NilZero.string_of_uint (Nat.to_uint n)).

(** ** Parsed JSON values *)

(** A number keeps the parts of its literal: sign, integer digits,
    fraction digits, exponent (sign and digits). *)
Record JNumber := mkJNumber {
  num_negative : bool;
  num_int : list N;
  num_frac : list N;
  num_exp : option (bool * list N)
}.

#[warnings="-register-all"]
Inductive JSON :=
| JNull
| JBool (b : bool)
| JNum (n : JNumber)
| JString (s : JSString)
| JArray (elems : list JSON)
| JObject (members : list (JSString * JSON)).

(** [Array.isArray(v)] *)
Definition isArray (v : JSON) : bool :=
  match v with JArray _ => true | _ => false end.

(** ** Data exchanged with the generation service *)

(** A base64 payload; [None] is [undefined]. *)
Definition Payload := option JSString.

Record InlineData := mkInlineData {
  data : Payload;
  mimeType : option JSString
}.

(** [{ inlineData: { data, mimeType } }] *)
Record ImagePart := mkImagePart { inlineData : InlineData }.

Inductive Modality := IMAGE | TEXT.

Inductive RequestPart :=
| PText (text : JSString)
| PImage (img : ImagePart).

Record Request := mkRequest {
  req_model : JSString;
  req_parts : list RequestPart;
  req_responseModalities : option (list Modality)
}.

Record ResponsePart := mkResponsePart {
  part_text : option JSString;
  part_inlineData : option InlineData
}.

Record Content := mkContent { content_parts : option (list ResponsePart) }.

Record Candidate := mkCandidate {
  cand_content : option Content;
  cand_finishReason : option JSString
}.

(** [resp_text] is the SDK's [response.text] accessor. *)
Record Response := mkResponse {
  resp_text : option JSString;
  resp_candidates : option (list Candidate)
}.

Record JSError := mkError { message : JSString }.

Inductive Completion (A : Type) :=
| Normal (a : A)
| Throw (e : JSError)
| Diverge.
Arguments Throw {A} e.
Arguments Diverge {A}.

(** An uploaded [File]: its [type] and what [FileReader.readAsDataURL]
    yields after the first comma. *)
Record File := mkFile {
  file_type : JSString;
  file_base64 : Payload
}.

Record UploadedImage := mkUploaded { up_url : JSString; up_file : File }.

(** ** Trace *)

Inductive LogArg :=
| LStr (s : JSString)
| LUndefined
| LErr (e : JSError).

Inductive Event :=
| EvSetLoadingMessage (msg : JSString)
| EvGenerateContent (req : Request)
| EvWait (ms : N)
| EvConsoleError (args : list LogArg)
| EvConsoleWarn (args : list LogArg).

(** ** React state of [App] (the part the pipeline touches) *)

Record AppState := mkApp {
  uploadedImage : option UploadedImage;
  detectedObjects : list JSON;
  animationPrompts : list JSON;
  generatedFrames : list Payload;
  isLoading : bool;
  loadingMessage : JSString;
  error : option JSString;
  selectedObject : option JSON;
  detectionComplete : bool
}.

Definition NUM_FRAMES_TO_GENERATE : nat := 6.

(** [base64ToGenerativePart] *)
Definition base64ToGenerativePart (base64Data : Payload)
    (mimeType : option JSString) : ImagePart :=
  mkImagePart (mkInlineData base64Data mimeType).

(** [fileToGenerativePart] *)
Definition fileToGenerativePart (file : File) : ImagePart :=
  mkImagePart (mkInlineData (file_base64 file) (Some (file_type file))).

(** ** Constants of the source *)

Definition MODEL : JSString := js "gemini-2.5-flash-image-preview".

Definition maxRetries : nat := 3.

Definition FRAMING_INSTRUCTION : JSString :=
  js ". IMPORTANT: The background and all elements, except for the object being animated, MUST remain identical to the input image. Do not change the scene, lighting, or style.".

Definition MSG_INVALID_DETECT : JSString :=
  js "Received an invalid response from the AI when detecting objects. Please try a different image.".

Definition MSG_DETECT_FORMAT : JSString :=
  js "Failed to detect objects in the required format.".

Definition MSG_INVALID_PROMPTS : JSString :=
  js "Received an invalid response from the AI when generating prompts.".

Definition MSG_PROMPTS_FORMAT : JSString :=
  js "Failed to generate prompts in the required format.".

Definition MSG_NO_OBJECTS : JSString :=
  js "Sorry, no distinct objects could be identified in the image. Please try another one.".

Definition MSG_SELECT_OBJECT : JSString :=
  js "Please select an object to animate.".

Definition ORIGINAL_IMAGE_LABEL : JSString := js "Original Image".

(** What the engine reports when a property of [undefined] is read (the
    wording is V8's). *)
Definition typeErrorReading (prop : string) : JSError :=
  mkError (js "Cannot read properties of undefined (reading '" ++ js prop ++ js "')").

(** What the engine reports when an object has no primitive value (the
    wording is V8's). *)
Definition typeErrorConvert : JSError :=
  mkError (js "Cannot convert object to primitive value").

(** Whether a parsed object has a member [key] of its own. *)
Definition hasOwn (key : JSString) (members : list (JSString * JSON)) : bool :=
  existsb (fun member => jsstring_eqb (fst member) key) members.

(** The rate-limit test of the [catch] block of [generateFrames]. *)
Definition isRateLimit (error : JSError) : bool :=
  includes (message error) (js "429") ||
  includes (message error) (js "RESOURCE_EXHAUSTED").

(** ** Local variables of [generateFrames] *)

(** Declared before the [for] loop. *)
Record Chain := mkChain {
  currentImagePart : ImagePart;
  allFrames : list Payload;
  lastSuccessfulBase64 : Payload
}.

(** Declared in the body of the [for] loop, once per frame. *)
Record Attempt := mkAttempt {
  attempt : nat;
  delay : N;
  success : bool;
  newBase64Data : Payload;
  newMimeType : option JSString
}.

(** [response.candidates?.[0]] *)
Definition firstCandidate (response : Response) : option Candidate :=
  match resp_candidates response with
  | Some (c :: _) => Some c
  | _ => None
  end.

(** [parts.find(part => part.inlineData)] *)
Definition findInlineData (parts : list ResponsePart) : option ResponsePart :=
  find (fun part => match part_inlineData part with Some _ => true | None => false end) parts.

(** [response.candidates?.[0]?.content?.parts.find(part => part.inlineData)]:
    the optional chain yields [undefined] when it is cut short, and the
    call of [find] throws when [content] is there without [parts]. *)
Definition imagePartOf (response : Response) : JSError + option ResponsePart :=
  match firstCandidate response with
  | None => inr None
  | Some c =>
      match cand_content c with
      | None => inr None
      | Some ct =>
          match content_parts ct with
          | None => inl (typeErrorReading "find")
          | Some parts => inr (findInlineData parts)
          end
      end
  end.

(** [imagePartResponse?.inlineData?.data] when it is truthy. *)
Definition truthyData (imagePartResponse : option ResponsePart) : option InlineData :=
  match imagePartResponse with
  | Some part =>
      match part_inlineData part with
      | Some blob =>
          match data blob with
          | Some (_ :: _) => Some blob
          | _ => None
          end
      | None => None
      end
  | None => None
  end.

(** [response.candidates?.[0]?.finishReason || "Unknown reason"] *)
Definition finishReasonOf (response : Response) : JSString :=
  match firstCandidate response with
  | Some c =>
      match cand_finishReason c with
      | Some (ch :: r) => ch :: r
      | _ => js "Unknown reason"
      end
  | None => js "Unknown reason"
  end.

(** ** Regular expressions

    The fragment of ECMAScript patterns the two extraction patterns of
    the source use, matched as the specification's backtracking matcher
    does: alternatives left to right, a greedy star longest first, a lazy
    star shortest first, the first start position that matches wins. *)

Module Regex.

Inductive CharSet :=
| AnyChar    (* [\s\S] *)
| Dot.       (* .  *)

Definition inSet (cs : CharSet) (c : N) : bool :=
  match cs with
  | AnyChar => true
  | Dot => negb (isLineTerminator c)
  end.

Inductive regex :=
| Char (c : N)
| Lit (p : JSString)
| Star (greedy : bool) (cs : CharSet)
| Seq (r1 r2 : regex)
| Alt (r1 r2 : regex)
| Group (n : nat) (r : regex).

Definition Captures := list (nat * JSString).

Fixpoint capture (n : nat) (caps : Captures) : option JSString :=
  match caps with
  | [] => None
  | (k, v) :: rest => if Nat.eqb k n then Some v else capture n rest
  end.

Definition Cont := JSString -> Captures -> option (JSString * Captures).

Fixpoint matchStar (greedy : bool) (cs : CharSet) (s : JSString)
    (caps : Captures) (k : Cont) : option (JSString * Captures) :=
  match s with
  | [] => k [] caps
  | c :: s' =>
      if greedy then
        match (if inSet cs c then matchStar greedy cs s' caps k else None) with
        | Some r => Some r
        | None => k s caps
        end
      else
        match k s caps with
        | Some r => Some r
        | None => if inSet cs c then matchStar greedy cs s' caps k else None
        end
  end.

(** [matchAt r s caps k]: match [r] at the front of [s], then continue
    with [k] on what is left; [None] is failure, which makes the caller
    backtrack. *)
Fixpoint matchAt (r : regex) (s : JSString) (caps : Captures) (k : Cont)
    : option (JSString * Captures) :=
  match r with
  | Char c =>
      match s with
      | d :: s' => if (c =? d)%N then k s' caps else None
      | [] => None
      end
  | Lit p => if startsWith s p then k (skipn (List.length p) s) caps else None
  | Star greedy cs => matchStar greedy cs s caps k
  | Seq r1 r2 => matchAt r1 s caps (fun s1 caps1 => matchAt r2 s1 caps1 k)
  | Alt r1 r2 =>
      match matchAt r1 s caps k with
      | Some x => Some x
      | None => matchAt r2 s caps k
      end
  | Group n r1 =>
      matchAt r1 s caps
        (fun s1 caps1 => k s1 ((n, firstn (List.length s - List.length s1) s) :: caps1))
  end.

Definition accept : Cont := fun rest caps => Some (rest, caps).

(** [s.match(r)] for a pattern without flags: the groups of the first
    match, or [None] for [null]. *)
Fixpoint exec (r : regex) (s : JSString) : option Captures :=
  match matchAt r s [] accept with
  | Some (_, caps) => Some caps
  | None =>
      match s with
      | [] => None
      | _ :: s' => exec r s'
      end
  end.

End Regex.

Import Regex.

Definition FENCE_OPEN : JSString := js "```json" ++ [LF].
Definition FENCE_CLOSE : JSString := LF :: js "```".

(** [```json\n([\s\S]*?)\n```] *)
Definition fencedAlternative : regex :=
  Seq (Lit FENCE_OPEN) (Seq (Group 1 (Star false AnyChar)) (Lit FENCE_CLOSE)).

(** [/```json\n([\s\S]*?)\n```|(\[[\s\S]*?{.*}[\s\S]*?\])/], of
    [detectObjects]. *)
Definition DETECT_PATTERN : regex :=
  Alt fencedAlternative
    (Group 2
       (Seq (Char 91) (Seq (Star false AnyChar) (Seq (Char 123)
          (Seq (Star true Dot) (Seq (Char 125)
             (Seq (Star false AnyChar) (Char 93)))))))).

(** [/```json\n([\s\S]*?)\n```|(\[[\s\S]*?\])/], of [generatePrompts]. *)
Definition PROMPTS_PATTERN : regex :=
  Alt fencedAlternative
    (Group 2 (Seq (Char 91) (Seq (Star false AnyChar) (Char 93)))).

(** [let jsonText = text.trim(); const jsonMatch = jsonText.match(pattern);
    if (jsonMatch) jsonText = jsonMatch[1] || jsonMatch[2];]
    The result is the value of [jsonText] handed to [JSON.parse]. *)
Definition extractJsonText (pattern : regex) (text : JSString) : option JSString :=
  let jsonText := trim text in
  match exec pattern jsonText with
  | Some jsonMatch =>
      match capture 1 jsonMatch with
      | Some (c :: g) => Some (c :: g)
      | _ => capture 2 jsonMatch
      end
  | None => Some jsonText
  end.

(** The argument of [JSON.parse] after [ToString]. *)
Definition parseInput (jsonText : option JSString) : JSString :=
  match jsonText with
  | Some t => t
  | None => js "undefined"
  end.

(** ** The pipeline, for any service and any [JSON.parse] *)

Section Pipeline.

Variable ServiceState : Type.

(** One call of [ai.models.generateContent]: the promise rejects with an
    error or resolves with a response, and the service moves on. *)
Variable service : ServiceState -> Request -> (JSError + Response) * ServiceState.

(** [JSON.parse]; [None] is a thrown [SyntaxError]. *)
Variable JSON_parse : JSString -> option JSON.

(** [Number.prototype.toString] on a parsed number, and whether the
    number it denotes is [0] (the one falsy number [JSON.parse] yields). *)
Variable Number_toString : JNumber -> JSString.
Variable Number_isZero : JNumber -> bool.

Record World := mkWorld { svc : ServiceState; app : AppState }.

Definition M (A : Type) : Type := World -> Completion A * World * list Event.

Definition ret {A} (a : A) : M A := fun w => (Normal a, w, []).

Definition bind {A B} (m : M A) (k : A -> M B) : M B :=
  fun w =>
    match m w with
    | (Normal a, w1, t1) =>
        match k a w1 with
        | (r, w2, t2) => (r, w2, t1 ++ t2)
        end
    | (Throw e, w1, t1) => (Throw e, w1, t1)
    | (Diverge, w1, t1) => (Diverge, w1, t1)
    end.

Definition throw {A} (e : JSError) : M A := fun w => (Throw e, w, []).

Definition diverge {A} : M A := fun w => (Diverge, w, []).

(** [try { body } catch (error) { handler }] *)
Definition try_catch {A} (body : M A) (handler : JSError -> M A) : M A :=
  fun w =>
    match body w with
    | (Throw e, w1, t1) =>
        match handler e w1 with
        | (r, w2, t2) => (r, w2, t1 ++ t2)
        end
    | other => other
    end.

(** [try { body } finally { cleanup }], for a [cleanup] that only sets
    state. *)
Definition try_finally {A} (body : M A) (cleanup : M unit) : M A :=
  fun w =>
    match body w with
    | (r, w1, t1) =>
        match cleanup w1 with
        | (Normal _, w2, t2) => (r, w2, t1 ++ t2)
        | (Throw e, w2, t2) => (Throw e, w2, t1 ++ t2)
        | (Diverge, w2, t2) => (Diverge, w2, t1 ++ t2)
        end
    end.

Definition emit (ev : Event) : M unit := fun w => (Normal tt, w, [ev]).

(** The state values a handler closes over when it is called. *)
Definition readApp : M AppState := fun w => (Normal (app w), w, []).

Definition modifyApp (f : AppState -> AppState) : M unit :=
  fun w => (Normal tt, mkWorld (svc w) (f (app w)), []).

Notation "x <- m ;; k" := (bind m (fun x => k))
  (at level 61, m at next level, right associativity).
Notation "m ;;; k" := (bind m (fun _ => k))
  (at level 61, right associativity).

(** *** Primitive effects *)

(** [await ai.models.generateContent(req)] *)
Definition generateContent (req : Request) : M Response :=
  fun w =>
    match service (svc w) req with
    | (inr response, s) => (Normal response, mkWorld s (app w), [EvGenerateContent req])
    | (inl e, s) => (Throw e, mkWorld s (app w), [EvGenerateContent req])
    end.

(** [await new Promise(resolve => setTimeout(resolve, ms))] *)
Definition wait (ms : N) : M unit := emit (EvWait ms).

Definition console_error (args : list LogArg) : M unit := emit (EvConsoleError args).
Definition console_warn (args : list LogArg) : M unit := emit (EvConsoleWarn args).

(** *** State setters of the component *)

Definition setUploadedImage (x : option UploadedImage) : M unit :=
  modifyApp (fun a => mkApp x (detectedObjects a) (animationPrompts a)
    (generatedFrames a) (isLoading a) (loadingMessage a) (error a)
    (selectedObject a) (detectionComplete a)).

Definition setDetectedObjects (x : list JSON) : M unit :=
  modifyApp (fun a => mkApp (uploadedImage a) x (animationPrompts a)
    (generatedFrames a) (isLoading a) (loadingMessage a) (error a)
    (selectedObject a) (detectionComplete a)).

Definition setAnimationPrompts (x : list JSON) : M unit :=
  modifyApp (fun a => mkApp (uploadedImage a) (detectedObjects a) x
    (generatedFrames a) (isLoading a) (loadingMessage a) (error a)
    (selectedObject a) (detectionComplete a)).

Definition setGeneratedFrames (x : list Payload) : M unit :=
  modifyApp (fun a => mkApp (uploadedImage a) (detectedObjects a)
    (animationPrompts a) x (isLoading a) (loadingMessage a) (error a)
    (selectedObject a) (detectionComplete a)).

Definition setIsLoading (x : bool) : M unit :=
  modifyApp (fun a => mkApp (uploadedImage a) (detectedObjects a)
    (animationPrompts a) (generatedFrames a) x (loadingMessage a) (error a)
    (selectedObject a) (detectionComplete a)).

(** The progress message is also written to the trace: it marks where
    the work on each frame starts. *)
Definition setLoadingMessage (x : JSString) : M unit :=
  modifyApp (fun a => mkApp (uploadedImage a) (detectedObjects a)
    (animationPrompts a) (generatedFrames a) (isLoading a) x (error a)
    (selectedObject a) (detectionComplete a)) ;;;
  emit (EvSetLoadingMessage x).

Definition setError (x : option JSString) : M unit :=
  modifyApp (fun a => mkApp (uploadedImage a) (detectedObjects a)
    (animationPrompts a) (generatedFrames a) (isLoading a) (loadingMessage a) x
    (selectedObject a) (detectionComplete a)).

Definition setSelectedObject (x : option JSON) : M unit :=
  modifyApp (fun a => mkApp (uploadedImage a) (detectedObjects a)
    (animationPrompts a) (generatedFrames a) (isLoading a) (loadingMessage a)
    (error a) x (detectionComplete a)).

Definition setDetectionComplete (x : bool) : M unit :=
  modifyApp (fun a => mkApp (uploadedImage a) (detectedObjects a)
    (animationPrompts a) (generatedFrames a) (isLoading a) (loadingMessage a)
    (error a) (selectedObject a) x).

(** *** Template literals *)

(** [ToString] of a parsed value, as [`${v}`] computes it: the string,
    or the [TypeError] thrown.
    - An object is converted by its [toString].  A parsed object
      inherits [Object.prototype.toString], which yields
      [[object Object]], unless it has a member [toString] of its own:
      that member is a parsed value, so it cannot be called, the
      inherited [valueOf] yields the object itself, and the conversion
      throws.
    - An array is joined with commas, [null] elements rendered empty,
      the other elements converted in turn; the first element that
      throws makes the conversion throw. *)
Fixpoint ToString (v : JSON) : JSError + JSString :=
  match v with
  | JNull => inr (js "null")
  | JBool true => inr (js "true")
  | JBool false => inr (js "false")
  | JNum n => inr (Number_toString n)
  | JString s => inr s
  | JArray elems =>
      (fix join (l : list JSON) : JSError + JSString :=
         match l with
         | [] => inr []
         | x :: rest =>
             match (match x with JNull => inr [] | _ => ToString x end) with
             | inl typeError => inl typeError
             | inr first =>
                 match rest with
                 | [] => inr first
                 | _ :: _ =>
                     match join rest with
                     | inl typeError => inl typeError
                     | inr others => inr (first ++ js "," ++ others)
                     end
                 end
             end
         end) elems
  | JObject members =>
      if hasOwn (js "toString") members then inl typeErrorConvert
      else inr (js "[object Object]")
  end.

(** [`${a[i]}`]: an index out of range reads [undefined]. *)
Definition templateOf (x : option JSON) : JSError + JSString :=
  match x with
  | Some v => ToString v
  | None => inr (js "undefined")
  end.

(** *** [generateFrames] *)

(** The [try] block of one attempt for frame [i], after the [await]:
    the image data read from the response, or the error thrown. *)
Definition imageDataOf (response : Response) : JSError + InlineData :=
  match imagePartOf response with
  | inl typeError => inl typeError
  | inr imagePartResponse =>
      match truthyData imagePartResponse with
      | Some blob => inr blob
      | None =>
          let reason := finishReasonOf response in
          inl (mkError (js "Failed to generate image data in response. Reason: " ++ reason))
      end
  end.

(** [`${prompts[i]}. IMPORTANT: ...`]: the text of the request for
    frame [i], or the [TypeError] of the conversion of the prompt. *)
Definition generationPromptOf (prompts : list JSON) (i : nat) : JSError + JSString :=
  match templateOf (nth_error prompts i) with
  | inl typeError => inl typeError
  | inr prompt => inr (prompt ++ FRAMING_INSTRUCTION)
  end.

(** The request of one attempt, with the text and the chain image it
    carries. *)
Definition frameRequest (generationPrompt : JSString) (currentImagePart : ImagePart)
    : Request :=
  mkRequest MODEL [PImage currentImagePart; PText generationPrompt] (Some [IMAGE; TEXT]).

(** The [try] block of one attempt for frame [i].  The template literal
    comes first: when it throws, no request is made. *)
Definition tryGenerate (prompts : list JSON) (i : nat) (c : Chain) (a : Attempt)
    : M (Chain * Attempt) :=
  match generationPromptOf prompts i with
  | inl typeError => throw typeError
  | inr generationPrompt =>
      response <- generateContent (frameRequest generationPrompt (currentImagePart c)) ;;
      match imageDataOf response with
      | inr blob =>
          let newBase64Data := data blob in
          ret (mkChain (currentImagePart c) (allFrames c) newBase64Data,
               mkAttempt (attempt a) (delay a) true newBase64Data (mimeType blob))
      | inl thrown => throw thrown
      end
  end.

(** The [catch] block.  The [try] block assigns nothing before it
    throws, so the handler sees the variables as they were when the
    attempt started. *)
Definition onError (i : nat) (c : Chain) (a : Attempt) (error : JSError)
    : M (Chain * Attempt) :=
  let attempt' := S (attempt a) in
  if isRateLimit error then
    if maxRetries <=? attempt' then
      console_error [LStr (js "Max retries reached for frame " ++ nat_to_js (i + 1)
                             ++ js ". Using fallback."); LErr error] ;;;
      ret (c, mkAttempt attempt' (delay a) true (lastSuccessfulBase64 c) (newMimeType a))
    else
      console_warn [LStr (js "Rate limit hit for frame " ++ nat_to_js (i + 1)
                            ++ js ". Retrying in " ++ nat_to_js (N.to_nat (delay a / 1000))
                            ++ js "s... (Attempt " ++ nat_to_js attempt' ++ js "/"
                            ++ nat_to_js maxRetries ++ js ")")] ;;;
      wait (delay a) ;;;
      ret (c, mkAttempt attempt' (delay a * 2) (success a) (newBase64Data a) (newMimeType a))
  else
    console_error [LStr (js "An error occurred while generating frame "
                           ++ nat_to_js (i + 1) ++ js ":"); LErr error] ;;;
    ret (c, mkAttempt attempt' (delay a) true (lastSuccessfulBase64 c) (newMimeType a)).

(** [while (attempt < maxRetries && !success) { try ... catch ... }].
    [fuel] bounds the number of times the body is entered; running out
    of it is [Diverge]. *)
Fixpoint whileAttempts (fuel : nat) (prompts : list JSON) (i : nat)
    (c : Chain) (a : Attempt) : M (Chain * Attempt) :=
  if (attempt a <? maxRetries) && negb (success a) then
    match fuel with
    | O => diverge
    | S fuel' =>
        ca <- try_catch (tryGenerate prompts i c a) (onError i c a) ;;
        whileAttempts fuel' prompts i (fst ca) (snd ca)
    end
  else ret (c, a).

(** [`Creating animation frame ${i + 2} of ${prompts.length + 1}...`] *)
Definition frameProgressMessage (prompts : list JSON) (i : nat) : JSString :=
  js "Creating animation frame " ++ nat_to_js (i + 2)
  ++ js " of " ++ nat_to_js (List.length prompts + 1) ++ js "...".

(** The body of the [for] loop, for frame index [i]. *)
Definition frameIteration (prompts : list JSON) (i : nat) (c : Chain) : M Chain :=
  setLoadingMessage (frameProgressMessage prompts i) ;;;
  let a0 := mkAttempt 0 2000 false None (mimeType (inlineData (currentImagePart c))) in
  ca <- whileAttempts maxRetries prompts i c a0 ;;
  let c1 := fst ca in
  let a1 := snd ca in
  let newBase64Data' :=
    if negb (success a1) then lastSuccessfulBase64 c1 else newBase64Data a1 in
  ret (mkChain (base64ToGenerativePart newBase64Data' (newMimeType a1))
               (allFrames c1 ++ [newBase64Data'])
               (lastSuccessfulBase64 c1)).

(** [for (let i = start; i < start + count; i++) body], on the chain
    variables. *)
Fixpoint forFrames (count : nat) (prompts : list JSON) (i : nat) (c : Chain) : M Chain :=
  match count with
  | O => ret c
  | S count' =>
      c1 <- frameIteration prompts i c ;;
      forFrames count' prompts (S i) c1
  end.

Definition generateFrames (initialImagePart : ImagePart) (prompts : list JSON)
    : M (list Payload) :=
  let c0 := mkChain initialImagePart [] (data (inlineData initialImagePart)) in
  c <- forFrames (List.length prompts) prompts 0 c0 ;;
  ret (allFrames c).

(** *** [detectObjects] and [generatePrompts] *)

Definition quoted (s : string) : JSString := DQUOTE :: js s ++ [DQUOTE].

Definition DETECT_PROMPT : JSString :=
  js "Analyze this image and identify up to 5 prominent objects. For each object, provide its name and a normalized bounding box. The bounding box should have 'x', 'y', 'width', and 'height' properties, where 'x' and 'y' represent the top-left corner and all values are floats between 0.0 and 1.0. CRITICAL: Your entire response must be ONLY the raw JSON array of these objects, without any markdown, comments, or other text. Example: [{"
  ++ quoted "name" ++ js ": " ++ quoted "cat" ++ js ", " ++ quoted "boundingBox"
  ++ js ": {" ++ quoted "x" ++ js ": 0.15, " ++ quoted "y" ++ js ": 0.22, "
  ++ quoted "width" ++ js ": 0.30, " ++ quoted "height" ++ js ": 0.45}}]".

Definition logText (t : option JSString) : LogArg :=
  match t with
  | Some x => LStr x
  | None => LUndefined
  end.

Definition detectRequest (imagePart : ImagePart) : Request :=
  mkRequest MODEL [PText DETECT_PROMPT; PImage imagePart] None.

Definition detectObjects (imagePart : ImagePart) : M (list JSON) :=
  response <- generateContent (detectRequest imagePart) ;;
  match resp_text response with
  | None => throw (typeErrorReading "trim")
  | Some text =>
      let jsonText := extractJsonText DETECT_PATTERN text in
      match JSON_parse (parseInput jsonText) with
      | None =>
          console_error [LStr (js "Failed to parse JSON from detectObjects:");
                         logText jsonText;
                         LStr (js "Original response text:"); LStr text] ;;;
          throw (mkError MSG_INVALID_DETECT)
      | Some parsedResponse =>
          match parsedResponse with
          | JArray elems => ret elems
          | _ => throw (mkError MSG_DETECT_FORMAT)
          end
      end
  end.

(** The text of the request of [generatePrompts], for the string
    [name] that [`${prominentObjectName}`] yields. *)
Definition promptsRequestText (name : JSString) : JSString :=
  js "Analyze the provided image which contains a '" ++ name
  ++ js "'. Your task is to generate a sequence of " ++ nat_to_js NUM_FRAMES_TO_GENERATE
  ++ js " distinct, incremental prompts to animate ONLY this object. CRITICAL INSTRUCTIONS: 1. Each prompt must describe a very small, subtle, and logical change to '"
  ++ name
  ++ js "' to create smooth motion. 2. The background and all other elements in the image MUST remain IDENTICAL to the previous frame. Do NOT mention the background. Focus only on the object's change. 3. Your entire response must be ONLY the raw JSON array of "
  ++ nat_to_js NUM_FRAMES_TO_GENERATE
  ++ js " strings, without any markdown, comments, or other text.".

Definition promptsRequest (name : JSString) (imagePart : ImagePart) : Request :=
  mkRequest MODEL [PText (promptsRequestText name); PImage imagePart] None.

(** The template literal of the first statement converts
    [prominentObjectName]; when it throws, no request is made. *)
Definition generatePrompts (prominentObjectName : option JSON) (imagePart : ImagePart)
    : M (list JSON) :=
  match templateOf prominentObjectName with
  | inl typeError => throw typeError
  | inr name =>
      response <- generateContent (promptsRequest name imagePart) ;;
      match resp_text response with
      | None => throw (typeErrorReading "trim")
      | Some text =>
          let jsonText := extractJsonText PROMPTS_PATTERN text in
          match JSON_parse (parseInput jsonText) with
          | None =>
              console_error [LStr (js "Failed to parse JSON from generatePrompts:");
                             logText jsonText;
                             LStr (js "Original response text:"); LStr text] ;;;
              throw (mkError MSG_INVALID_PROMPTS)
          | Some parsedResponse =>
              match parsedResponse with
              | JArray (p :: ps) => ret (p :: ps)
              | _ => throw (mkError MSG_PROMPTS_FORMAT)
              end
          end
      end
  end.

(** *** The handlers *)

Definition runObjectDetection (file : File) : M unit :=
  let imagePart := fileToGenerativePart file in
  setLoadingMessage (js "Analyzing image to find prominent objects...") ;;;
  try_finally
    (try_catch
       (objects <- detectObjects imagePart ;;
        match objects with
        | first :: _ =>
            setDetectedObjects objects ;;;
            setSelectedObject (Some first) ;;;
            setDetectionComplete true
        | [] => setError (Some MSG_NO_OBJECTS)
        end)
       (fun err =>
          console_error [LStr (js "Error during object detection:"); LErr err] ;;;
          setError (Some (message err))))
    (setIsLoading false ;;; setLoadingMessage []).

(** Truthiness of a parsed value. *)
Definition truthy (v : JSON) : bool :=
  match v with
  | JNull => false
  | JBool b => b
  | JNum n => negb (Number_isZero n)
  | JString [] => false
  | JString (_ :: _) => true
  | JArray _ => true
  | JObject _ => true
  end.

(** [o[key]] on the members of a parsed object: of two members with one
    key the later one counts. *)
Fixpoint lookupMember (key : JSString) (members : list (JSString * JSON)) : option JSON :=
  match members with
  | [] => None
  | (k, v) :: rest =>
      match lookupMember key rest with
      | Some later => Some later
      | None => if jsstring_eqb k key then Some v else None
      end
  end.

(** [v.name], for a truthy parsed value [v]. *)
Definition nameOf (v : JSON) : option JSON :=
  match v with
  | JObject members => lookupMember (js "name") members
  | _ => None
  end.

Definition handleGenerateAnimation : M unit :=
  state <- readApp ;;
  match selectedObject state, uploadedImage state with
  | Some selected, Some uploaded =>
      if truthy selected then
        setIsLoading true ;;;
        setError None ;;;
        try_finally
          (try_catch
             (let imagePart := fileToGenerativePart (up_file uploaded) in
              let initialFrameBase64 := data (inlineData imagePart) in
              match templateOf (nameOf selected) with
              | inl typeError => throw typeError
              | inr name =>
                  setLoadingMessage (js "Generating animation ideas for " ++ [DQUOTE]
                                       ++ name ++ [DQUOTE] ++ js "...") ;;;
                  prompts <- generatePrompts (nameOf selected) imagePart ;;
                  subsequentFrames <- generateFrames imagePart prompts ;;
                  setAnimationPrompts (JString ORIGINAL_IMAGE_LABEL :: prompts) ;;;
                  setGeneratedFrames (initialFrameBase64 :: subsequentFrames)
              end)
             (fun err =>
                console_error [LStr (js "Error during animation generation:"); LErr err] ;;;
                setError (Some (message err))))
          (setIsLoading false ;;; setLoadingMessage [])
      else setError (Some MSG_SELECT_OBJECT)
  | _, _ => setError (Some MSG_SELECT_OBJECT)
  end.

End Pipeline.

(** ** A reader for JSON texts

    [JSON.parse] on the grammar of ECMA-404, used for the concrete runs.
    The recursion on nested values is bounded by [fuel]; the three
    outcomes keep a syntax error apart from a bound that was too small. *)

Module Json.

Inductive Parsed (A : Type) :=
| POk (a : A) (rest : JSString)
| PSyntaxError
| POutOfFuel.
Arguments PSyntaxError {A}.
Arguments POutOfFuel {A}.

Definition mapParsed {A B} (f : A -> B) (p : Parsed A) : Parsed B :=
  match p with
  | POk a rest => POk (f a) rest
  | PSyntaxError => PSyntaxError
  | POutOfFuel => POutOfFuel
  end.

Definition isJsonWs (c : N) : bool :=
  ((c =? 32) || (c =? 9) || (c =? 10) || (c =? 13))%N.

Fixpoint skipWs (s : JSString) : JSString :=
  match s with
  | c :: s' => if isJsonWs c then skipWs s' else s
  | [] => []
  end.

(** The text after the character [c], when the text starts with it. *)
Definition expect (c : N) (s : JSString) : option JSString :=
  match s with
  | d :: rest => if (d =? c)%N then Some rest else None
  | [] => None
  end.

Definition isDigit (c : N) : bool := ((48 <=? c) && (c <=? 57))%N.

Fixpoint digits (s : JSString) : list N * JSString :=
  match s with
  | c :: s' =>
      if isDigit c then let (ds, rest) := digits s' in (c :: ds, rest)
      else ([], s)
  | [] => ([], [])
  end.

Definition hexValue (c : N) : option N :=
  if isDigit c then Some (c - 48)%N
  else if ((65 <=? c) && (c <=? 70))%N then Some (c - 55)%N
  else if ((97 <=? c) && (c <=? 102))%N then Some (c - 87)%N
  else None.

Definition hex4 (a b c d : N) : option N :=
  match hexValue a, hexValue b, hexValue c, hexValue d with
  | Some x, Some y, Some z, Some w => Some (((x * 16 + y) * 16 + z) * 16 + w)%N
  | _, _, _, _ => None
  end.

(** The code unit an escape stands for, [e] being the character after
    the backslash, and the text after the escape. *)
Definition escape (e : N) (rest : JSString) : option (N * JSString) :=
  if (e =? 34)%N then Some (34%N, rest)
  else if (e =? 92)%N then Some (92%N, rest)
  else if (e =? 47)%N then Some (47%N, rest)
  else if (e =? 98)%N then Some (8%N, rest)
  else if (e =? 102)%N then Some (12%N, rest)
  else if (e =? 110)%N then Some (10%N, rest)
  else if (e =? 114)%N then Some (13%N, rest)
  else if (e =? 116)%N then Some (9%N, rest)
  else if (e =? 117)%N then
    match rest with
    | a :: b :: c :: d :: r =>
        match hex4 a b c d with
        | Some u => Some (u, r)
        | None => None
        end
    | _ => None
    end
  else None.

(** The characters of a string, after its opening quote. *)
Fixpoint stringBody (fuel : nat) (s : JSString) : Parsed JSString :=
  match fuel with
  | O => POutOfFuel
  | S fuel' =>
      match s with
      | [] => PSyntaxError
      | c :: rest =>
          if (c =? 34)%N then POk [] rest
          else if (c =? 92)%N then
            match rest with
            | [] => PSyntaxError
            | e :: rest' =>
                match escape e rest' with
                | Some (u, r) => mapParsed (cons u) (stringBody fuel' r)
                | None => PSyntaxError
                end
            end
          else if (c <? 32)%N then PSyntaxError
          else mapParsed (cons c) (stringBody fuel' rest)
      end
  end.

(** A string, after its opening quote. *)
Definition stringLiteral (s : JSString) : Parsed JSString :=
  stringBody (S (List.length s)) s.

(** A number literal: an optional minus sign; [0], or a digit from 1 to
    9 and further digits; optionally a point and digits; optionally [e]
    or [E], a sign and digits. *)
Definition number (s : JSString) : Parsed JNumber :=
  let (neg, s1) :=
    match expect 45 s with
    | Some r => (true, r)
    | None => (false, s)
    end in
  let (ip, s2) := digits s1 in
  match ip with
  | [] => PSyntaxError
  | d :: more =>
      if (d =? 48)%N && negb (match more with [] => true | _ => false end)
      then PSyntaxError
      else
        let frac :=
          match expect 46 s2 with
          | Some r =>
              let (fp, s3) := digits r in
              match fp with
              | [] => None
              | _ => Some (fp, s3)
              end
          | None => Some ([], s2)
          end in
        match frac with
        | None => PSyntaxError
        | Some (fp, s3) =>
            let exponent :=
              match expect 101 s3, expect 69 s3 with
              | Some r, _ => Some r
              | None, Some r => Some r
              | None, None => None
              end in
            match exponent with
            | Some r =>
                let (eneg, r1) :=
                  match expect 45 r, expect 43 r with
                  | Some r', _ => (true, r')
                  | None, Some r' => (false, r')
                  | None, None => (false, r)
                  end in
                let (ep, s4) := digits r1 in
                match ep with
                | [] => PSyntaxError
                | _ => POk (mkJNumber neg ip fp (Some (eneg, ep))) s4
                end
            | None => POk (mkJNumber neg ip fp None) s3
            end
        end
  end.

Definition consParsed {A} (a : A) (p : Parsed (list A)) : Parsed (list A) :=
  mapParsed (cons a) p.

Fixpoint value (fuel : nat) (s : JSString) : Parsed JSON :=
  match fuel with
  | O => POutOfFuel
  | S fuel' =>
      match skipWs s with
      | [] => PSyntaxError
      | c :: rest =>
          if (c =? 91)%N then
            match expect 93 (skipWs rest) with
            | Some r => POk (JArray []) r
            | None => mapParsed JArray (elements fuel' rest)
            end
          else if (c =? 123)%N then
            match expect 125 (skipWs rest) with
            | Some r => POk (JObject []) r
            | None => mapParsed JObject (members fuel' rest)
            end
          else if (c =? 34)%N then mapParsed JString (stringLiteral rest)
          else if startsWith (c :: rest) (js "true") then POk (JBool true) (skipn 4 (c :: rest))
          else if startsWith (c :: rest) (js "false") then POk (JBool false) (skipn 5 (c :: rest))
          else if startsWith (c :: rest) (js "null") then POk JNull (skipn 4 (c :: rest))
          else mapParsed JNum (number (c :: rest))
      end
  end

(** The values of an array, after its opening bracket, up to the
    closing one. *)
with elements (fuel : nat) (s : JSString) : Parsed (list JSON) :=
  match fuel with
  | O => POutOfFuel
  | S fuel' =>
      match value fuel' s with
      | POk v r =>
          match skipWs r with
          | [] => PSyntaxError
          | c :: r' =>
              if (c =? 93)%N then POk [v] r'
              else if (c =? 44)%N then consParsed v (elements fuel' r')
              else PSyntaxError
          end
      | PSyntaxError => PSyntaxError
      | POutOfFuel => POutOfFuel
      end
  end

(** The members of an object, after its opening brace, up to the
    closing one. *)
with members (fuel : nat) (s : JSString) : Parsed (list (JSString * JSON)) :=
  match fuel with
  | O => POutOfFuel
  | S fuel' =>
      match expect 34 (skipWs s) with
      | None => PSyntaxError
      | Some r0 =>
          match stringLiteral r0 with
          | POk key r1 =>
              match expect 58 (skipWs r1) with
              | None => PSyntaxError
              | Some r2 =>
                  match value fuel' r2 with
                  | POk v r3 =>
                      match skipWs r3 with
                      | [] => PSyntaxError
                      | c :: r4 =>
                          if (c =? 125)%N then POk [(key, v)] r4
                          else if (c =? 44)%N then consParsed (key, v) (members fuel' r4)
                          else PSyntaxError
                      end
                  | PSyntaxError => PSyntaxError
                  | POutOfFuel => POutOfFuel
                  end
              end
          | PSyntaxError => PSyntaxError
          | POutOfFuel => POutOfFuel
          end
      end
  end.

(** A whole text: one value, white space around it, nothing else.  A
    value and the list it sits in take one unit of fuel each, and each
    value takes a character, so twice the length is fuel enough. *)
Definition document (text : JSString) : Parsed JSON :=
  match value (2 * List.length text + 2) text with
  | POk v rest =>
      match skipWs rest with
      | [] => POk v []
      | _ :: _ => PSyntaxError
      end
  | other => other
  end.

Definition parse (text : JSString) : option JSON :=
  match document text with
  | POk v _ => Some v
  | _ => None
  end.

(** Whether the digits of a literal are all [0]. *)
Definition isZero (n : JNumber) : bool :=
  forallb (fun d => (d =? 48)%N) (num_int n) && forallb (fun d => (d =? 48)%N) (num_frac n).

(** The literal itself, which is what [Number.prototype.toString] gives
    for a plain integer literal and for a literal in shortest form. *)
Definition literal (n : JNumber) : JSString :=
  (if num_negative n then js "-" else []) ++ num_int n ++
  match num_frac n with [] => [] | f => js "." ++ f end ++
  match num_exp n with
  | None => []
  | Some (neg, e) => js "e" ++ (if neg then js "-" else js "+") ++ e
  end.

End Json.

(** ** A scripted service

    The service state is the list of answers still to give; a call takes
    the first one.  With the script used up, every call is refused. *)

Definition Script := list (JSError + Response).

Definition scripted (script : Script) (req : Request) : (JSError + Response) * Script :=
  match script with
  | answer :: rest => (answer, rest)
  | [] => (inl (mkError (js "script exhausted")), [])
  end.

(** Answers for scripts. *)
Definition imageAnswer (payload mime : string) : JSError + Response :=
  inr (mkResponse None
    (Some [mkCandidate
       (Some (mkContent (Some [mkResponsePart None
          (Some (mkInlineData (Some (js payload)) (Some (js mime))))])))
       (Some (js "STOP"))])).

Definition textAnswer (t : JSString) : JSError + Response :=
  inr (mkResponse (Some t) None).

Definition rateLimited : JSError + Response :=
  inl (mkError (js "got status: 429 Too Many Requests")).

Definition serverError : JSError + Response :=
  inl (mkError (js "got status: 500 Internal Server Error")).

(** ** Reading a trace *)

Definition isMarker (ev : Event) : bool :=
  match ev with EvSetLoadingMessage _ => true | _ => false end.

Definition isConsoleError (ev : Event) : bool :=
  match ev with EvConsoleError _ => true | _ => false end.

(** In [generateFrames], [console.error] is called on the two fallback
    paths and nowhere else. *)
Definition fellBack (t : list Event) : bool := existsb isConsoleError t.

Fixpoint requestsOf (t : list Event) : list Request :=
  match t with
  | [] => []
  | EvGenerateContent req :: t' => req :: requestsOf t'
  | _ :: t' => requestsOf t'
  end.

(** The requests and timer waits of a trace, in order. *)
Inductive Tick :=
| Issue
| Pause (ms : N).

Fixpoint schedule (t : list Event) : list Tick :=
  match t with
  | [] => []
  | EvGenerateContent _ :: t' => Issue :: schedule t'
  | EvWait ms :: t' => Pause ms :: schedule t'
  | _ :: t' => schedule t'
  end.

(** The events before the first progress message, and then the events
    that follow each progress message up to the next one. *)
Fixpoint splitAtMarkers (t : list Event) : list Event * list (list Event) :=
  match t with
  | [] => ([], [])
  | ev :: t' =>
      let (cur, rest) := splitAtMarkers t' in
      if isMarker ev then ([], cur :: rest) else (ev :: cur, rest)
  end.

(** The trace of [generateFrames] cut into the work on each frame. *)
Definition frameTraces (t : list Event) : list (list Event) := snd (splitAtMarkers t).

(** The image a request carries. *)
Definition imageOf (req : Request) : option ImagePart :=
  match req_parts req with
  | PImage img :: _ => Some img
  | _ => None
  end.

(** What one attempt comes to once the service has answered. *)
Definition attemptResult (answer : JSError + Response) : JSError + InlineData :=
  match answer with
  | inl e => inl e
  | inr response => imageDataOf response
  end.

Definition isRateLimited (answer : JSError + Response) : bool :=
  match attemptResult answer with
  | inl e => isRateLimit e
  | inr _ => false
  end.

Definition isOtherFailure (answer : JSError + Response) : bool :=
  match attemptResult answer with
  | inl e => negb (isRateLimit e)
  | inr _ => false
  end.

Definition emptyApp : AppState := mkApp None [] [] [] false [] None None false.

(** The rung [n] of the retry ladder: an attempt, then the wait that a
    rate-limit error earns, doubling. *)
Fixpoint backoffLadder (n : nat) (d : N) : list Tick :=
  match n with
  | O => []
  | S n' => Issue :: Pause d :: backoffLadder n' (d * 2)
  end.

(** The chain variables as [generateFrames] declares them. *)
Definition initialChain (initialImagePart : ImagePart) : Chain :=
  mkChain initialImagePart [] (data (inlineData initialImagePart)).

(** The invariant of the [for] loop of [generateFrames]. *)
Definition chainInvariant (c : Chain) : Prop :=
  data (inlineData (currentImagePart c)) = lastSuccessfulBase64 c.

(** Whether the template literal of frame [i] yields a text. *)
Definition converts (toStr : JNumber -> JSString) (prompts : list JSON) (i : nat) : bool :=
  match generationPromptOf toStr prompts i with
  | inr _ => true
  | inl _ => false
  end.

(** The least number of requests the work on frame [i] makes: one when
    its prompt converts, none when the template literal throws. *)
Definition attemptsDue (toStr : JNumber -> JSString) (prompts : list JSON) (i : nat) : nat :=
  if converts toStr prompts i then 1 else 0.

(** The frames among [count] frames from frame [i] on whose prompt
    converts. *)
Fixpoint convertingFrames (toStr : JNumber -> JSString) (prompts : list JSON)
    (i count : nat) : nat :=
  match count with
  | O => 0
  | S count' => attemptsDue toStr prompts i + convertingFrames toStr prompts (S i) count'
  end.

(** The prompts of a list that convert to a string. *)
Definition convertingPrompts (toStr : JNumber -> JSString) (prompts : list JSON) : nat :=
  List.length
    (filter (fun prompt => match ToString toStr prompt with inr _ => true | inl _ => false end)
            prompts).

(** What the work on frame [i] looks like from outside: [body] is its
    trace after the progress message, [d] the payload it pushes, [c] the
    chain variables it starts from. *)
Definition frameOk (toStr : JNumber -> JSString) (prompts : list JSON) (i : nat)
    (c : Chain) (body : list Event) (d : Payload) : Prop :=
  (fellBack body = true -> d = lastSuccessfulBase64 c) /\
  Forall (fun ev => isMarker ev = false) body /\
  Forall (fun r => exists generationPrompt,
                     generationPromptOf toStr prompts i = inr generationPrompt /\
                     r = frameRequest generationPrompt (currentImagePart c))
         (requestsOf body) /\
  attemptsDue toStr prompts i <= List.length (requestsOf body)
    <= maxRetries * attemptsDue toStr prompts i /\
  schedule body = firstn (2 * List.length (requestsOf body) - 1)
                         (backoffLadder maxRetries 2000).

(** A run of the [for] loop from frame [i] on, frame by frame: the
    traces of the frames, the payloads pushed, the chain variables at the
    end. *)
Inductive frameRuns (toStr : JNumber -> JSString) (prompts : list JSON)
    : nat -> Chain -> list (list Event) -> list Payload -> Chain -> Prop :=
| runs_done i c : frameRuns toStr prompts i c [] [] c
| runs_frame i c body d m bodies frames c' :
    frameOk toStr prompts i c body d ->
    frameRuns toStr prompts (S i)
      (mkChain (base64ToGenerativePart d m) (allFrames c ++ [d]) d) bodies frames c' ->
    frameRuns toStr prompts i c (body :: bodies) (d :: frames) c'.

(** The payload a request carries as its input image. *)
Definition inputPayload (req : Request) : option Payload :=
  match imageOf req with
  | Some img => Some (data (inlineData img))
  | None => None
  end.

(** The prompt text a request carries after its image. *)
Definition promptTextOf (req : Request) : option JSString :=
  match req_parts req with
  | [_; PText t] => Some t
  | _ => None
  end.

(** A frame whose prompt converts fails for good, in the words of the
    specification: the rate-limit retries are used up, or an error comes
    that is no rate-limit signal.  [s] is the state of the service when
    the work on the frame starts, [req] the request of the frame. *)
Definition frameFails {S : Type} (service : S -> Request -> (JSError + Response) * S)
    (s : S) (req : Request) : bool :=
  let (answer1, s1) := service s req in
  if isOtherFailure answer1 then true
  else if isRateLimited answer1 then
    let (answer2, s2) := service s1 req in
    if isOtherFailure answer2 then true
    else if isRateLimited answer2 then
      let (answer3, _) := service s2 req in
      isOtherFailure answer3 || isRateLimited answer3
    else false
  else false.

(** Frame [i] fails for good: the template literal throws (an error that
    is no rate-limit signal, before any request), or the frame fails on
    its request. *)
Definition frameFailsAt {S : Type} (service : S -> Request -> (JSError + Response) * S)
    (toStr : JNumber -> JSString) (prompts : list JSON) (i : nat)
    (currentImagePart : ImagePart) (s : S) : bool :=
  match generationPromptOf toStr prompts i with
  | inl _ => true
  | inr generationPrompt => frameFails service s (frameRequest generationPrompt currentImagePart)
  end.

(** ** Inputs of the concrete runs

    JSON texts are written with ['] standing for the double quote. *)

Definition jq (s : string) : JSString :=
  map (fun c => if (c =? 39)%N then DQUOTE else c) (js s).

Definition ex_file : File := mkFile (js "image/png") (Some (js "T1JJRw==")).

Definition ex_image : ImagePart := fileToGenerativePart ex_file.

Definition ex_prompts : list JSON :=
  [JString (js "tilt the head"); JString (js "raise the paw"); JString (js "blink")].

Definition ex_cat : JSON :=
  JObject
    [(js "name", JString (js "cat"));
     (js "boundingBox",
        JObject [(js "x", JNum (mkJNumber false [48%N] [49%N] None));
                 (js "y", JNum (mkJNumber false [48%N] [49%N] None));
                 (js "width", JNum (mkJNumber false [48%N] [51%N] None));
                 (js "height", JNum (mkJNumber false [48%N] [51%N] None))])].

Definition ex_cat_text : JSString :=
  jq "[{'name': 'cat', 'boundingBox': {'x': 0.1, 'y': 0.1, 'width': 0.3, 'height': 0.3}}]".

(** The object [{"toString": 1}] as [JSON.parse] yields it: it has a
    member [toString] of its own and does not convert to a string. *)
Definition ex_unconvertible : JSON :=
  JObject [(js "toString", JNum (mkJNumber false [49%N] [] None))].

(** The two prompts of [[{"toString": 1}, "wave"]]. *)
Definition ex_prompts_odd : list JSON :=
  [ex_unconvertible; JString (js "wave")].

(** Frame 0 succeeds, frame 1 meets a server error, frame 2 succeeds. *)
Definition ex_script_stall : Script :=
  [imageAnswer "QUFB" "image/png"; serverError; imageAnswer "QkJC" "image/png"].

Definition ex_script_throttled : Script := [rateLimited; rateLimited; rateLimited].

Definition ex_six_prompts_text : JSString :=
  jq "['p1', 'p2', 'p3', 'p4', 'p5', 'p6']".

Definition ex_six_prompts : list JSON :=
  [JString (js "p1"); JString (js "p2"); JString (js "p3");
   JString (js "p4"); JString (js "p5"); JString (js "p6")].

Definition ex_script_animation : Script :=
  [textAnswer ex_six_prompts_text;
   imageAnswer "RjE=" "image/png"; imageAnswer "RjI=" "image/png";
   imageAnswer "RjM=" "image/png"; imageAnswer "RjQ=" "image/png";
   imageAnswer "RjU=" "image/png"; imageAnswer "RjY=" "image/png"].

(** The state when the user asks for the animation of the cat. *)
Definition ex_app_selected : AppState :=
  mkApp (Some (mkUploaded (js "blob:flickerfy/1") ex_file)) [ex_cat] [] []
        false [] None (Some ex_cat) true.

(** A fenced array after a line of prose that mentions a bracket. *)
Definition ex_bracket_before_fence : JSString :=
  js "Prompts [6 frames]:" ++ [LF] ++ FENCE_OPEN ++ jq "['a']" ++ FENCE_CLOSE.

(** Six objects, the first with a box outside the unit square. *)
Definition ex_six_objects_text : JSString :=
  jq "[{'name': 'a', 'boundingBox': {'x': 1.5, 'y': -2, 'width': 3, 'height': 4}}, {'name': 'b'}, {'name': 'c'}, {'name': 'd'}, {'name': 'e'}, {'name': 'f'}]".

(** ** Further notions for reading runs *)

(** A payload that is a non-empty string: neither [undefined] nor [""]. *)
Definition isTruthyPayload (p : Payload) : bool :=
  match p with
  | Some (_ :: _) => true
  | _ => false
  end.

(** The time asked of the timer, in ms. *)
Fixpoint totalWait (ticks : list Tick) : N :=
  match ticks with
  | [] => 0
  | Issue :: rest => totalWait rest
  | Pause ms :: rest => ms + totalWait rest
  end.

(** Two states of the component that differ at most in the progress
    message. *)
Definition sameButLoadingMessage (a b : AppState) : Prop :=
  uploadedImage a = uploadedImage b /\
  detectedObjects a = detectedObjects b /\
  animationPrompts a = animationPrompts b /\
  generatedFrames a = generatedFrames b /\
  isLoading a = isLoading b /\
  error a = error b /\
  selectedObject a = selectedObject b /\
  detectionComplete a = detectionComplete b.

(** Two states of the component that differ at most in the error
    message. *)
Definition sameButError (a b : AppState) : Prop :=
  uploadedImage a = uploadedImage b /\
  detectedObjects a = detectedObjects b /\
  animationPrompts a = animationPrompts b /\
  generatedFrames a = generatedFrames b /\
  isLoading a = isLoading b /\
  loadingMessage a = loadingMessage b /\
  selectedObject a = selectedObject b /\
  detectionComplete a = detectionComplete b.


(** ** The page of [App]

    The state of [App] beside the state of the pipeline, the handlers
    that take a file in and the handler that saves the animation.
    [currentTrivia] and [playbackSpeed] are left out: none of these
    handlers reads or writes them.  [gifWorkerUrl] is
    [gifWorkerUrlRef.current]. *)

(** A link made with [document.createElement('a')], and what is done
    with it. *)
Record Link := mkLink { href : JSString; download : JSString }.

Inductive DomEvent :=
| AppendChild (link : Link)
| Click (link : Link)
| RemoveChild (link : Link).

(** An [HTMLImageElement] that has loaded. *)
Record Image := mkImage {
  img_src : JSString;
  naturalWidth : N;
  naturalHeight : N
}.

(** The number [num / den], as [1000 / gifFps] computes it. *)
Record Quotient := mkQuotient { num : N; den : N }.

(** Calls into the canvas and into gif.js. *)
Inductive BrowserCall :=
| GifNew (workers quality : N) (workerScript : JSString) (width height : N)
| CanvasDrawImage (img : Image) (dx dy dw dh : N)
| GifAddFrame (copy : bool) (delay : Quotient)
| GifOn (event : JSString)
| GifRender.

(** [gifFps] comes from a slider over the whole numbers 1 to 30. *)
Record PageState := mkPage {
  core : AppState;
  isDragging : bool;
  isGeneratingGif : bool;
  copiedPromptIndex : Z;
  gifFps : N;
  gifProgress : Z;
  gifWorkerUrl : option JSString
}.

(** The values handed to [useState] and [useRef]. *)
Definition initialPage : PageState := mkPage emptyApp false false (-1) 10 0 None.

Definition MSG_VALID_IMAGE : JSString := js "Please upload a valid image file.".

Definition MSG_UNEXPECTED (error : JSError) : JSString :=
  js "An unexpected error occurred: " ++ message error.

(** What a handler of the page does, beside what the pipeline does. *)
Inductive PageEvent :=
| PCore (ev : Event)
| PPreventDefault
| PStopPropagation
| PLoadImage (src : JSString)
| PBrowser (call : BrowserCall)
| PDom (ev : DomEvent).

Fixpoint browserCalls (t : list PageEvent) : list BrowserCall :=
  match t with
  | [] => []
  | PBrowser call :: t' => call :: browserCalls t'
  | _ :: t' => browserCalls t'
  end.

Definition MSG_GIF_LOADING : JSString :=
  js "GIF generation components are still loading. Please try again in a moment.".

Definition MSG_GIF_FAILED : JSString :=
  js "Could not generate GIF due to a processing error.".

(** [`${p}`] for a payload. *)
Definition payloadTemplate (p : Payload) : JSString :=
  match p with
  | Some s => s
  | None => js "undefined"
  end.

(** [`data:image/png;base64,${base64}`] *)
Definition pngDataUrl (base64 : Payload) : JSString :=
  js "data:image/png;base64," ++ payloadTemplate base64.

Fixpoint coreEvents (t : list PageEvent) : list Event :=
  match t with
  | [] => []
  | PCore ev :: t' => ev :: coreEvents t'
  | _ :: t' => coreEvents t'
  end.

(** What the user does on the page, and the encoder calling back with
    the finished file. *)
Inductive Action :=
| Upload (files : list File)
| DragOver
| DragLeave
| Drop (files : list File)
| StartOver
| SelectObject (i : nat)
| GenerateAnimation
| DownloadGif
| GifFinished (blob : list N).

Section Page.

Variable ServiceState : Type.
Variable service : ServiceState -> Request -> (JSError + Response) * ServiceState.
Variable JSON_parse : JSString -> option JSON.
Variable Number_toString : JNumber -> JSString.
Variable Number_isZero : JNumber -> bool.

(** [URL.createObjectURL]: the URL minted for a file, and for the bytes
    of a blob, when [n] URLs have been minted before. *)
Variable createObjectURL : nat -> File -> JSString.
Variable createBlobURL : nat -> list N -> JSString.

(** The browser beneath [handleDownloadGif], a state machine as the
    service is.  [decodeImage] settles the load of an image from its
    [src]: its natural size, or the value handed to [onerror] (carried
    as a thrown value; the handler only logs it).
    [getContext] tells whether [canvas.getContext('2d')] yields a
    context.  [browserCall] runs a call into the canvas or gif.js, which
    may throw. *)
Variable BrowserState : Type.
Variable decodeImage : BrowserState -> JSString -> (JSError + N * N) * BrowserState.
Variable getContext : BrowserState -> bool.
Variable browserCall : BrowserState -> BrowserCall -> option JSError * BrowserState.

Record PageWorld := mkPageWorld {
  psvc : ServiceState;
  minted : nat;
  browser : BrowserState;
  page : PageState
}.

Definition P (A : Type) : Type := PageWorld -> Completion A * PageWorld * list PageEvent.

Definition pret {A} (a : A) : P A := fun pw => (Normal a, pw, []).

Definition pbind {A B} (m : P A) (k : A -> P B) : P B :=
  fun pw =>
    match m pw with
    | (Normal a, pw1, t1) =>
        match k a pw1 with
        | (r, pw2, t2) => (r, pw2, t1 ++ t2)
        end
    | (Throw e, pw1, t1) => (Throw e, pw1, t1)
    | (Diverge, pw1, t1) => (Diverge, pw1, t1)
    end.

(** [try { body } catch (err) { handler }] *)
Definition ptry_catch {A} (body : P A) (handler : JSError -> P A) : P A :=
  fun pw =>
    match body pw with
    | (Throw e, pw1, t1) =>
        match handler e pw1 with
        | (r, pw2, t2) => (r, pw2, t1 ++ t2)
        end
    | other => other
    end.

Definition pemit (ev : PageEvent) : P unit := fun pw => (Normal tt, pw, [ev]).

Definition readPage : P PageState := fun pw => (Normal (page pw), pw, []).

Definition modifyPage (f : PageState -> PageState) : P unit :=
  fun pw => (Normal tt, mkPageWorld (psvc pw) (minted pw) (browser pw) (f (page pw)), []).

Definition withCore (a : AppState) (st : PageState) : PageState :=
  mkPage a (isDragging st) (isGeneratingGif st) (copiedPromptIndex st)
         (gifFps st) (gifProgress st) (gifWorkerUrl st).

(** A computation of the pipeline, run on the page. *)
Definition liftCore {A} (m : M ServiceState A) : P A :=
  fun pw =>
    match m (mkWorld (psvc pw) (core (page pw))) with
    | (r, w', t) =>
        (r, mkPageWorld (svc w') (minted pw) (browser pw) (withCore (app w') (page pw)),
         map PCore t)
    end.

Notation "x <- m ;; k" := (pbind m (fun x => k))
  (at level 61, m at next level, right associativity).
Notation "m ;;; k" := (pbind m (fun _ => k))
  (at level 61, right associativity).

Definition setIsDragging (x : bool) : P unit :=
  modifyPage (fun st => mkPage (core st) x (isGeneratingGif st) (copiedPromptIndex st)
    (gifFps st) (gifProgress st) (gifWorkerUrl st)).

Definition setIsGeneratingGif (x : bool) : P unit :=
  modifyPage (fun st => mkPage (core st) (isDragging st) x (copiedPromptIndex st)
    (gifFps st) (gifProgress st) (gifWorkerUrl st)).

Definition setCopiedPromptIndex (x : Z) : P unit :=
  modifyPage (fun st => mkPage (core st) (isDragging st) (isGeneratingGif st) x
    (gifFps st) (gifProgress st) (gifWorkerUrl st)).

Definition setGifProgress (x : Z) : P unit :=
  modifyPage (fun st => mkPage (core st) (isDragging st) (isGeneratingGif st)
    (copiedPromptIndex st) (gifFps st) x (gifWorkerUrl st)).

Definition URL_createObjectURL (file : File) : P JSString :=
  fun pw =>
    (Normal (createObjectURL (minted pw) file),
     mkPageWorld (psvc pw) (S (minted pw)) (browser pw) (page pw), []).

(** [resetState] *)
Definition resetState : P unit :=
  liftCore (setUploadedImage None) ;;;
  liftCore (setDetectedObjects []) ;;;
  liftCore (setAnimationPrompts []) ;;;
  liftCore (setGeneratedFrames []) ;;;
  liftCore (setIsLoading false) ;;;
  liftCore (setLoadingMessage []) ;;;
  liftCore (setError None) ;;;
  liftCore (setSelectedObject None) ;;;
  liftCore (setDetectionComplete false) ;;;
  setIsGeneratingGif false ;;;
  setCopiedPromptIndex (-1) ;;;
  setGifProgress 0.

(** [processUploadedFile]; [None] is a [file] that is [undefined]. *)
Definition processUploadedFile (file : option File) : P unit :=
  match file with
  | None => liftCore (setError (Some MSG_VALID_IMAGE))
  | Some f =>
      if negb (startsWith (file_type f) (js "image/")) then
        liftCore (setError (Some MSG_VALID_IMAGE))
      else
        resetState ;;;
        liftCore (setIsLoading true) ;;;
        ptry_catch
          (imageUrl <- URL_createObjectURL f ;;
           liftCore (setUploadedImage (Some (mkUploaded imageUrl f))) ;;;
           liftCore (runObjectDetection service JSON_parse f))
          (fun err =>
             liftCore (console_error [LErr err]) ;;;
             liftCore (setError (Some (MSG_UNEXPECTED err))) ;;;
             liftCore (setIsLoading false))
  end.

(** [handleImageUpload], on the files of the input element. *)
Definition handleImageUpload (files : list File) : P unit :=
  match files with
  | file :: _ => processUploadedFile (Some file)
  | [] => pret tt
  end.

(** [handleDragOver] *)
Definition handleDragOver : P unit :=
  st <- readPage ;;
  pemit PPreventDefault ;;;
  pemit PStopPropagation ;;;
  if negb (isLoading (core st)) then setIsDragging true else pret tt.

(** [handleDragLeave] *)
Definition handleDragLeave : P unit :=
  pemit PPreventDefault ;;;
  pemit PStopPropagation ;;;
  setIsDragging false.

(** [handleDrop], on the files of the data transfer. *)
Definition handleDrop (files : list File) : P unit :=
  st <- readPage ;;
  pemit PPreventDefault ;;;
  pemit PStopPropagation ;;;
  setIsDragging false ;;;
  if isLoading (core st) then pret tt
  else
    match files with
    | file :: _ => processUploadedFile (Some file)
    | [] => pret tt
    end.

(** *** [handleDownloadGif] *)

Definition pthrow {A} (e : JSError) : P A := fun pw => (Throw e, pw, []).

Definition URL_createBlobURL (blob : list N) : P JSString :=
  fun pw =>
    (Normal (createBlobURL (minted pw) blob),
     mkPageWorld (psvc pw) (S (minted pw)) (browser pw) (page pw), []).

(** A call into the canvas or gif.js. *)
Definition call (c : BrowserCall) : P unit :=
  fun pw =>
    match browserCall (browser pw) c with
    | (None, b) => (Normal tt, mkPageWorld (psvc pw) (minted pw) b (page pw), [PBrowser c])
    | (Some e, b) => (Throw e, mkPageWorld (psvc pw) (minted pw) b (page pw), [PBrowser c])
    end.

(** [canvas.getContext('2d')], as a boolean: is there a context? *)
Definition canvas_getContext : P bool :=
  fun pw => (Normal (getContext (browser pw)), pw, []).

(** [generatedFrames.map(loadImage)]: every image is given its [src],
    which starts its load. *)
Fixpoint startLoads (frames : list Payload) : P unit :=
  match frames with
  | [] => pret tt
  | base64 :: rest => pemit (PLoadImage (pngDataUrl base64)) ;;; startLoads rest
  end.

(** [await Promise.all(...)] on the loads: the images in the order of the
    frames, or a rejection.  Of several loads that fail, the first in the
    list is taken as the one that rejects. *)
Fixpoint awaitLoads (frames : list Payload) : P (list Image) :=
  match frames with
  | [] => pret []
  | base64 :: rest =>
      img <- (fun pw =>
                match decodeImage (browser pw) (pngDataUrl base64) with
                | (inr (width, height), b) =>
                    (Normal (mkImage (pngDataUrl base64) width height),
                     mkPageWorld (psvc pw) (minted pw) b (page pw), [])
                | (inl e, b) =>
                    (Throw e, mkPageWorld (psvc pw) (minted pw) b (page pw), [])
                end) ;;
      imgs <- awaitLoads rest ;;
      pret (img :: imgs)
  end.

(** [for (const img of imageElements) { ... }] *)
Fixpoint addFrames (imageElements : list Image) (width height : N) (frameDelay : Quotient)
    : P unit :=
  match imageElements with
  | [] => pret tt
  | img :: rest =>
      call (CanvasDrawImage img 0 0 width height) ;;;
      call (GifAddFrame true frameDelay) ;;;
      addFrames rest width height frameDelay
  end.

Definition handleDownloadGif : P unit :=
  st <- readPage ;;
  if isGeneratingGif st || (List.length (generatedFrames (core st)) =? 0)%nat then pret tt
  else
    match gifWorkerUrl st with
    | None | Some [] =>
        liftCore (setError (Some MSG_GIF_LOADING)) ;;;
        liftCore (console_error [LStr (js "GIF worker URL not available.")])
    | Some workerScript =>
        setIsGeneratingGif true ;;;
        setGifProgress 0 ;;;
        ptry_catch
          (startLoads (generatedFrames (core st)) ;;;
           imageElements <- awaitLoads (generatedFrames (core st)) ;;
           match imageElements with
           | [] => setIsGeneratingGif false
           | firstImage :: _ =>
               let width := naturalWidth firstImage in
               let height := naturalHeight firstImage in
               ctx <- canvas_getContext ;;
               if negb ctx then
                 pthrow (mkError (js "Could not create canvas context to generate GIF."))
               else
                 call (GifNew 2 10 workerScript width height) ;;;
                 let frameDelay := mkQuotient 1000 (gifFps st) in
                 addFrames imageElements width height frameDelay ;;;
                 call (GifOn (js "progress")) ;;;
                 call (GifOn (js "finished")) ;;;
                 call GifRender
           end)
          (fun err =>
             liftCore (console_error [LStr (js "Error creating or rendering GIF:"); LErr err]) ;;;
             liftCore (setError (Some MSG_GIF_FAILED)) ;;;
             setIsGeneratingGif false ;;;
             setGifProgress 0)
    end.

(** The callback registered with [gif.on('finished', ...)]. *)
Definition onGifFinished (blob : list N) : P unit :=
  url <- URL_createBlobURL blob ;;
  let link := mkLink url (js "flickerfy-animation.gif") in
  pemit (PDom (AppendChild link)) ;;;
  pemit (PDom (Click link)) ;;;
  pemit (PDom (RemoveChild link)) ;;;
  setIsGeneratingGif false ;;;
  setGifProgress 0.

(** The button of the [i]-th detected object:
    [onClick={() => setSelectedObject(obj)}]. *)
Definition clickObject (i : nat) : P unit :=
  st <- readPage ;;
  match nth_error (detectedObjects (core st)) i with
  | Some obj => liftCore (setSelectedObject (Some obj))
  | None => pret tt
  end.

(** One action of the user, its handler run to the end. *)
Definition perform (a : Action) : P unit :=
  match a with
  | Upload files => handleImageUpload files
  | DragOver => handleDragOver
  | DragLeave => handleDragLeave
  | Drop files => handleDrop files
  | StartOver => resetState
  | SelectObject i => clickObject i
  | GenerateAnimation =>
      liftCore (handleGenerateAnimation service JSON_parse Number_toString Number_isZero)
  | DownloadGif => handleDownloadGif
  | GifFinished blob => onGifFinished blob
  end.

Fixpoint performAll (actions : list Action) : P unit :=
  match actions with
  | [] => pret tt
  | a :: rest => perform a ;;; performAll rest
  end.

End Page.

(** What holds of the page between two actions.  When the detection is
    complete there is an uploaded image (its [url] is read by the
    rendering), and the selection is one of the detected objects.  The
    detected objects are the elements of the array the service answered,
    whatever they are: nothing makes them objects with a [name], and an
    element [null] is stored and selected like any other.  The frames are
    lined up with their prompts. *)
Definition pageConsistent (st : PageState) : Prop :=
  isLoading (core st) = false /\
  (detectionComplete (core st) = true ->
     uploadedImage (core st) <> None /\
     detectedObjects (core st) <> [] /\
     exists obj, selectedObject (core st) = Some obj /\ In obj (detectedObjects (core st))) /\
  List.length (generatedFrames (core st)) = List.length (animationPrompts (core st)) /\
  (generatedFrames (core st) <> [] -> uploadedImage (core st) <> None).

(** A browser that numbers its object URLs. *)
Definition numberedURL (n : nat) (file : File) : JSString :=
  js "blob:flickerfy/" ++ nat_to_js n.

Definition numberedBlobURL (n : nat) (blob : list N) : JSString :=
  js "blob:flickerfy/" ++ nat_to_js n.

(** A browser without state: every image decodes to the size given, a
    canvas context exists as told, and a call throws as [throws] tells. *)
Definition plainDecode (size : N * N) (b : unit) (src : JSString)
    : (JSError + N * N) * unit :=
  (inr size, tt).

Definition plainCall (throws : BrowserCall -> option JSError) (b : unit) (c : BrowserCall)
    : option JSError * unit :=
  (throws c, tt).

(** ** [FlickerBook]

    The player: its [frames] prop and its state.  [currentFrame] is a
    number; the values that occur are integers, and [None] is [NaN].
    The interval of [startPlayback] exists exactly while [isPlaying] is
    set (the effect on [isPlaying] starts and stops it), so a tick of the
    interval is an event of a playing player only.  A change of the
    [frames] prop takes two steps: the component is rendered with the new
    frames and the state it has ([NewFrames]), and the effect on [frames]
    runs after that render ([FramesEffect]); on mount that effect sets
    the values the state already has.  The sound of a flip
    ([playFlipSound]) and the speed of the interval are left out. *)

Record Player := mkPlayer {
  pl_frames : list Payload;
  currentFrame : option Z;
  isPlaying : bool;
  isMuted : bool
}.

(** The component as mounted with [frames]: the values handed to
    [useState]. *)
Definition mountPlayer (frames : list Payload) : Player :=
  mkPlayer frames (Some 0%Z) true false.

(** [prev => (prev + 1) % frames.length] *)
Definition nextFrame (len : nat) (prev : option Z) : option Z :=
  match prev with
  | None => None
  | Some p => if (len =? 0)%nat then None else Some (Z.rem (p + 1) (Z.of_nat len))
  end.

Inductive PlayerEvent :=
| Advance
| Scrub (value : Z)
| TogglePlay
| ToggleMute
| NewFrames (frames : list Payload)
| FramesEffect.

Definition playerStep (ev : PlayerEvent) (p : Player) : Player :=
  match ev with
  | Advance =>
      if isPlaying p then
        mkPlayer (pl_frames p) (nextFrame (List.length (pl_frames p)) (currentFrame p))
                 (isPlaying p) (isMuted p)
      else p
  | Scrub value => mkPlayer (pl_frames p) (Some value) false (isMuted p)
  | TogglePlay => mkPlayer (pl_frames p) (currentFrame p) (negb (isPlaying p)) (isMuted p)
  | ToggleMute => mkPlayer (pl_frames p) (currentFrame p) (isPlaying p) (negb (isMuted p))
  | NewFrames frames => mkPlayer frames (currentFrame p) (isPlaying p) (isMuted p)
  | FramesEffect => mkPlayer (pl_frames p) (Some 0%Z) true (isMuted p)
  end.

Fixpoint playerRun (events : list PlayerEvent) (p : Player) : Player :=
  match events with
  | [] => p
  | ev :: rest => playerRun rest (playerStep ev p)
  end.

(** [frames[currentFrame]], the picture on display. *)
Definition shownFrame (p : Player) : option Payload :=
  match currentFrame p with
  | Some i => if (i <? 0)%Z then None else nth_error (pl_frames p) (Z.to_nat i)
  | None => None
  end.

(** The events the rendered controls and the interval can raise: the
    scrubber ranges over [0 .. frames.length - 1]. *)
Definition raisable (ev : PlayerEvent) (p : Player) : bool :=
  match ev with
  | Advance | TogglePlay | ToggleMute => true
  | Scrub value => (0 <=? value)%Z && (value <? Z.of_nat (List.length (pl_frames p)))%Z
  | NewFrames _ | FramesEffect => false
  end.

(** The runs considered: the player is rendered with frames (the page
    mounts it when [generatedFrames.length > 0]), and the effect on
    [frames] runs right after the render with the new frames, before the
    next event, and then only. *)
Fixpoint raisableRun (events : list PlayerEvent) (p : Player) : bool :=
  match events with
  | [] => true
  | NewFrames frames :: rest =>
      match rest with
      | FramesEffect :: rest' =>
          negb (List.length frames =? 0)%nat &&
          raisableRun rest' (playerStep FramesEffect (playerStep (NewFrames frames) p))
      | _ => false
      end
  | FramesEffect :: _ => false
  | ev :: rest => raisable ev p && raisableRun rest (playerStep ev p)
  end.

(** ** [downloadImage] *)

Definition downloadImage (base64Data : Payload) (index : nat) : list DomEvent :=
  let link := mkLink (pngDataUrl base64Data)
                     (js "frame_" ++ nat_to_js (index + 1) ++ js ".png") in
  [AppendChild link; Click link; RemoveChild link].

(** The files a run of handlers saves, by name. *)
Fixpoint savedAs (t : list DomEvent) : list JSString :=
  match t with
  | [] => []
  | Click link :: t' => download link :: savedAs t'
  | _ :: t' => savedAs t'
  end.

(** The Download Frame buttons of the gallery, pressed one after the
    other: [generatedFrames.map((frame, index) => ... downloadImage(frame, index))]. *)
Fixpoint downloadAll (frames : list Payload) (index : nat) : list DomEvent :=
  match frames with
  | [] => []
  | frame :: rest => downloadImage frame index ++ downloadAll rest (S index)
  end.

(** * Facts *)

Section Facts.

Variable ServiceState : Type.
Variable service : ServiceState -> Request -> (JSError + Response) * ServiceState.
Variable JSON_parse : JSString -> option JSON.
Variable Number_toString : JNumber -> JSString.
Variable Number_isZero : JNumber -> bool.

Ltac run_monad :=
  cbv beta iota zeta delta
    [bind ret throw diverge try_catch try_finally emit modifyApp readApp
     generateContent wait console_error console_warn
     setUploadedImage setDetectedObjects setAnimationPrompts setGeneratedFrames
     setIsLoading setLoadingMessage setError setSelectedObject setDetectionComplete
     svc app fst snd].

(** ** The conversion of a prompt *)

Lemma ToString_array_cons x rest :
  ToString Number_toString (JArray (x :: rest))
  = match (match x with JNull => inr [] | _ => ToString Number_toString x end) with
    | inl typeError => inl typeError
    | inr first =>
        match rest with
        | [] => inr first
        | _ :: _ =>
            match ToString Number_toString (JArray rest) with
            | inl typeError => inl typeError
            | inr others => inr (first ++ js "," ++ others)
            end
        end
    end.
Proof. reflexivity. Qed.

(** Induction on a parsed value, through the elements of arrays. *)
Lemma JSON_elems_ind (P : JSON -> Prop) :
  P JNull ->
  (forall b, P (JBool b)) ->
  (forall n, P (JNum n)) ->
  (forall str, P (JString str)) ->
  (forall elems, Forall P elems -> P (JArray elems)) ->
  (forall members, P (JObject members)) ->
  forall v, P v.
Proof.
  intros Hnull Hbool Hnum Hstr Harr Hobj.
  exact (fix IH (v : JSON) : P v :=
           match v with
           | JNull => Hnull
           | JBool b => Hbool b
           | JNum n => Hnum n
           | JString str => Hstr str
           | JArray elems =>
               Harr elems
                 ((fix all (l : list JSON) : Forall P l :=
                     match l with
                     | [] => Forall_nil P
                     | x :: rest => Forall_cons x (IH x) (all rest)
                     end) elems)
           | JObject members => Hobj members
           end).
Qed.

(** The conversion throws one error only, and that error is no
    rate-limit signal. *)
Lemma ToString_throws v : forall e,
  ToString Number_toString v = inl e -> e = typeErrorConvert.
Proof.
  induction v as [| b | n | str | elems IHelems | members] using JSON_elems_ind; intros e.
  - discriminate.
  - destruct b; discriminate.
  - discriminate.
  - discriminate.
  - revert e. induction IHelems as [| x rest Hx Hrest IHrest]; intros e; [discriminate |].
    rewrite ToString_array_cons.
    destruct (match x with JNull => inr [] | _ => ToString Number_toString x end)
      as [e1 | first] eqn:Hfirst.
    + intros [= <-]. destruct x; try discriminate Hfirst; apply (Hx _ Hfirst).
    + destruct rest as [| y rest']; [discriminate |].
      destruct (ToString Number_toString (JArray (y :: rest'))) as [e2 | others] eqn:Hothers;
        [| discriminate].
      intros [= <-]. apply IHrest. reflexivity.
  - cbn [ToString]. destruct (hasOwn (js "toString") members); [| discriminate].
    intros [= <-]. reflexivity.
Qed.

Lemma generationPromptOf_throws prompts i e :
  generationPromptOf Number_toString prompts i = inl e -> e = typeErrorConvert.
Proof.
  unfold generationPromptOf, templateOf.
  destruct (nth_error prompts i) as [v |]; [| discriminate].
  destruct (ToString Number_toString v) as [e' | text] eqn:Hv; [| discriminate].
  intros [= <-]. exact (ToString_throws _ Hv).
Qed.

Lemma typeErrorConvert_other : isRateLimit typeErrorConvert = false.
Proof. reflexivity. Qed.

Lemma attemptsDue_converted prompts i text :
  generationPromptOf Number_toString prompts i = inr text ->
  attemptsDue Number_toString prompts i = 1.
Proof. unfold attemptsDue, converts. intros ->. reflexivity. Qed.

Lemma attemptsDue_unconverted prompts i e :
  generationPromptOf Number_toString prompts i = inl e ->
  attemptsDue Number_toString prompts i = 0.
Proof. unfold attemptsDue, converts. intros ->. reflexivity. Qed.

(** ** One attempt *)

Lemma attempt_cases prompts i c a (w : World ServiceState) text :
  generationPromptOf Number_toString prompts i = inr text ->
  let req := frameRequest text (currentImagePart c) in
  let answer := fst (service (svc w) req) in
  let w' := mkWorld (snd (service (svc w) req)) (app w) in
  exists ca t,
    try_catch (tryGenerate service Number_toString prompts i c a) (onError i c a) w
      = (Normal ca, w', EvGenerateContent req :: t) /\
    match attemptResult answer with
    | inr blob =>
        ca = (mkChain (currentImagePart c) (allFrames c) (data blob),
              mkAttempt (attempt a) (delay a) true (data blob) (mimeType blob))
        /\ t = []
    | inl e =>
        if isRateLimit e then
          if maxRetries <=? S (attempt a) then
            ca = (c, mkAttempt (S (attempt a)) (delay a) true
                       (lastSuccessfulBase64 c) (newMimeType a))
            /\ exists args, t = [EvConsoleError args]
          else
            ca = (c, mkAttempt (S (attempt a)) (delay a * 2) (success a)
                       (newBase64Data a) (newMimeType a))
            /\ exists args, t = [EvConsoleWarn args; EvWait (delay a)]
        else
          ca = (c, mkAttempt (S (attempt a)) (delay a) true
                     (lastSuccessfulBase64 c) (newMimeType a))
          /\ exists args, t = [EvConsoleError args]
    end.
Proof.
  intros Hconv req answer w'. subst answer w'.
  unfold tryGenerate, onError. rewrite Hconv. fold req. run_monad.
  destruct (service (let (svc, _) := w in svc) req) as [[e | response] s'].
  - cbn [attemptResult]. destruct (isRateLimit e).
    + destruct (maxRetries <=? S (attempt a)); cbn [List.app];
        eexists; eexists; (split; [reflexivity | split; [reflexivity | eexists; reflexivity]]).
    + cbn [List.app].
      eexists; eexists; (split; [reflexivity | split; [reflexivity | eexists; reflexivity]]).
  - cbn [attemptResult]. destruct (imageDataOf response) as [e | blob].
    + destruct (isRateLimit e).
      * destruct (maxRetries <=? S (attempt a)); cbn [List.app];
          eexists; eexists; (split; [reflexivity | split; [reflexivity | eexists; reflexivity]]).
      * cbn [List.app].
        eexists; eexists; (split; [reflexivity | split; [reflexivity | eexists; reflexivity]]).
    + cbn [List.app]. eexists; eexists; (split; [reflexivity | split; reflexivity]).
Qed.

(** The attempt of a frame whose prompt does not convert: the [catch]
    block logs the [TypeError] and takes the fallback; the service is
    not called. *)
Lemma attempt_unconverted prompts i c a (w : World ServiceState) e :
  generationPromptOf Number_toString prompts i = inl e ->
  try_catch (tryGenerate service Number_toString prompts i c a) (onError i c a) w
  = (Normal (c, mkAttempt (S (attempt a)) (delay a) true
                          (lastSuccessfulBase64 c) (newMimeType a)),
     w,
     [EvConsoleError [LStr (js "An error occurred while generating frame "
                              ++ nat_to_js (i + 1) ++ js ":"); LErr typeErrorConvert]]).
Proof.
  intros Hconv. pose proof (generationPromptOf_throws _ _ Hconv) as ->.
  unfold tryGenerate, onError. rewrite Hconv.
  run_monad. rewrite typeErrorConvert_other. destruct w. reflexivity.
Qed.

(** ** The retry loop of one frame *)

Lemma whileAttempts_done fuel prompts i c a (w : World ServiceState) :
  (attempt a <? maxRetries) && negb (success a) = false ->
  whileAttempts service Number_toString fuel prompts i c a w = (Normal (c, a), w, []).
Proof.
  intros Hcond. destruct fuel; cbn [whileAttempts]; rewrite Hcond; reflexivity.
Qed.

Lemma whileAttempts_step fuel prompts i c a (w : World ServiceState) :
  (attempt a <? maxRetries) && negb (success a) = true ->
  whileAttempts service Number_toString (S fuel) prompts i c a w =
    match try_catch (tryGenerate service Number_toString prompts i c a) (onError i c a) w with
    | (Normal ca, w1, t1) =>
        match whileAttempts service Number_toString fuel prompts i (fst ca) (snd ca) w1 with
        | (r, w2, t2) => (r, w2, t1 ++ t2)
        end
    | (Throw e, w1, t1) => (Throw e, w1, t1)
    | (Diverge, w1, t1) => (Diverge, w1, t1)
    end.
Proof.
  intros Hcond. cbn [whileAttempts]. rewrite Hcond. reflexivity.
Qed.

Lemma firstn_ladder_step k n d :
  1 <= k ->
  firstn (2 * S k - 1) (backoffLadder (S n) d) =
    Issue :: Pause d :: firstn (2 * k - 1) (backoffLadder n (d * 2)).
Proof.
  intros Hk. replace (2 * S k - 1) with (S (S (2 * k - 1))) by lia. reflexivity.
Qed.

(** The loop of a frame whose prompt does not convert: one pass, no
    request. *)
Lemma whileAttempts_unconverted fuel prompts i c a (w : World ServiceState) e :
  generationPromptOf Number_toString prompts i = inl e ->
  success a = false ->
  attempt a < maxRetries ->
  whileAttempts service Number_toString (S fuel) prompts i c a w
  = (Normal (c, mkAttempt (S (attempt a)) (delay a) true
                          (lastSuccessfulBase64 c) (newMimeType a)),
     w,
     [EvConsoleError [LStr (js "An error occurred while generating frame "
                              ++ nat_to_js (i + 1) ++ js ":"); LErr typeErrorConvert]]).
Proof.
  intros Hconv Hs Ha.
  rewrite whileAttempts_step by (rewrite Hs; apply Nat.ltb_lt in Ha; rewrite Ha; reflexivity).
  rewrite (attempt_unconverted prompts i c a w Hconv). cbn [fst snd].
  rewrite whileAttempts_done by apply andb_false_r.
  reflexivity.
Qed.

Lemma whileAttempts_converted prompts i fuel text :
  generationPromptOf Number_toString prompts i = inr text ->
  forall c a (w : World ServiceState),
    success a = false ->
    attempt a < maxRetries ->
    maxRetries <= attempt a + fuel ->
    exists c' a' w' t,
      whileAttempts service Number_toString fuel prompts i c a w = (Normal (c', a'), w', t) /\
      success a' = true /\
      newBase64Data a' = lastSuccessfulBase64 c' /\
      currentImagePart c' = currentImagePart c /\
      allFrames c' = allFrames c /\
      app w' = app w /\
      (fellBack t = true -> lastSuccessfulBase64 c' = lastSuccessfulBase64 c) /\
      Forall (fun ev => isMarker ev = false) t /\
      Forall (fun r => r = frameRequest text (currentImagePart c)) (requestsOf t) /\
      1 <= List.length (requestsOf t) <= maxRetries - attempt a /\
      schedule t = firstn (2 * List.length (requestsOf t) - 1)
                          (backoffLadder (maxRetries - attempt a) (delay a)).
Proof.
  intros Hconv.
  induction fuel as [| fuel IH]; intros c a w Hs Ha Hfuel; [lia |].
  assert (Hcond : (attempt a <? maxRetries) && negb (success a) = true).
  { rewrite Hs. apply Nat.ltb_lt in Ha. rewrite Ha. reflexivity. }
  rewrite (whileAttempts_step _ _ _ _ _ _ Hcond).
  destruct (attempt_cases prompts i c a w Hconv) as (ca & t & Hrun & Hcase).
  rewrite Hrun. clear Hrun.
  set (req := frameRequest text (currentImagePart c)) in *.
  set (w1 := mkWorld (snd (service (svc w) req)) (app w)) in *.
  assert (Hladder : exists n, maxRetries - attempt a = S n) by (exists (maxRetries - attempt a - 1); lia).
  destruct Hladder as (n & Hn).
  assert (Hstop : forall c1 a1 tail,
             ca = (c1, a1) -> t = tail -> success a1 = true ->
             newBase64Data a1 = lastSuccessfulBase64 c1 ->
             currentImagePart c1 = currentImagePart c ->
             allFrames c1 = allFrames c ->
             (fellBack tail = true -> lastSuccessfulBase64 c1 = lastSuccessfulBase64 c) ->
             Forall (fun ev => isMarker ev = false) tail ->
             requestsOf tail = [] -> schedule tail = [] ->
             exists c' a' w' t0,
               (let (p, t2) := whileAttempts service Number_toString fuel prompts i (fst ca) (snd ca) w1 in
                let (r, w2) := p in (r, w2, (EvGenerateContent req :: t) ++ t2))
               = (Normal (c', a'), w', t0) /\
               success a' = true /\
               newBase64Data a' = lastSuccessfulBase64 c' /\
               currentImagePart c' = currentImagePart c /\
               allFrames c' = allFrames c /\
               app w' = app w /\
               (fellBack t0 = true -> lastSuccessfulBase64 c' = lastSuccessfulBase64 c) /\
               Forall (fun ev => isMarker ev = false) t0 /\
               Forall (fun r => r = req) (requestsOf t0) /\
               1 <= List.length (requestsOf t0) <= maxRetries - attempt a /\
               schedule t0 = firstn (2 * List.length (requestsOf t0) - 1)
                                    (backoffLadder (maxRetries - attempt a) (delay a))).
  { intros c1 a1 tail -> -> Hs1 Hnew Hcur Hall Hfb Hmk Hreq Hsch.
    cbn [fst snd]. rewrite whileAttempts_done by (rewrite Hs1; apply andb_false_r).
    exists c1, a1, w1, (EvGenerateContent req :: tail).
    rewrite app_nil_r.
    repeat split; auto.
    - cbn [requestsOf]. rewrite Hreq. repeat constructor.
    - cbn [requestsOf]. rewrite Hreq. cbn. lia.
    - cbn [requestsOf]. rewrite Hreq. cbn [List.length]. lia.
    - cbn [requestsOf schedule]. rewrite Hreq, Hsch, Hn. reflexivity. }
  destruct (attemptResult (fst (service (svc w) req))) as [e | blob].
  - destruct (isRateLimit e).
    + destruct (maxRetries <=? S (attempt a)) eqn:Hmax.
      * destruct Hcase as (Hca & args & Ht).
        eapply Hstop; eauto; subst; cbn; auto.
      * destruct Hcase as (Hca & args & Ht). subst ca t. cbn [fst snd].
        apply Nat.leb_gt in Hmax.
        destruct (IH c (mkAttempt (S (attempt a)) (delay a * 2) (success a)
                          (newBase64Data a) (newMimeType a)) w1)
          as (c' & a' & w' & t' & Hrun & Hs' & Hnew & Hcur & Hall & Happ & Hfb & Hmk & Hreq & Hlen & Hsch);
          cbn [success attempt]; auto; try lia.
        rewrite Hrun.
        cbn [attempt delay] in Hlen, Hsch.
        exists c', a', w', ((EvGenerateContent req :: [EvConsoleWarn args; EvWait (delay a)]) ++ t').
        cbn [List.app requestsOf schedule List.length fellBack existsb isConsoleError orb].
        repeat split; auto; try lia; try solve [repeat constructor; assumption].
        rewrite Hn. rewrite firstn_ladder_step by lia.
           rewrite Hsch. replace (maxRetries - S (attempt a)) with n by lia. reflexivity.
    + destruct Hcase as (Hca & args & Ht).
      eapply Hstop; eauto; subst; cbn; auto.
  - destruct Hcase as (Hca & Ht).
    eapply Hstop; eauto; subst; cbn; auto. discriminate.
Qed.

Lemma whileAttempts_spec prompts i fuel :
  forall c a (w : World ServiceState),
    success a = false ->
    attempt a < maxRetries ->
    maxRetries <= attempt a + fuel ->
    exists c' a' w' t,
      whileAttempts service Number_toString fuel prompts i c a w = (Normal (c', a'), w', t) /\
      success a' = true /\
      newBase64Data a' = lastSuccessfulBase64 c' /\
      currentImagePart c' = currentImagePart c /\
      allFrames c' = allFrames c /\
      app w' = app w /\
      (fellBack t = true -> lastSuccessfulBase64 c' = lastSuccessfulBase64 c) /\
      Forall (fun ev => isMarker ev = false) t /\
      Forall (fun r => exists generationPrompt,
                         generationPromptOf Number_toString prompts i = inr generationPrompt /\
                         r = frameRequest generationPrompt (currentImagePart c))
             (requestsOf t) /\
      attemptsDue Number_toString prompts i <= List.length (requestsOf t)
        <= (maxRetries - attempt a) * attemptsDue Number_toString prompts i /\
      schedule t = firstn (2 * List.length (requestsOf t) - 1)
                          (backoffLadder (maxRetries - attempt a) (delay a)).
Proof.
  intros c a w Hs Ha Hfuel.
  destruct (generationPromptOf Number_toString prompts i) as [e | text] eqn:Hconv.
  - destruct fuel as [| fuel]; [lia |].
    rewrite (whileAttempts_unconverted fuel prompts i c a w Hconv Hs Ha).
    rewrite (attemptsDue_unconverted prompts i Hconv).
    eexists. eexists. eexists. eexists. split; [reflexivity |].
    cbn [success newBase64Data requestsOf schedule List.length fellBack existsb
         isConsoleError orb].
    repeat split; auto; try lia; repeat constructor.
  - destruct (whileAttempts_converted prompts i fuel Hconv c a w Hs Ha Hfuel)
      as (c' & a' & w' & t & Hrun & Hs' & Hnew & Hcur & Hall & Happ & Hfb & Hmk & Hreq & Hlen
          & Hsch).
    rewrite (attemptsDue_converted prompts i Hconv).
    exists c', a', w', t. repeat split; auto; try lia.
    eapply Forall_impl; [| exact Hreq].
    intros r ->. exists text. split; reflexivity.
Qed.

(** ** One frame *)

Lemma frameIteration_spec prompts i c (w : World ServiceState) :
  exists d m w' msg body,
    frameIteration service Number_toString prompts i c w =
      (Normal (mkChain (base64ToGenerativePart d m) (allFrames c ++ [d]) d),
       w', EvSetLoadingMessage msg :: body) /\
    frameOk Number_toString prompts i c body d.
Proof.
  unfold frameIteration. run_monad.
  match goal with
  | |- context [whileAttempts _ _ _ _ _ ?c0 ?a0 ?w0] =>
      destruct (whileAttempts_spec prompts i maxRetries c0 a0 w0)
        as (c' & a' & w' & t & Hrun & Hs & Hnew & Hcur & Hall & Happ & Hfb & Hmk & Hreq & Hlen & Hsch);
      [reflexivity | cbn; unfold maxRetries; lia | cbn; lia |]
  end.
  rewrite Hrun. cbn [attempt delay] in Hlen, Hsch. rewrite Nat.sub_0_r in Hlen, Hsch.
  rewrite Hs. cbn [negb]. rewrite Hall, <- Hnew.
  exists (newBase64Data a'), (newMimeType a'), w'.
  eexists. exists t.
  rewrite app_nil_r. cbn [List.app].
  split; [reflexivity |].
  unfold frameOk. rewrite Hnew. auto.
Qed.

(** ** The loop over the frames *)

Lemma forFrames_S n prompts i c (w : World ServiceState) :
  forFrames service Number_toString (S n) prompts i c w =
    match frameIteration service Number_toString prompts i c w with
    | (Normal c1, w1, t1) =>
        match forFrames service Number_toString n prompts (S i) c1 w1 with
        | (r, w2, t2) => (r, w2, t1 ++ t2)
        end
    | (Throw e, w1, t1) => (Throw e, w1, t1)
    | (Diverge, w1, t1) => (Diverge, w1, t1)
    end.
Proof. reflexivity. Qed.

Lemma splitAtMarkers_body body t :
  Forall (fun ev => isMarker ev = false) body ->
  splitAtMarkers (body ++ t) = (body ++ fst (splitAtMarkers t), snd (splitAtMarkers t)).
Proof.
  induction 1 as [| ev body Hev _ IH]; cbn [List.app splitAtMarkers].
  - destruct (splitAtMarkers t); reflexivity.
  - rewrite IH, Hev. reflexivity.
Qed.

Lemma forFrames_spec n prompts :
  forall i c (w : World ServiceState),
  exists c' w' t bodies frames,
    forFrames service Number_toString n prompts i c w = (Normal c', w', t) /\
    frameRuns Number_toString prompts i c bodies frames c' /\
    splitAtMarkers t = ([], bodies) /\
    List.length frames = n /\
    List.length bodies = n /\
    allFrames c' = allFrames c ++ frames.
Proof.
  induction n as [| n IH]; intros i c w.
  - exists c, w, [], [], []. cbn. rewrite app_nil_r. repeat split. constructor.
  - rewrite forFrames_S.
    destruct (frameIteration_spec prompts i c w) as (d & m & w1 & msg & body & Hrun & Hok).
    rewrite Hrun.
    destruct (IH (S i) (mkChain (base64ToGenerativePart d m) (allFrames c ++ [d]) d) w1)
      as (c' & w' & t & bodies & frames & Hrest & Hruns & Hsplit & Hlf & Hlb & Hall).
    rewrite Hrest.
    exists c', w', ((EvSetLoadingMessage msg :: body) ++ t), (body :: bodies), (d :: frames).
    split; [reflexivity |].
    split; [econstructor; eassumption |].
    split.
    { cbn [List.app splitAtMarkers isMarker].
      rewrite splitAtMarkers_body by apply Hok.
      rewrite Hsplit. cbn [fst snd]. rewrite app_nil_r. reflexivity. }
    cbn [List.length]. rewrite Hlf, Hlb, Hall. cbn [allFrames].
    rewrite <- app_assoc. auto.
Qed.

Lemma generateFrames_spec initialImagePart prompts (w : World ServiceState) :
  exists frames w' t c',
    generateFrames service Number_toString initialImagePart prompts w = (Normal frames, w', t) /\
    frameRuns Number_toString prompts 0 (initialChain initialImagePart)
              (frameTraces t) frames c' /\
    List.length frames = List.length prompts /\
    List.length (frameTraces t) = List.length prompts.
Proof.
  unfold generateFrames.
  destruct (forFrames_spec (List.length prompts) prompts 0 (initialChain initialImagePart) w)
    as (c' & w' & t & bodies & frames & Hrun & Hruns & Hsplit & Hlf & Hlb & Hall).
  unfold initialChain in *. run_monad. rewrite Hrun.
  exists frames, w', (t ++ []), c'.
  rewrite app_nil_r. cbn [allFrames List.app] in Hall. rewrite Hall.
  unfold frameTraces. rewrite Hsplit. cbn [snd]. auto.
Qed.

(** ** What a run of the loop implies *)

Lemma frameRuns_head_input toStr prompts i c body bodies frames c' :
  frameRuns toStr prompts i c (body :: bodies) frames c' ->
  Forall (fun req => inputPayload req = Some (data (inlineData (currentImagePart c))))
         (requestsOf body).
Proof.
  intros Hruns. inversion Hruns as [| ? ? ? d m ? ? ? Hok _]; subst.
  destruct Hok as (_ & _ & Hreq & _).
  eapply Forall_impl; [| exact Hreq].
  intros req (text & _ & ->). reflexivity.
Qed.

Lemma frameRuns_fallback toStr prompts i c bodies frames c' :
  frameRuns toStr prompts i c bodies frames c' ->
  forall k,
    k < List.length bodies ->
    fellBack (nth k bodies []) = true ->
    nth_error frames k =
      Some (match k with O => lastSuccessfulBase64 c | S j => nth j frames None end).
Proof.
  induction 1 as [| i c body d m bodies frames c' Hok Hruns IH]; intros k Hk Hfb.
  - cbn in Hk. lia.
  - destruct k as [| k].
    + cbn in Hfb |- *. destruct Hok as (Hd & _). rewrite (Hd Hfb). reflexivity.
    + cbn [nth List.length] in Hk, Hfb. apply Nat.succ_lt_mono in Hk.
      specialize (IH k Hk Hfb). cbn [nth_error]. rewrite IH.
      destruct k; reflexivity.
Qed.

Lemma frameRuns_stalled toStr prompts i c bodies frames c' :
  frameRuns toStr prompts i c bodies frames c' ->
  forall k,
    k < List.length bodies ->
    (forall j, j <= k -> fellBack (nth j bodies []) = true) ->
    nth_error frames k = Some (lastSuccessfulBase64 c).
Proof.
  induction 1 as [| i c body d m bodies frames c' Hok Hruns IH]; intros k Hk Hall.
  - cbn in Hk. lia.
  - assert (Hd : d = lastSuccessfulBase64 c).
    { destruct Hok as (Hd & _). apply Hd. apply (Hall 0). lia. }
    destruct k as [| k].
    + cbn. rewrite Hd. reflexivity.
    + cbn [List.length] in Hk. apply Nat.succ_lt_mono in Hk.
      cbn [nth_error]. rewrite (IH k Hk).
      * cbn. rewrite Hd. reflexivity.
      * intros j Hj. apply (Hall (S j)). lia.
Qed.

Lemma frameRuns_next_input toStr prompts i c bodies frames c' :
  frameRuns toStr prompts i c bodies frames c' ->
  forall k,
    Forall (fun req => inputPayload req = nth_error frames k)
           (requestsOf (nth (S k) bodies [])).
Proof.
  induction 1 as [| i c body d m bodies frames c' Hok Hruns IH]; intros k.
  - cbn. constructor.
  - destruct k as [| k].
    + cbn [nth nth_error]. destruct bodies as [| body' bodies'].
      * cbn. constructor.
      * cbn [nth]. apply (frameRuns_head_input Hruns).
    + cbn [nth nth_error]. apply IH.
Qed.

Lemma frameRuns_requests toStr prompts i c bodies frames c' :
  frameRuns toStr prompts i c bodies frames c' ->
  forall k, k < List.length bodies ->
    attemptsDue toStr prompts (i + k) <= List.length (requestsOf (nth k bodies [])).
Proof.
  induction 1 as [| i c body d m bodies frames c' Hok Hruns IH]; intros k Hk.
  - cbn in Hk. lia.
  - destruct k as [| k].
    + cbn [nth]. rewrite Nat.add_0_r. apply Hok.
    + cbn [nth]. replace (i + S k) with (S i + k) by lia. apply IH. cbn in Hk. lia.
Qed.

Lemma skipn_nth_error {A} (l : list A) : forall i x,
  nth_error l i = Some x -> skipn i l = x :: skipn (S i) l.
Proof.
  induction l as [| y l IH]; intros [| i] x Hx; cbn in Hx; try discriminate.
  - inversion Hx. reflexivity.
  - cbn [skipn]. rewrite (IH i x Hx). reflexivity.
Qed.


(** ** The claims about [generateFrames] *)


(** The fallback seen from the trace: a frame whose part of the trace has
    a [console.error] repeats the payload before it. *)
Lemma fallback_in_trace initialImagePart prompts
    (w : World ServiceState) k :
  k < List.length prompts ->
  fellBack (nth k (frameTraces
                     (snd (generateFrames service Number_toString initialImagePart prompts w)))
                []) = true ->
  exists frames w' t,
    generateFrames service Number_toString initialImagePart prompts w
      = (Normal frames, w', t) /\
    nth_error frames k =
      Some (match k with
            | O => data (inlineData initialImagePart)
            | S j => nth j frames None
            end) /\
    ((forall j, j <= k -> fellBack (nth j (frameTraces t) []) = true) ->
     nth_error frames k = Some (data (inlineData initialImagePart))) /\
    Forall (fun req => inputPayload req = nth_error frames k)
           (requestsOf (nth (S k) (frameTraces t) [])) /\
    (S k < List.length prompts ->
     converts Number_toString prompts (S k) = true ->
     1 <= List.length (requestsOf (nth (S k) (frameTraces t) []))).
Proof.
  intros Hk Hfb.
  destruct (generateFrames_spec initialImagePart prompts w)
    as (frames & w' & t & c' & Hrun & Hruns & Hlf & Hlb).
  rewrite Hrun in Hfb. cbn [snd] in Hfb.
  exists frames, w', t.
  split; [exact Hrun |].
  split.
  { apply (frameRuns_fallback Hruns); [lia | exact Hfb]. }
  split.
  { intros Hall. apply (frameRuns_stalled Hruns); [lia | exact Hall]. }
  split.
  { apply (frameRuns_next_input Hruns). }
  intros Hnext Hconv.
  pose proof (frameRuns_requests Hruns (k := S k) ltac:(lia)) as Hdue.
  unfold attemptsDue in Hdue. cbn [Nat.add] in Hdue. rewrite Hconv in Hdue. exact Hdue.
Qed.

Lemma forFrames_add k prompts : forall m i c (w : World ServiceState),
  forFrames service Number_toString (k + m) prompts i c w =
    match forFrames service Number_toString k prompts i c w with
    | (Normal c1, w1, t1) =>
        match forFrames service Number_toString m prompts (i + k) c1 w1 with
        | (r, w2, t2) => (r, w2, t1 ++ t2)
        end
    | (Throw e, w1, t1) => (Throw e, w1, t1)
    | (Diverge, w1, t1) => (Diverge, w1, t1)
    end.
Proof.
  induction k as [| k IH]; intros m i c w.
  - cbn [Nat.add forFrames]. unfold ret at 1. rewrite Nat.add_0_r.
    destruct (forFrames service Number_toString m prompts i c w) as [[r w2] t2].
    reflexivity.
  - cbn [Nat.add]. rewrite !forFrames_S.
    destruct (frameIteration service Number_toString prompts i c w) as [[[c1 | e |] w1] t1];
      try reflexivity.
    rewrite IH.
    destruct (forFrames service Number_toString k prompts (S i) c1 w1) as [[[c2 | e |] w2] t2];
      try reflexivity.
    replace (i + S k) with (S i + k) by lia.
    destruct (forFrames service Number_toString m prompts (S i + k) c2 w2) as [[r w3] t3].
    rewrite app_assoc. reflexivity.
Qed.

Lemma frameRuns_invariant toStr prompts i c bodies frames c' :
  frameRuns toStr prompts i c bodies frames c' ->
  chainInvariant c -> chainInvariant c'.
Proof.
  induction 1 as [| i c body d m bodies frames c' Hok Hruns IH]; intros Hinv.
  - exact Hinv.
  - apply IH. reflexivity.
Qed.

Lemma last_nonempty {A} (l : list A) : forall p x y, last (p :: l) x = last (p :: l) y.
Proof.
  induction l as [| q l IH]; intros p x y; [reflexivity |].
  change (last (q :: l) x = last (q :: l) y). apply IH.
Qed.

Lemma frameRuns_last toStr prompts i c bodies frames c' :
  frameRuns toStr prompts i c bodies frames c' ->
  lastSuccessfulBase64 c' = last frames (lastSuccessfulBase64 c).
Proof.
  induction 1 as [| i c body d m bodies frames c' Hok Hruns IH]; [reflexivity |].
  rewrite IH. cbn [lastSuccessfulBase64].
  destruct frames as [| p frames]; [reflexivity |].
  change (last (p :: frames) d = last (p :: frames) (lastSuccessfulBase64 c)).
  apply last_nonempty.
Qed.

(** C10.  The chain variables at the start of iteration [k] of the loop
    of [generateFrames] are what [k] iterations leave ([forFrames k]; the
    loop of [k + m] iterations goes on from there).  At that point the
    data of [currentImagePart] is [lastSuccessfulBase64], which is the
    payload pushed last (the data of the original image when none has
    been pushed); [k] payloads have been pushed; and iteration [k] itself
    sends that data as the input image of each of its requests, pushes
    one payload [d], and leaves [d] both as the data of the next chain
    image and as [lastSuccessfulBase64], whichever path it took. *)
Theorem C10_chain_image_is_last_successful initialImagePart prompts
    (w : World ServiceState) k m :
  exists c w1 t1,
    forFrames service Number_toString k prompts 0 (initialChain initialImagePart) w
      = (Normal c, w1, t1) /\
    forFrames service Number_toString (k + m) prompts 0 (initialChain initialImagePart) w
      = (let '(r, w2, t2) := forFrames service Number_toString m prompts k c w1 in
         (r, w2, t1 ++ t2)) /\
    chainInvariant c /\
    lastSuccessfulBase64 c = last (allFrames c) (data (inlineData initialImagePart)) /\
    List.length (allFrames c) = k /\
    exists d mime w2 msg body,
      frameIteration service Number_toString prompts k c w1
        = (Normal (mkChain (base64ToGenerativePart d mime) (allFrames c ++ [d]) d),
           w2, EvSetLoadingMessage msg :: body) /\
      Forall (fun req => inputPayload req = Some (lastSuccessfulBase64 c))
             (requestsOf body).
Proof.
  destruct (forFrames_spec k prompts 0 (initialChain initialImagePart) w)
    as (c & w1 & t1 & bodies & frames & Hrun & Hruns & Hsplit & Hlf & Hlb & Hall).
  exists c, w1, t1.
  assert (Hinv : chainInvariant c).
  { apply (frameRuns_invariant Hruns). reflexivity. }
  split; [exact Hrun |].
  split.
  { rewrite forFrames_add, Hrun. reflexivity. }
  split; [exact Hinv |].
  split.
  { rewrite Hall. cbn [initialChain allFrames List.app]. apply (frameRuns_last Hruns). }
  split.
  { rewrite Hall. cbn. exact Hlf. }
  destruct (frameIteration_spec prompts k c w1) as (d & mime & w2 & msg & body & Hit & Hok).
  exists d, mime, w2, msg, body.
  split; [exact Hit |].
  destruct Hok as (_ & _ & Hreq & _).
  eapply Forall_impl; [| exact Hreq].
  intros req (text & _ & ->). unfold inputPayload. cbn. rewrite Hinv. reflexivity.
Qed.

(** ** The paths of one frame *)

Lemma whileAttempts_retry fuel prompts i c a (w : World ServiceState) e text :
  generationPromptOf Number_toString prompts i = inr text ->
  let req := frameRequest text (currentImagePart c) in
  success a = false ->
  S (attempt a) < maxRetries ->
  attemptResult (fst (service (svc w) req)) = inl e ->
  isRateLimit e = true ->
  exists args,
    whileAttempts service Number_toString (S fuel) prompts i c a w =
      (let '(r, w2, t2) :=
         whileAttempts service Number_toString fuel prompts i c
           (mkAttempt (S (attempt a)) (delay a * 2) false (newBase64Data a) (newMimeType a))
           (mkWorld (snd (service (svc w) req)) (app w)) in
       (r, w2, EvGenerateContent req :: EvConsoleWarn args :: EvWait (delay a) :: t2)).
Proof.
  intros Hconv req Hs Ha Hres Hrl.
  rewrite whileAttempts_step
    by (rewrite Hs; replace (attempt a <? maxRetries) with true
          by (symmetry; apply Nat.ltb_lt; lia); reflexivity).
  destruct (attempt_cases prompts i c a w Hconv) as (ca & t & Hrun & Hcase).
  fold req in Hrun, Hcase. rewrite Hres, Hrl in Hcase.
  replace (maxRetries <=? S (attempt a)) with false in Hcase
    by (symmetry; apply Nat.leb_gt; lia).
  destruct Hcase as (-> & args & ->). rewrite Hrun, Hs. cbn [fst snd].
  exists args.
  match goal with
  | |- context [whileAttempts _ _ _ _ _ ?c0 ?a0 ?w0] =>
      destruct (whileAttempts service Number_toString fuel prompts i c0 a0 w0) as [[r w2] t2]
  end.
  reflexivity.
Qed.

Lemma whileAttempts_fallback fuel prompts i c a (w : World ServiceState) e text :
  generationPromptOf Number_toString prompts i = inr text ->
  let req := frameRequest text (currentImagePart c) in
  success a = false ->
  attempt a < maxRetries ->
  attemptResult (fst (service (svc w) req)) = inl e ->
  isRateLimit e = false \/ maxRetries <= S (attempt a) ->
  exists args,
    whileAttempts service Number_toString (S fuel) prompts i c a w =
      (Normal (c, mkAttempt (S (attempt a)) (delay a) true (lastSuccessfulBase64 c)
                    (newMimeType a)),
       mkWorld (snd (service (svc w) req)) (app w),
       [EvGenerateContent req; EvConsoleError args]).
Proof.
  intros Hconv req Hs Ha Hres Hwhy.
  rewrite whileAttempts_step
    by (rewrite Hs; replace (attempt a <? maxRetries) with true
          by (symmetry; apply Nat.ltb_lt; lia); reflexivity).
  destruct (attempt_cases prompts i c a w Hconv) as (ca & t & Hrun & Hcase).
  fold req in Hrun, Hcase. rewrite Hres in Hcase. rewrite Hrun.
  assert (Hfall : ca = (c, mkAttempt (S (attempt a)) (delay a) true
                              (lastSuccessfulBase64 c) (newMimeType a))
                  /\ exists args, t = [EvConsoleError args]).
  { destruct (isRateLimit e) eqn:Hrl; [| exact Hcase].
    destruct Hwhy as [Hno | Hmax]; [discriminate |].
    apply Nat.leb_le in Hmax. rewrite Hmax in Hcase. exact Hcase. }
  destruct Hfall as (-> & args & ->). cbn [fst snd].
  rewrite whileAttempts_done by apply andb_false_r.
  exists args. reflexivity.
Qed.

Lemma frameIteration_of_while prompts i c (w : World ServiceState) c' a' w' t :
  whileAttempts service Number_toString maxRetries prompts i c
    (mkAttempt 0 2000 false None (mimeType (inlineData (currentImagePart c))))
    (snd (fst (setLoadingMessage (frameProgressMessage prompts i) w)))
    = (Normal (c', a'), w', t) ->
  success a' = true ->
  frameIteration service Number_toString prompts i c w =
    (Normal (mkChain (base64ToGenerativePart (newBase64Data a') (newMimeType a'))
                     (allFrames c' ++ [newBase64Data a'])
                     (lastSuccessfulBase64 c')),
     w', EvSetLoadingMessage (frameProgressMessage prompts i) :: t).
Proof.
  intros Hrun Hs. unfold frameIteration.
  revert Hrun. run_monad. intros Hrun. rewrite Hrun, Hs.
  rewrite app_nil_r. reflexivity.
Qed.

Lemma isRateLimited_inv answer :
  isRateLimited answer = true ->
  exists e, attemptResult answer = inl e /\ isRateLimit e = true.
Proof.
  unfold isRateLimited. destruct (attemptResult answer) as [e | blob]; [eauto | discriminate].
Qed.

Lemma firstn_ladder k :
  k <= maxRetries ->
  firstn (2 * k - 1) (backoffLadder maxRetries 2000)
  = firstn (2 * k - 1) [Issue; Pause 2000; Issue; Pause 4000; Issue].
Proof.
  unfold maxRetries. intros Hk.
  assert (Hcases : k = 0 \/ k = 1 \/ k = 2 \/ k = 3) by lia.
  destruct Hcases as [-> | [-> | [-> | ->]]]; reflexivity.
Qed.

Lemma whileAttempts_success fuel prompts i c a (w : World ServiceState) blob text :
  generationPromptOf Number_toString prompts i = inr text ->
  let req := frameRequest text (currentImagePart c) in
  success a = false ->
  attempt a < maxRetries ->
  attemptResult (fst (service (svc w) req)) = inr blob ->
  whileAttempts service Number_toString (S fuel) prompts i c a w =
    (Normal (mkChain (currentImagePart c) (allFrames c) (data blob),
             mkAttempt (attempt a) (delay a) true (data blob) (mimeType blob)),
     mkWorld (snd (service (svc w) req)) (app w),
     [EvGenerateContent req]).
Proof.
  intros Hconv req Hs Ha Hres.
  rewrite whileAttempts_step
    by (rewrite Hs; replace (attempt a <? maxRetries) with true
          by (symmetry; apply Nat.ltb_lt; lia); reflexivity).
  destruct (attempt_cases prompts i c a w Hconv) as (ca & t & Hrun & Hcase).
  fold req in Hrun, Hcase. rewrite Hres in Hcase. rewrite Hrun.
  destruct Hcase as (-> & ->). cbn [fst snd].
  rewrite whileAttempts_done by apply andb_false_r.
  reflexivity.
Qed.

(** The fallback paths are taken exactly when the frame fails for good. *)
Lemma frameIteration_fellBack prompts i c (w : World ServiceState) :
  exists c' w' msg body,
    frameIteration service Number_toString prompts i c w
      = (Normal c', w', EvSetLoadingMessage msg :: body) /\
    fellBack body
    = frameFailsAt service Number_toString prompts i (currentImagePart c) (svc w).
Proof.
  unfold frameFailsAt.
  destruct (generationPromptOf Number_toString prompts i) as [e0 | text] eqn:Hconv.
  { pose proof (whileAttempts_unconverted 2 prompts i c
                  (mkAttempt 0 2000 false None (mimeType (inlineData (currentImagePart c))))
                  (snd (fst (setLoadingMessage (frameProgressMessage prompts i) w)))
                  Hconv eq_refl ltac:(cbn; unfold maxRetries; lia)) as Hw.
    pose proof (frameIteration_of_while prompts i c w Hw eq_refl) as Hrun.
    eexists. eexists. eexists. eexists. split; [exact Hrun | reflexivity]. }
  set (req := frameRequest text (currentImagePart c)).
  set (mime := mimeType (inlineData (currentImagePart c))).
  set (w0 := snd (fst (setLoadingMessage (frameProgressMessage prompts i) w))).
  assert (Hsvc0 : svc w0 = svc w) by reflexivity.
  unfold frameFails, isOtherFailure, isRateLimited.
  destruct (service (svc w) req) as [answer1 s1] eqn:H1.
  assert (Hfb : forall e,
             attemptResult answer1 = inl e -> isRateLimit e = false ->
             exists c' w' msg body,
               frameIteration service Number_toString prompts i c w
                 = (Normal c', w', EvSetLoadingMessage msg :: body) /\
               fellBack body = true).
  { intros e He Hrl.
    destruct (whileAttempts_fallback 2 prompts i c (mkAttempt 0 2000 false None mime) w0 (e := e) Hconv)
      as (args & Hw); [reflexivity | cbn; unfold maxRetries; lia
                      | rewrite Hsvc0; fold req; rewrite H1; exact He | left; exact Hrl |].
    pose proof (frameIteration_of_while prompts i c w Hw eq_refl) as Hrun.
    eexists. eexists. eexists. eexists. split; [exact Hrun | reflexivity]. }
  destruct (attemptResult answer1) as [e1 | blob1] eqn:Hr1.
  2:{ pose proof (whileAttempts_success 2 prompts i c (mkAttempt 0 2000 false None mime) w0
                    (blob := blob1) Hconv) as Hw.
      cbv zeta in Hw. fold req in Hw. rewrite Hsvc0, H1 in Hw.
      specialize (Hw eq_refl). cbn [attempt] in Hw.
      specialize (Hw ltac:(unfold maxRetries; lia) Hr1).
      pose proof (frameIteration_of_while prompts i c w Hw eq_refl) as Hrun.
      eexists. eexists. eexists. eexists. split; [exact Hrun | reflexivity]. }
  destruct (isRateLimit e1) eqn:Hl1; cbn [negb].
  2:{ apply (Hfb e1 eq_refl Hl1). }
  clear Hfb.
  destruct (whileAttempts_retry 2 prompts i c (mkAttempt 0 2000 false None mime) w0 (e := e1) Hconv)
    as (args1 & Hw1);
    [reflexivity | cbn; unfold maxRetries; lia
    | rewrite Hsvc0; fold req; rewrite H1; exact Hr1 | exact Hl1 |].
  cbn [attempt delay newBase64Data newMimeType] in Hw1. fold req in Hw1.
  rewrite Hsvc0, H1 in Hw1. cbn [snd] in Hw1.
  set (w1 := mkWorld s1 (app w0)) in *.
  destruct (service s1 req) as [answer2 s2] eqn:H2.
  destruct (attemptResult answer2) as [e2 | blob2] eqn:Hr2.
  2:{ pose proof (whileAttempts_success 1 prompts i c (mkAttempt 1 (2000 * 2) false None mime) w1
                    (blob := blob2) Hconv) as Hw.
      cbv zeta in Hw. fold req in Hw. change (svc w1) with s1 in Hw. rewrite H2 in Hw.
      specialize (Hw eq_refl). cbn [attempt] in Hw.
      specialize (Hw ltac:(unfold maxRetries; lia) Hr2).
      rewrite Hw in Hw1.
      pose proof (frameIteration_of_while prompts i c w Hw1 eq_refl) as Hrun.
      eexists. eexists. eexists. eexists. split; [exact Hrun | reflexivity]. }
  destruct (isRateLimit e2) eqn:Hl2; cbn [negb].
  2:{ destruct (whileAttempts_fallback 1 prompts i c (mkAttempt 1 (2000 * 2) false None mime) w1
                  (e := e2) Hconv) as (args & Hw);
        [reflexivity | cbn; unfold maxRetries; lia
        | fold req; change (svc w1) with s1; rewrite H2; exact Hr2 | left; exact Hl2 |].
      rewrite Hw in Hw1.
      pose proof (frameIteration_of_while prompts i c w Hw1 eq_refl) as Hrun.
      eexists. eexists. eexists. eexists. split; [exact Hrun | reflexivity]. }
  destruct (whileAttempts_retry 1 prompts i c (mkAttempt 1 (2000 * 2) false None mime) w1 (e := e2) Hconv)
    as (args2 & Hw2);
    [reflexivity | cbn; unfold maxRetries; lia
    | fold req; change (svc w1) with s1; rewrite H2; exact Hr2 | exact Hl2 |].
  cbn [attempt delay newBase64Data newMimeType] in Hw2. fold req in Hw2.
  change (svc w1) with s1 in Hw2. rewrite H2 in Hw2. cbn [snd] in Hw2.
  set (w2 := mkWorld s2 (app w1)) in *.
  destruct (service s2 req) as [answer3 s3] eqn:H3.
  destruct (attemptResult answer3) as [e3 | blob3] eqn:Hr3.
  2:{ pose proof (whileAttempts_success 0 prompts i c (mkAttempt 2 (2000 * 2 * 2) false None mime) w2
                    (blob := blob3) Hconv) as Hw.
      cbv zeta in Hw. fold req in Hw. change (svc w2) with s2 in Hw. rewrite H3 in Hw.
      specialize (Hw eq_refl). cbn [attempt] in Hw.
      specialize (Hw ltac:(unfold maxRetries; lia) Hr3).
      rewrite Hw in Hw2. rewrite Hw2 in Hw1.
      pose proof (frameIteration_of_while prompts i c w Hw1 eq_refl) as Hrun.
      eexists. eexists. eexists. eexists. split; [exact Hrun | reflexivity]. }
  destruct (whileAttempts_fallback 0 prompts i c (mkAttempt 2 (2000 * 2 * 2) false None mime) w2
              (e := e3) Hconv) as (args & Hw);
    [reflexivity | cbn; unfold maxRetries; lia
    | fold req; change (svc w2) with s2; rewrite H3; exact Hr3
    | right; cbn; unfold maxRetries; lia |].
  rewrite Hw in Hw2. rewrite Hw2 in Hw1.
  pose proof (frameIteration_of_while prompts i c w Hw1 eq_refl) as Hrun.
  eexists. eexists. eexists. eexists. split; [exact Hrun |].
  cbn. destruct (isRateLimit e3); reflexivity.
Qed.

Lemma splitAtMarkers_app t1 t2 segs2 :
  splitAtMarkers t2 = ([], segs2) ->
  splitAtMarkers (t1 ++ t2) = (fst (splitAtMarkers t1), snd (splitAtMarkers t1) ++ segs2).
Proof.
  intros H2. induction t1 as [| ev t1 IH]; cbn [List.app splitAtMarkers].
  - rewrite H2. reflexivity.
  - rewrite IH. destruct (splitAtMarkers t1) as [cur rest]. cbn [fst snd].
    destruct (isMarker ev); reflexivity.
Qed.

(** The part of the trace of [generateFrames] that belongs to frame [k]
    is the trace of the iteration the loop runs from the state it has
    reached after [k] frames. *)
Lemma frame_trace_of_run initialImagePart prompts (w : World ServiceState) k c w1 t1 c' w2 msg body :
  k < List.length prompts ->
  forFrames service Number_toString k prompts 0 (initialChain initialImagePart) w
    = (Normal c, w1, t1) ->
  frameIteration service Number_toString prompts k c w1
    = (Normal c', w2, EvSetLoadingMessage msg :: body) ->
  nth k (frameTraces
           (snd (generateFrames service Number_toString initialImagePart prompts w))) []
  = body.
Proof.
  intros Hk Hpre Hit.
  destruct (forFrames_spec k prompts 0 (initialChain initialImagePart) w)
    as (c0 & w0 & t0 & bodies1 & frames1 & Hpre' & _ & Hsplit1 & _ & Hlb1 & _).
  rewrite Hpre in Hpre'. inversion Hpre'; subst c0 w0 t0. clear Hpre'.
  destruct (forFrames_spec (List.length prompts - S k) prompts (S k) c' w2)
    as (c3 & w3 & t3 & bodies3 & frames3 & Hpost & _ & Hsplit3 & _).
  unfold generateFrames. fold (initialChain initialImagePart).
  replace (List.length prompts) with (k + S (List.length prompts - S k)) at 1 by lia.
  unfold bind at 1. rewrite forFrames_add, Hpre. rewrite Nat.add_0_l.
  rewrite forFrames_S, Hit, Hpost. unfold ret. cbn [snd].
  unfold frameTraces. rewrite app_nil_r.
  rewrite (@splitAtMarkers_app t1 _ (body :: bodies3)).
  - rewrite Hsplit1. cbn [fst snd]. rewrite app_nth2 by lia.
    rewrite Hlb1, Nat.sub_diag. reflexivity.
  - cbn [List.app splitAtMarkers isMarker].
    destruct (frameIteration_spec prompts k c w1) as (d & m & w2' & msg' & body' & Hit' & Hok).
    rewrite Hit in Hit'. inversion Hit'; subst.
    rewrite splitAtMarkers_body by apply Hok.
    rewrite Hsplit3. cbn [fst snd]. rewrite app_nil_r. reflexivity.
Qed.

(** C1.  Frames are counted from 0 here: frame [k] is the one for
    [prompts[k]].  The loop reaches frame [k] with chain variables [c],
    the service being in state [svc w1].  If from there the frame fails
    for good (the rate-limit retries are used up, or an error comes that
    is no rate-limit signal, the [TypeError] of a prompt that does not
    convert to a string being one), then the payload pushed for frame
    [k] is the payload of frame [k - 1], or the data of the original
    image for [k = 0]; it is the data of the original image as long as
    every frame so far took a fallback path; and every request of frame
    [k + 1] carries that payload as its input image (there is such a
    request when [k + 1] is a frame whose prompt converts). *)
Theorem C1_fallback_reuses_previous_payload initialImagePart prompts
    (w : World ServiceState) k :
  k < List.length prompts ->
  exists c w1 t1,
    forFrames service Number_toString k prompts 0 (initialChain initialImagePart) w
      = (Normal c, w1, t1) /\
    (frameFailsAt service Number_toString prompts k (currentImagePart c) (svc w1) = true ->
     exists frames w' t,
       generateFrames service Number_toString initialImagePart prompts w
         = (Normal frames, w', t) /\
       fellBack (nth k (frameTraces t) []) = true /\
       nth_error frames k =
         Some (match k with
               | O => data (inlineData initialImagePart)
               | S j => nth j frames None
               end) /\
       ((forall j, j <= k -> fellBack (nth j (frameTraces t) []) = true) ->
        nth_error frames k = Some (data (inlineData initialImagePart))) /\
       Forall (fun req => inputPayload req = nth_error frames k)
              (requestsOf (nth (S k) (frameTraces t) [])) /\
       (S k < List.length prompts ->
        converts Number_toString prompts (S k) = true ->
        1 <= List.length (requestsOf (nth (S k) (frameTraces t) [])))).
Proof.
  intros Hk.
  destruct (forFrames_spec k prompts 0 (initialChain initialImagePart) w)
    as (c & w1 & t1 & bodies1 & frames1 & Hpre & _).
  exists c, w1, t1. split; [exact Hpre |].
  intros Hfails.
  destruct (frameIteration_fellBack prompts k c w1) as (c' & w2 & msg & body & Hit & Hfb).
  rewrite Hfails in Hfb.
  pose proof (frame_trace_of_run initialImagePart prompts w Hk Hpre Hit) as Hnth.
  assert (Hlog : fellBack (nth k (frameTraces
                   (snd (generateFrames service Number_toString initialImagePart prompts w)))
                   []) = true) by (rewrite Hnth; exact Hfb).
  destruct (fallback_in_trace initialImagePart prompts w Hk Hlog)
    as (frames & w' & t & Hrun & Hprev & Hstall & Hnext & Hone).
  exists frames, w', t.
  rewrite Hrun in Hlog. cbn [snd] in Hlog.
  repeat split; assumption.
Qed.

(** The work on a frame whose prompt does not convert: the progress
    message and the [console.error]; the service is not called, and the
    frame takes the fallback payload. *)
Lemma frameIteration_unconverted prompts i c (w : World ServiceState) e :
  generationPromptOf Number_toString prompts i = inl e ->
  exists w' args,
    frameIteration service Number_toString prompts i c w
      = (Normal (mkChain (base64ToGenerativePart (lastSuccessfulBase64 c)
                            (mimeType (inlineData (currentImagePart c))))
                         (allFrames c ++ [lastSuccessfulBase64 c])
                         (lastSuccessfulBase64 c)),
         w', [EvSetLoadingMessage (frameProgressMessage prompts i); EvConsoleError args]) /\
    svc w' = svc w.
Proof.
  intros Hconv.
  pose proof (whileAttempts_unconverted 2 prompts i c
                (mkAttempt 0 2000 false None (mimeType (inlineData (currentImagePart c))))
                (snd (fst (setLoadingMessage (frameProgressMessage prompts i) w)))
                Hconv eq_refl ltac:(cbn; unfold maxRetries; lia)) as Hw.
  pose proof (frameIteration_of_while prompts i c w Hw eq_refl) as Hrun.
  eexists. eexists. split; [exact Hrun | reflexivity].
Qed.

(** C4.  For every frame and every behaviour of the service, the work on
    the frame issues at most three generation requests (at least one
    when the prompt of the frame converts to a string, none when its
    conversion throws), and its requests and timer waits (a wait is the
    delay handed to [setTimeout], which the timer lets pass at least)
    are a prefix of: attempt, wait 2000 ms, attempt, wait 4000 ms,
    attempt.  When the service answers the three attempts with
    rate-limit errors, exactly that sequence is run, the service has
    been called three times and no more, and the frame takes the
    fallback payload. *)
Theorem C4_backoff_schedule prompts i c (w : World ServiceState) :
  exists c' w' msg body,
    frameIteration service Number_toString prompts i c w
      = (Normal c', w', EvSetLoadingMessage msg :: body) /\
    List.length (requestsOf body) <= 3 /\
    schedule body = firstn (2 * List.length (requestsOf body) - 1)
                           [Issue; Pause 2000; Issue; Pause 4000; Issue] /\
    match generationPromptOf Number_toString prompts i with
    | inl _ => requestsOf body = [] /\ svc w' = svc w
    | inr text =>
        let req := frameRequest text (currentImagePart c) in
        let s1 := snd (service (svc w) req) in
        let s2 := snd (service s1 req) in
        let s3 := snd (service s2 req) in
        1 <= List.length (requestsOf body) /\
        (isRateLimited (fst (service (svc w) req)) = true ->
         isRateLimited (fst (service s1 req)) = true ->
         isRateLimited (fst (service s2 req)) = true ->
         schedule body = [Issue; Pause 2000; Issue; Pause 4000; Issue] /\
         fellBack body = true /\
         svc w' = s3 /\
         allFrames c' = allFrames c ++ [lastSuccessfulBase64 c] /\
         data (inlineData (currentImagePart c')) = lastSuccessfulBase64 c)
    end.
Proof.
  destruct (frameIteration_spec prompts i c w) as (d & m & w' & msg & body & Hrun & Hok).
  eexists. exists w', msg, body.
  split; [exact Hrun |].
  destruct Hok as (_ & _ & _ & Hcount & Hsch).
  assert (Hmax : List.length (requestsOf body) <= maxRetries).
  { unfold attemptsDue in Hcount. destruct (converts Number_toString prompts i); lia. }
  split; [exact Hmax |].
  split; [rewrite Hsch; apply firstn_ladder; exact Hmax |].
  destruct (generationPromptOf Number_toString prompts i) as [e0 | text] eqn:Hconv.
  { destruct (frameIteration_unconverted prompts i c w Hconv) as (w0 & args & Hrun' & Hsvc).
    rewrite Hrun in Hrun'. inversion Hrun' as [[Hd Hm Hw' Hmsg Hbody]].
    split; [reflexivity | exact Hsvc]. }
  intros req s1 s2 s3. subst s3 s2 s1 req.
  split.
  { rewrite (attemptsDue_converted prompts i Hconv) in Hcount. lia. }
  intros H1 H2 H3.
  apply isRateLimited_inv in H1, H2, H3.
  destruct H1 as (e1 & Hr1 & Hl1), H2 as (e2 & Hr2 & Hl2), H3 as (e3 & Hr3 & Hl3).
  set (mime := mimeType (inlineData (currentImagePart c))).
  set (w0 := snd (fst (setLoadingMessage (frameProgressMessage prompts i) w))).
  destruct (whileAttempts_retry 2 prompts i c (mkAttempt 0 2000 false None mime) w0 (e := e1) Hconv)
    as (args1 & Hw1);
    [reflexivity | cbn; unfold maxRetries; lia | exact Hr1 | exact Hl1 |].
  cbn [attempt delay newBase64Data newMimeType] in Hw1.
  set (w1 := mkWorld (snd (service (svc w0) (frameRequest text (currentImagePart c)))) (app w0)) in *.
  destruct (whileAttempts_retry 1 prompts i c (mkAttempt 1 (2000 * 2) false None mime) w1 (e := e2) Hconv)
    as (args2 & Hw2);
    [reflexivity | cbn; unfold maxRetries; lia | exact Hr2 | exact Hl2 |].
  cbn [attempt delay newBase64Data newMimeType] in Hw2.
  set (w2 := mkWorld (snd (service (svc w1) (frameRequest text (currentImagePart c)))) (app w1)) in *.
  destruct (whileAttempts_fallback 0 prompts i c (mkAttempt 2 (2000 * 2 * 2) false None mime) w2 (e := e3) Hconv)
    as (args3 & Hw3);
    [reflexivity | cbn; unfold maxRetries; lia | exact Hr3 | right; cbn; unfold maxRetries; lia |].
  cbn [attempt delay newMimeType] in Hw3.
  rewrite Hw3 in Hw2. rewrite Hw2 in Hw1.
  pose proof (frameIteration_of_while prompts i c w Hw1 eq_refl) as Hrun'.
  rewrite Hrun in Hrun'. inversion Hrun' as [[Hd Hm Hw' Hmsg Hbody]].
  cbn [currentImagePart base64ToGenerativePart inlineData data allFrames].
  repeat split; reflexivity.
Qed.

(** C5.  When the first attempt for a frame fails with an error whose
    message contains neither [429] nor [RESOURCE_EXHAUSTED] (the error
    the service or the reading of its answer throws for the request; or,
    for a prompt that does not convert to a string, the [TypeError] of
    the template literal, thrown before any request), the work on the
    frame is: the progress message, that one request if the prompt
    converted, the [console.error]; no wait and no further request; the
    service has been called once, or not at all; the frame pushes the
    fallback payload and the loop goes on with it.  And [generateFrames]
    as a whole returns normally whatever the service does. *)
Theorem C5_other_error_falls_back_at_once prompts i c (w : World ServiceState) e :
  match generationPromptOf Number_toString prompts i with
  | inl typeError => e = typeError
  | inr text =>
      attemptResult (fst (service (svc w) (frameRequest text (currentImagePart c)))) = inl e
  end ->
  includes (message e) (js "429") = false ->
  includes (message e) (js "RESOURCE_EXHAUSTED") = false ->
  (exists w' msg args,
     frameIteration service Number_toString prompts i c w
       = (Normal (mkChain (base64ToGenerativePart (lastSuccessfulBase64 c)
                             (mimeType (inlineData (currentImagePart c))))
                          (allFrames c ++ [lastSuccessfulBase64 c])
                          (lastSuccessfulBase64 c)),
          w',
          EvSetLoadingMessage msg
          :: match generationPromptOf Number_toString prompts i with
             | inl _ => []
             | inr text => [EvGenerateContent (frameRequest text (currentImagePart c))]
             end
          ++ [EvConsoleError args]) /\
     svc w' = match generationPromptOf Number_toString prompts i with
              | inl _ => svc w
              | inr text => snd (service (svc w) (frameRequest text (currentImagePart c)))
              end) /\
  (forall initialImagePart allPrompts (w0 : World ServiceState),
     exists frames w1 t,
       generateFrames service Number_toString initialImagePart allPrompts w0
         = (Normal frames, w1, t)).
Proof.
  intros Hres H429 Hexh.
  split.
  - destruct (generationPromptOf Number_toString prompts i) as [e0 | text] eqn:Hconv.
    + destruct (frameIteration_unconverted prompts i c w Hconv) as (w' & args & Hrun & Hsvc).
      exists w', (frameProgressMessage prompts i), args.
      split; [exact Hrun | exact Hsvc].
    + set (a0 := mkAttempt 0 2000 false None (mimeType (inlineData (currentImagePart c)))).
      set (w0 := snd (fst (setLoadingMessage (frameProgressMessage prompts i) w))).
      destruct (whileAttempts_fallback 2 prompts i c a0 w0 (e := e) Hconv) as (args & Hw);
        [reflexivity | cbn; unfold maxRetries; lia | exact Hres
        | left; unfold isRateLimit; rewrite H429, Hexh; reflexivity |].
      pose proof (frameIteration_of_while prompts i c w Hw eq_refl) as Hrun.
      cbn [newBase64Data newMimeType a0] in Hrun.
      eexists. exists (frameProgressMessage prompts i), args.
      split; [exact Hrun | reflexivity].
  - intros initialImagePart allPrompts w0.
    destruct (generateFrames_spec initialImagePart allPrompts w0)
      as (frames & w1 & t & c' & Hrun & _).
    exists frames, w1, t. exact Hrun.
Qed.

(** ** Extraction of the JSON text *)

Lemma startsWith_app p s : startsWith (p ++ s) p = true.
Proof.
  induction p as [| c p IH]; [destruct s; reflexivity |].
  cbn [List.app startsWith]. rewrite N.eqb_refl. exact IH.
Qed.

Lemma skipn_length_app {A} (p s : list A) : skipn (List.length p) (p ++ s) = s.
Proof. induction p as [| c p IH]; [reflexivity | exact IH]. Qed.

Lemma firstn_length_app {A} (p s : list A) :
  firstn (List.length (p ++ s) - List.length s) (p ++ s) = p.
Proof.
  rewrite length_app. replace (List.length p + List.length s - List.length s)
    with (List.length p) by lia.
  induction p as [| c p IH]; [reflexivity | cbn; rewrite IH; reflexivity].
Qed.

(** A lazy star hands over at the first point where what follows
    matches. *)
Lemma matchStar_lazy_first (k : Cont) caps r u : forall v,
  (forall j, j < List.length u -> k (skipn j (u ++ v)) caps = None) ->
  k v caps = Some r ->
  matchStar false AnyChar (u ++ v) caps k = Some r.
Proof.
  induction u as [| c u IH]; intros v Hnone Hk.
  - cbn [List.app]. destruct v as [| d v]; cbn [matchStar]; rewrite Hk; reflexivity.
  - cbn [List.app matchStar].
    assert (H0 : k (c :: u ++ v) caps = None) by (apply (Hnone 0); cbn; lia).
    rewrite H0. cbn [inSet]. apply IH; [| exact Hk].
    intros j Hj. apply (Hnone (S j)). cbn. lia.
Qed.

(** Neither alternative of either pattern can start at a character that
    is no backtick and no opening bracket. *)
Lemma no_match_at other c s :
  c <> 96%N -> c <> 91%N ->
  matchAt (Alt fencedAlternative (Group 2 (Seq (Char 91) other))) (c :: s) [] accept = None.
Proof.
  intros Htick Hbracket.
  cbn [matchAt fencedAlternative].
  assert (Hopen : startsWith (c :: s) FENCE_OPEN = false).
  { assert (Hfo : exists tl, FENCE_OPEN = 96%N :: tl) by (eexists; reflexivity).
    destruct Hfo as (tl & ->). cbn [startsWith].
    destruct (N.eqb_spec 96 c) as [E | _]; [congruence | reflexivity]. }
  rewrite Hopen.
  destruct (N.eqb_spec 91 c) as [E | _]; [congruence | reflexivity].
Qed.

Lemma exec_skips_prose other prose s :
  Forall (fun c => c <> 96%N /\ c <> 91%N) prose ->
  exec (Alt fencedAlternative (Group 2 (Seq (Char 91) other))) (prose ++ s)
  = exec (Alt fencedAlternative (Group 2 (Seq (Char 91) other))) s.
Proof.
  induction 1 as [| c prose [Htick Hbracket] _ IH]; [reflexivity |].
  cbn [List.app exec]. rewrite no_match_at by assumption. exact IH.
Qed.

Lemma fenced_match interior rest :
  (forall j, j < List.length interior ->
             startsWith (skipn j (interior ++ FENCE_CLOSE ++ rest)) FENCE_CLOSE = false) ->
  matchAt fencedAlternative (FENCE_OPEN ++ interior ++ FENCE_CLOSE ++ rest) [] accept
  = Some (rest, [(1, interior)]).
Proof.
  intros Hfirst. cbn [matchAt fencedAlternative].
  rewrite startsWith_app, skipn_length_app.
  apply matchStar_lazy_first.
  - intros j Hj. rewrite (Hfirst j Hj). reflexivity.
  - rewrite startsWith_app, skipn_length_app, firstn_length_app. reflexivity.
Qed.

Lemma exec_fenced other prose interior rest :
  Forall (fun c => c <> 96%N /\ c <> 91%N) prose ->
  (forall j, j < List.length interior ->
             startsWith (skipn j (interior ++ FENCE_CLOSE ++ rest)) FENCE_CLOSE = false) ->
  exec (Alt fencedAlternative (Group 2 (Seq (Char 91) other)))
       (prose ++ FENCE_OPEN ++ interior ++ FENCE_CLOSE ++ rest)
  = Some [(1, interior)].
Proof.
  intros Hprose Hfirst. rewrite exec_skips_prose by exact Hprose.
  pose proof (fenced_match interior rest Hfirst) as Hm.
  remember (FENCE_OPEN ++ interior ++ FENCE_CLOSE ++ rest) as s eqn:Hs.
  destruct s as [| c s]; cbn [exec matchAt]; rewrite Hm; reflexivity.
Qed.

Lemma bare_array_match inner rest :
  Forall (fun c => c <> 93%N) inner ->
  matchAt PROMPTS_PATTERN (91%N :: inner ++ 93%N :: rest) [] accept
  = Some (rest, [(2, 91%N :: inner ++ [93%N])]).
Proof.
  intros Hinner. unfold PROMPTS_PATTERN.
  cbn [matchAt fencedAlternative].
  replace (startsWith (91%N :: inner ++ 93%N :: rest) FENCE_OPEN) with false by reflexivity.
  rewrite N.eqb_refl.
  apply matchStar_lazy_first.
  - intros j Hj.
    assert (Hhead : exists c tl, skipn j (inner ++ 93%N :: rest) = c :: tl /\ c <> 93%N).
    { clear - Hinner Hj. revert j Hj.
      induction Hinner as [| c inner Hc _ IH]; intros j Hj; [cbn in Hj; lia |].
      destruct j as [| j]; [exists c, (inner ++ 93%N :: rest); auto |].
      cbn [List.app skipn]. apply IH. cbn in Hj. lia. }
    destruct Hhead as (c & tl & -> & Hc).
    destruct (N.eqb_spec 93 c) as [E | _]; [congruence | reflexivity].
  - rewrite N.eqb_refl. unfold accept.
    change (91%N :: inner ++ 93%N :: rest) with ((91%N :: inner) ++ 93%N :: rest).
    replace ((91%N :: inner) ++ 93%N :: rest) with (((91%N :: inner) ++ [93%N]) ++ rest)
      by (rewrite <- app_assoc; reflexivity).
    rewrite firstn_length_app. reflexivity.
Qed.

Lemma exec_bare_array prose inner rest :
  Forall (fun c => c <> 96%N /\ c <> 91%N) prose ->
  Forall (fun c => c <> 93%N) inner ->
  exec PROMPTS_PATTERN (prose ++ 91%N :: inner ++ 93%N :: rest)
  = Some [(2, 91%N :: inner ++ [93%N])].
Proof.
  intros Hprose Hinner. unfold PROMPTS_PATTERN.
  rewrite exec_skips_prose by exact Hprose.
  pose proof (bare_array_match rest Hinner) as Hm. unfold PROMPTS_PATTERN in Hm.
  cbn [exec]. rewrite Hm. reflexivity.
Qed.

(** ** [detectObjects] and [generatePrompts] on a text answer *)

Lemma detectObjects_on_text imagePart (w : World ServiceState) response text s' :
  service (svc w) (detectRequest imagePart) = (inr response, s') ->
  resp_text response = Some text ->
  exists t,
    detectObjects service JSON_parse imagePart w =
      (match JSON_parse (parseInput (extractJsonText DETECT_PATTERN text)) with
       | Some (JArray elems) => Normal elems
       | Some _ => Throw (mkError MSG_DETECT_FORMAT)
       | None => Throw (mkError MSG_INVALID_DETECT)
       end,
       mkWorld s' (app w), EvGenerateContent (detectRequest imagePart) :: t) /\
    Forall (fun ev => isMarker ev = false) t.
Proof.
  intros Hsvc Htext. unfold detectObjects. run_monad.
  change (let (svc, _) := w in svc) with (svc w).
  rewrite Hsvc, Htext.
  destruct (JSON_parse (parseInput (extractJsonText DETECT_PATTERN text))) as [v |].
  - destruct v; eexists; (split; [reflexivity | constructor]).
  - eexists; split; [reflexivity | repeat constructor].
Qed.

Lemma generatePrompts_on_text prominentObjectName imagePart (w : World ServiceState)
    name response text s' :
  templateOf Number_toString prominentObjectName = inr name ->
  service (svc w) (promptsRequest name imagePart) = (inr response, s') ->
  resp_text response = Some text ->
  exists t,
    generatePrompts service JSON_parse Number_toString prominentObjectName imagePart w =
      (match JSON_parse (parseInput (extractJsonText PROMPTS_PATTERN text)) with
       | Some (JArray (p :: ps)) => Normal (p :: ps)
       | Some _ => Throw (mkError MSG_PROMPTS_FORMAT)
       | None => Throw (mkError MSG_INVALID_PROMPTS)
       end,
       mkWorld s' (app w),
       EvGenerateContent (promptsRequest name imagePart) :: t).
Proof.
  intros Hname Hsvc Htext. unfold generatePrompts. rewrite Hname. run_monad.
  change (let (svc, _) := w in svc) with (svc w).
  rewrite Hsvc, Htext.
  destruct (JSON_parse (parseInput (extractJsonText PROMPTS_PATTERN text))) as [v |].
  - destruct v as [| | | | [| p ps] |]; eexists; reflexivity.
  - eexists; reflexivity.
Qed.

Lemma generatePrompts_unconverted prominentObjectName imagePart (w : World ServiceState)
    typeError :
  templateOf Number_toString prominentObjectName = inl typeError ->
  generatePrompts service JSON_parse Number_toString prominentObjectName imagePart w
  = (Throw typeError, w, []).
Proof. intros Hname. unfold generatePrompts. rewrite Hname. reflexivity. Qed.

(** ** A bare array in the answer to [detectObjects] *)

Lemma matchStar_none (k : Cont) caps greedy cs s :
  (forall j, j <= List.length s -> k (skipn j s) caps = None) ->
  matchStar greedy cs s caps k = None.
Proof.
  induction s as [| c s IH]; intros Hnone.
  - cbn. apply (Hnone 0). cbn. lia.
  - assert (Htail : matchStar greedy cs s caps k = None).
    { apply IH. intros j Hj. apply (Hnone (S j)). cbn. lia. }
    assert (Hhere : k (c :: s) caps = None) by (apply (Hnone 0); cbn; lia).
    cbn [matchStar]. rewrite Htail, Hhere.
    destruct greedy, (inSet cs c); reflexivity.
Qed.

(** A greedy star hands over at the last point where what follows
    matches. *)
Lemma matchStar_greedy_last (k : Cont) caps r u : forall v,
  Forall (fun c => inSet Dot c = true) u ->
  k v caps = Some r ->
  (forall j, 0 < j <= List.length v -> k (skipn j v) caps = None) ->
  matchStar true Dot (u ++ v) caps k = Some r.
Proof.
  induction u as [| c u IH]; intros v Hu Hk Hlater.
  - cbn [List.app]. destruct v as [| d v]; [exact Hk |].
    cbn [matchStar].
    rewrite (@matchStar_none k caps true Dot v).
    + destruct (inSet Dot d); exact Hk.
    + intros j Hj. apply (Hlater (S j)). cbn. lia.
  - inversion Hu as [| ? ? Hc Hu']; subst.
    cbn [List.app matchStar]. rewrite Hc. rewrite (IH v Hu' Hk Hlater). reflexivity.
Qed.

Lemma skipn_head_not (P : N -> Prop) (s : list N) :
  Forall P s ->
  forall j, j < List.length s -> exists c tl, skipn j s = c :: tl /\ P c.
Proof.
  induction 1 as [| c s Hc _ IH]; intros j Hj; [cbn in Hj; lia |].
  destruct j as [| j]; [exists c, s; auto |].
  cbn [skipn]. apply IH. cbn in Hj. lia.
Qed.

Lemma skipn_app_head_not (P : N -> Prop) (u v : list N) :
  Forall P u ->
  forall j, j < List.length u -> exists c tl, skipn j (u ++ v) = c :: tl /\ P c.
Proof.
  induction 1 as [| c u Hc _ IH]; intros j Hj; [cbn in Hj; lia |].
  destruct j as [| j]; [exists c, (u ++ v); auto |].
  cbn [List.app skipn]. apply IH. cbn in Hj. lia.
Qed.

Lemma detect_array_match pre mid post rest :
  Forall (fun c => c <> 123%N) pre ->
  Forall (fun c => isLineTerminator c = false) mid ->
  Forall (fun c => c <> 93%N /\ c <> 125%N) post ->
  Forall (fun c => c <> 125%N) rest ->
  matchAt DETECT_PATTERN
    (91%N :: pre ++ 123%N :: mid ++ 125%N :: post ++ 93%N :: rest) [] accept
  = Some (rest, [(2, 91%N :: pre ++ 123%N :: mid ++ 125%N :: post ++ [93%N])]).
Proof.
  intros Hpre Hmid Hpost Hrest. unfold DETECT_PATTERN.
  cbn [matchAt fencedAlternative].
  match goal with
  | |- context [startsWith ?s FENCE_OPEN] =>
      replace (startsWith s FENCE_OPEN) with false by reflexivity
  end.
  rewrite N.eqb_refl.
  apply matchStar_lazy_first.
  { intros j Hj.
    destruct (skipn_app_head_not (123%N :: mid ++ 125%N :: post ++ 93%N :: rest) Hpre Hj)
      as (c & tl & -> & Hc).
    destruct (N.eqb_spec 123 c) as [E | _]; [congruence | reflexivity]. }
  rewrite N.eqb_refl.
  apply matchStar_greedy_last.
  { eapply Forall_impl; [| exact Hmid]. intros c Hc. cbn. rewrite Hc. reflexivity. }
  2:{ intros j [Hpos Hj].
      destruct j as [| j]; [lia |]. cbn [skipn].
      remember (post ++ 93%N :: rest) as tail eqn:Htail.
      assert (Hno : Forall (fun c => c <> 125%N) tail).
      { subst tail. apply Forall_app. split.
        - eapply Forall_impl; [| exact Hpost]. intros c [_ Hc]. exact Hc.
        - constructor; [discriminate | exact Hrest]. }
      cbn [List.length] in Hj.
      destruct (Nat.eq_dec j (List.length tail)) as [-> | Hne].
      - rewrite skipn_all. reflexivity.
      - destruct (skipn_head_not Hno (j := j)) as (c & tl & -> & Hc); [lia |].
        destruct (N.eqb_spec 125 c) as [E | _]; [congruence | reflexivity]. }
  rewrite N.eqb_refl.
  apply matchStar_lazy_first.
  { intros j Hj.
    destruct (skipn_app_head_not (93%N :: rest) Hpost Hj) as (c & tl & -> & [Hc _]).
    destruct (N.eqb_spec 93 c) as [E | _]; [congruence | reflexivity]. }
  rewrite N.eqb_refl. unfold accept.
  replace (91%N :: pre ++ 123%N :: mid ++ 125%N :: post ++ 93%N :: rest)
    with ((91%N :: pre ++ 123%N :: mid ++ 125%N :: post ++ [93%N]) ++ rest).
  2:{ cbn [List.app]. f_equal. rewrite <- !app_assoc. cbn [List.app].
      do 2 f_equal. rewrite <- !app_assoc. cbn [List.app].
      do 2 f_equal. rewrite <- !app_assoc. reflexivity. }
  rewrite firstn_length_app. reflexivity.
Qed.

Lemma exec_detect_array prose pre mid post rest :
  Forall (fun c => c <> 96%N /\ c <> 91%N) prose ->
  Forall (fun c => c <> 123%N) pre ->
  Forall (fun c => isLineTerminator c = false) mid ->
  Forall (fun c => c <> 93%N /\ c <> 125%N) post ->
  Forall (fun c => c <> 125%N) rest ->
  exec DETECT_PATTERN
    (prose ++ 91%N :: pre ++ 123%N :: mid ++ 125%N :: post ++ 93%N :: rest)
  = Some [(2, 91%N :: pre ++ 123%N :: mid ++ 125%N :: post ++ [93%N])].
Proof.
  intros Hprose Hpre Hmid Hpost Hrest.
  pose proof (detect_array_match Hpre Hmid Hpost Hrest) as Hm.
  unfold DETECT_PATTERN in *.
  rewrite exec_skips_prose by exact Hprose.
  cbn [exec]. rewrite Hm. reflexivity.
Qed.

(** ** The claims about the text answers *)

Ltac run_handlers :=
  cbv beta iota zeta delta
    [bind ret throw diverge try_catch try_finally emit modifyApp readApp
     wait console_error console_warn
     setUploadedImage setDetectedObjects setAnimationPrompts setGeneratedFrames
     setIsLoading setLoadingMessage setError setSelectedObject setDetectionComplete].

(** C3, as the code has it.  The text handed to [JSON.parse] is a function
    of the trimmed answer: the groups of the first match of the pattern,
    the fenced alternative tried first at each start position.
    - If, after prose without a backtick or an opening bracket, the
      trimmed answer has a fence labelled json with a non-empty interior,
      that interior, up to the first closing fence, is taken (both
      operations).
    - If, after such prose, it has an opening bracket and later a closing
      one, [generatePrompts] takes the text from that bracket through the
      first closing bracket after it.
    - [detectObjects] takes a bare array only when it holds a brace pair
      on one line: from the bracket, through the first opening brace and
      the last closing brace of its line, to the first closing bracket
      after that.
    - When the pattern matches nowhere, the whole trimmed answer is
      handed to [JSON.parse].
    - Whenever [JSON.parse] rejects the text handed to it, the operation
      throws its invalid-response error.  ([generatePrompts] makes its
      request with the string the name of the object converts to; with
      a name that does not convert it throws that error of the
      conversion, before any request.) *)
Theorem C3_extraction_by_first_match :
  (forall pattern text prose interior rest,
     pattern = DETECT_PATTERN \/ pattern = PROMPTS_PATTERN ->
     trim text = prose ++ FENCE_OPEN ++ interior ++ FENCE_CLOSE ++ rest ->
     Forall (fun c => c <> 96%N /\ c <> 91%N) prose ->
     interior <> [] ->
     (forall j, j < List.length interior ->
        startsWith (skipn j (interior ++ FENCE_CLOSE ++ rest)) FENCE_CLOSE = false) ->
     extractJsonText pattern text = Some interior) /\
  (forall text prose inner rest,
     trim text = prose ++ 91%N :: inner ++ 93%N :: rest ->
     Forall (fun c => c <> 96%N /\ c <> 91%N) prose ->
     Forall (fun c => c <> 93%N) inner ->
     extractJsonText PROMPTS_PATTERN text = Some (91%N :: inner ++ [93%N])) /\
  (forall text prose pre mid post rest,
     trim text = prose ++ 91%N :: pre ++ 123%N :: mid ++ 125%N :: post ++ 93%N :: rest ->
     Forall (fun c => c <> 96%N /\ c <> 91%N) prose ->
     Forall (fun c => c <> 123%N) pre ->
     Forall (fun c => isLineTerminator c = false) mid ->
     Forall (fun c => c <> 93%N /\ c <> 125%N) post ->
     Forall (fun c => c <> 125%N) rest ->
     extractJsonText DETECT_PATTERN text
     = Some (91%N :: pre ++ 123%N :: mid ++ 125%N :: post ++ [93%N])) /\
  (forall pattern text,
     exec pattern (trim text) = None ->
     extractJsonText pattern text = Some (trim text)) /\
  (forall imagePart (w : World ServiceState) response text s',
     service (svc w) (detectRequest imagePart) = (inr response, s') ->
     resp_text response = Some text ->
     JSON_parse (parseInput (extractJsonText DETECT_PATTERN text)) = None ->
     fst (fst (detectObjects service JSON_parse imagePart w))
     = Throw (mkError MSG_INVALID_DETECT)) /\
  (forall prominentObjectName imagePart (w : World ServiceState),
     match templateOf Number_toString prominentObjectName with
     | inr name =>
         forall response text s',
           service (svc w) (promptsRequest name imagePart) = (inr response, s') ->
           resp_text response = Some text ->
           JSON_parse (parseInput (extractJsonText PROMPTS_PATTERN text)) = None ->
           fst (fst (generatePrompts service JSON_parse Number_toString prominentObjectName
                       imagePart w))
           = Throw (mkError MSG_INVALID_PROMPTS)
     | inl typeError =>
         generatePrompts service JSON_parse Number_toString prominentObjectName imagePart w
         = (Throw typeError, w, [])
     end).
Proof.
  repeat apply conj.
  - intros pattern text prose interior rest Hpat Htrim Hprose Hne Hfirst.
    unfold extractJsonText. rewrite Htrim.
    destruct Hpat as [-> | ->]; unfold DETECT_PATTERN, PROMPTS_PATTERN;
      rewrite exec_fenced by assumption; cbn [capture Nat.eqb];
      destruct interior; [congruence | reflexivity | congruence | reflexivity].
  - intros text prose inner rest Htrim Hprose Hinner.
    unfold extractJsonText. rewrite Htrim, exec_bare_array by assumption. reflexivity.
  - intros text prose pre mid post rest Htrim Hprose Hpre Hmid Hpost Hrest.
    unfold extractJsonText. rewrite Htrim, exec_detect_array by assumption. reflexivity.
  - intros pattern text Hnone. unfold extractJsonText. rewrite Hnone. reflexivity.
  - intros imagePart w response text s' Hsvc Htext Hparse.
    destruct (detectObjects_on_text w Hsvc Htext) as (t & Hrun & _).
    rewrite Hrun, Hparse. reflexivity.
  - intros prominentObjectName imagePart w.
    destruct (templateOf Number_toString prominentObjectName) as [typeError | name] eqn:Hname.
    + apply generatePrompts_unconverted. exact Hname.
    + intros response text s' Hsvc Htext Hparse.
      destruct (generatePrompts_on_text prominentObjectName w Hname Hsvc Htext) as (t & Hrun).
      rewrite Hrun, Hparse. reflexivity.
Qed.

(** C7, as the code has it.  When the text extracted from the answer
    parses as an array, [detectObjects] returns the elements of that
    array as they are, in the order the service listed them: the list is
    not cut to five entries and the entries are not checked. *)
Theorem C7_detectObjects_returns_parsed_array imagePart (w : World ServiceState)
    response text s' elems :
  service (svc w) (detectRequest imagePart) = (inr response, s') ->
  resp_text response = Some text ->
  JSON_parse (parseInput (extractJsonText DETECT_PATTERN text)) = Some (JArray elems) ->
  exists t,
    detectObjects service JSON_parse imagePart w = (Normal elems, mkWorld s' (app w), t).
Proof.
  intros Hsvc Htext Hparse.
  destruct (detectObjects_on_text w Hsvc Htext) as (t & Hrun & _).
  rewrite Hparse in Hrun. eexists. exact Hrun.
Qed.

(** C8, as the code has it.  On a text answer to its request,
    [generatePrompts] returns the parsed array as it is when the
    extracted text parses as an array with at least one element, of any
    length and with any values in it; it throws when the text does not
    parse, and when it parses as something else than an array or as the
    empty array.  The request is made with the string [name] that the
    name of the object converts to; with a name that does not convert,
    [generatePrompts] throws the error of the conversion and makes no
    request. *)
Theorem C8_generatePrompts_outcome prominentObjectName imagePart (w : World ServiceState) :
  match templateOf Number_toString prominentObjectName with
  | inr name =>
      forall response text s',
        service (svc w) (promptsRequest name imagePart) = (inr response, s') ->
        resp_text response = Some text ->
        exists t,
          generatePrompts service JSON_parse Number_toString prominentObjectName imagePart w =
            (match JSON_parse (parseInput (extractJsonText PROMPTS_PATTERN text)) with
             | Some (JArray (p :: ps)) => Normal (p :: ps)
             | Some _ => Throw (mkError MSG_PROMPTS_FORMAT)
             | None => Throw (mkError MSG_INVALID_PROMPTS)
             end,
             mkWorld s' (app w), t)
  | inl typeError =>
      generatePrompts service JSON_parse Number_toString prominentObjectName imagePart w
      = (Throw typeError, w, [])
  end.
Proof.
  destruct (templateOf Number_toString prominentObjectName) as [typeError | name] eqn:Hname.
  - apply generatePrompts_unconverted. exact Hname.
  - intros response text s' Hsvc Htext.
    destruct (generatePrompts_on_text prominentObjectName w Hname Hsvc Htext) as (t & Hrun).
    eexists. exact Hrun.
Qed.

(** C6.  When the text extracted from the answer parses as the empty
    array, or as a value that is no array, object detection fails: the
    handler sets the error message, and leaves the detected objects, the
    selection and the completion flag as they were. *)
Theorem C6_no_empty_detection_success file (w : World ServiceState) response text s' v :
  service (svc w) (detectRequest (fileToGenerativePart file)) = (inr response, s') ->
  resp_text response = Some text ->
  JSON_parse (parseInput (extractJsonText DETECT_PATTERN text)) = Some v ->
  v = JArray [] \/ isArray v = false ->
  exists w' t msg,
    runObjectDetection service JSON_parse file w = (Normal tt, w', t) /\
    error (app w') = Some msg /\
    (msg = MSG_NO_OBJECTS \/ msg = MSG_DETECT_FORMAT) /\
    detectedObjects (app w') = detectedObjects (app w) /\
    selectedObject (app w') = selectedObject (app w) /\
    detectionComplete (app w') = detectionComplete (app w) /\
    isLoading (app w') = false.
Proof.
  intros Hsvc Htext Hparse Hv.
  unfold runObjectDetection. run_handlers.
  match goal with
  | |- context [detectObjects _ _ ?ip ?w0] =>
      destruct (detectObjects_on_text (imagePart := ip) w0 (response := response) (text := text) (s' := s'))
        as (t & Hrun & _); [exact Hsvc | exact Htext |]
  end.
  rewrite Hrun, Hparse.
  destruct Hv as [-> | Hnot].
  - eexists. eexists. exists MSG_NO_OBJECTS. cbn. repeat split; auto.
  - destruct v; try discriminate Hnot;
      (eexists; eexists; exists MSG_DETECT_FORMAT; cbn; repeat split; auto).
Qed.

(** ** The handlers *)

Lemma frameIteration_error prompts i c (w : World ServiceState) :
  error (app (snd (fst (frameIteration service Number_toString prompts i c w))))
  = error (app w).
Proof.
  unfold frameIteration. run_monad.
  match goal with
  | |- context [whileAttempts _ _ _ _ _ ?c0 ?a0 ?w0] =>
      destruct (whileAttempts_spec prompts i maxRetries c0 a0 w0)
        as (c' & a' & w' & t & Hrun & _ & _ & _ & _ & Happ & _);
      [reflexivity | cbn; unfold maxRetries; lia | cbn; lia |]
  end.
  rewrite Hrun. change (error (app w') = error (app w)). rewrite Happ. reflexivity.
Qed.

Lemma forFrames_error n prompts : forall i c (w : World ServiceState),
  error (app (snd (fst (forFrames service Number_toString n prompts i c w))))
  = error (app w).
Proof.
  induction n as [| n IH]; intros i c w; [reflexivity |].
  rewrite forFrames_S.
  pose proof (frameIteration_error prompts i c w) as Hfirst.
  destruct (frameIteration service Number_toString prompts i c w) as [[[c1 | e |] w1] t1];
    cbn [fst snd] in Hfirst; try exact Hfirst.
  specialize (IH (S i) c1 w1).
  destruct (forFrames service Number_toString n prompts (S i) c1 w1) as [[r w2] t2].
  cbn [fst snd] in IH |- *. rewrite IH. exact Hfirst.
Qed.

Lemma generateFrames_error initialImagePart prompts (w : World ServiceState) :
  error (app (snd (fst (generateFrames service Number_toString initialImagePart prompts w))))
  = error (app w).
Proof.
  unfold generateFrames.
  pose proof (forFrames_error (List.length prompts) prompts 0
                (mkChain initialImagePart [] (data (inlineData initialImagePart))) w) as H.
  unfold bind, ret.
  destruct (forFrames service Number_toString (List.length prompts) prompts 0
              (mkChain initialImagePart [] (data (inlineData initialImagePart))) w)
    as [[[c1 | e |] w1] t1]; exact H.
Qed.

(** C9.  A run of [handleGenerateAnimation] with an object selected and
    an image uploaded, in which [generatePrompts] obtains a non-empty
    array [prompts]: the handler returns normally; the frames presented
    are the data of the original image followed by the frames that
    [generateFrames] returns for [prompts] (one per prompt); the prompts
    presented are the label [Original Image] followed by [prompts]; so
    both lists have one entry more than there are prompts and line up
    index by index.  The request of [generatePrompts] is made with the
    string [name] that the name of the selected object converts to;
    with a name that does not convert, the handler makes no request and
    shows the error of the conversion, and the frames and prompts on the
    page stay as they are. *)
Theorem C9_presented_frames_and_prompts (w : World ServiceState) selected uploaded :
  let imagePart := fileToGenerativePart (up_file uploaded) in
  selectedObject (app w) = Some selected ->
  truthy Number_isZero selected = true ->
  uploadedImage (app w) = Some uploaded ->
  match templateOf Number_toString (nameOf selected) with
  | inr name =>
      forall response text s' prompts,
        service (svc w) (promptsRequest name imagePart) = (inr response, s') ->
        resp_text response = Some text ->
        JSON_parse (parseInput (extractJsonText PROMPTS_PATTERN text))
          = Some (JArray prompts) ->
        prompts <> [] ->
        exists frames w' t w1 w2 t2,
          handleGenerateAnimation service JSON_parse Number_toString Number_isZero w
            = (Normal tt, w', t) /\
          svc w1 = s' /\
          generateFrames service Number_toString imagePart prompts w1
            = (Normal frames, w2, t2) /\
          generatedFrames (app w') = file_base64 (up_file uploaded) :: frames /\
          animationPrompts (app w') = JString ORIGINAL_IMAGE_LABEL :: prompts /\
          List.length (generatedFrames (app w')) = List.length prompts + 1 /\
          List.length (animationPrompts (app w')) = List.length prompts + 1 /\
          error (app w') = None /\
          isLoading (app w') = false
  | inl typeError =>
      exists w' t,
        handleGenerateAnimation service JSON_parse Number_toString Number_isZero w
          = (Normal tt, w', t) /\
        requestsOf t = [] /\
        svc w' = svc w /\
        generatedFrames (app w') = generatedFrames (app w) /\
        animationPrompts (app w') = animationPrompts (app w) /\
        error (app w') = Some (message typeError) /\
        isLoading (app w') = false
  end.
Proof.
  intros imagePart Hsel Htruthy Hup.
  destruct (templateOf Number_toString (nameOf selected)) as [typeError | name] eqn:Hname.
  { unfold handleGenerateAnimation. run_handlers.
    rewrite Hsel, Hup, Htruthy. run_handlers. rewrite Hname. run_handlers.
    eexists. eexists. repeat split. }
  intros response text s' prompts Hsvc Htext Hparse Hne.
  unfold handleGenerateAnimation. run_handlers.
  rewrite Hsel, Hup, Htruthy. run_handlers. rewrite Hname. run_handlers.
  match goal with
  | |- context [generatePrompts _ _ _ ?nm ?ip ?w0] =>
      destruct (generatePrompts_on_text nm (imagePart := ip) w0
                  (response := response) (text := text) (s' := s') Hname)
        as (tp & Hprompts); [exact Hsvc | exact Htext |]
  end.
  rewrite Hprompts, Hparse.
  destruct prompts as [| p ps]; [congruence |].
  match goal with
  | |- context [generateFrames _ _ ?ip ?ps0 ?w1] =>
      destruct (generateFrames_spec ip ps0 w1)
        as (frames & w2 & t2 & c' & Hframes & _ & Hlen & _);
      exists frames; eexists; eexists; exists w1, w2, t2
  end.
  rewrite Hframes. cbn [svc app generatedFrames animationPrompts error isLoading].
  repeat split; try reflexivity; try exact Hframes.
  all: cbn [svc app uploadedImage detectedObjects animationPrompts generatedFrames
            isLoading loadingMessage error selectedObject detectionComplete List.length] in *;
    try lia.
  match type of Hframes with
  | generateFrames _ _ ?ip ?ps0 ?w1 = _ =>
      pose proof (generateFrames_error ip ps0 w1) as Herr
  end.
  rewrite Hframes in Herr. exact Herr.
Qed.

End Facts.

(** * The JSON reader is total *)

Section JsonTotal.
Import Json.

Lemma skipWs_length s : List.length (skipWs s) <= List.length s.
Proof.
  induction s as [| c s IH]; [cbn; lia |].
  cbn [skipWs]. destruct (isJsonWs c); cbn [List.length]; lia.
Qed.

Lemma expect_length c s r : expect c s = Some r -> List.length s = S (List.length r).
Proof.
  destruct s as [| d s]; cbn; [discriminate |].
  destruct (d =? c)%N; [| discriminate]. intros [= ->]. reflexivity.
Qed.

Lemma digits_length s : forall ds r, digits s = (ds, r) -> List.length s = List.length ds + List.length r.
Proof.
  induction s as [| c s IH]; intros ds r; cbn [digits].
  - intros [= <- <-]. reflexivity.
  - destruct (isDigit c).
    + destruct (digits s) as [ds' r'] eqn:E. intros [= <- <-].
      cbn [List.length]. rewrite (IH ds' r' eq_refl). reflexivity.
    + intros [= <- <-]. reflexivity.
Qed.

Lemma escape_length e rest u r : escape e rest = Some (u, r) -> List.length r <= List.length rest.
Proof.
  unfold escape.
  repeat (match goal with |- context [if ?b then _ else _] => destruct b end;
          [intros [= <- <-]; lia |]).
  destruct (e =? 117)%N; [| discriminate].
  destruct rest as [| a [| b [| c [| d r']]]]; try discriminate.
  destruct (hex4 a b c d); [| discriminate]. intros [= <- <-]. cbn. lia.
Qed.

Lemma mapParsed_fuel {A B} (f : A -> B) p : mapParsed f p = POutOfFuel -> p = POutOfFuel.
Proof. destruct p; cbn; congruence. Qed.

Lemma mapParsed_ok {A B} (f : A -> B) p b r :
  mapParsed f p = POk b r -> exists a, p = POk a r.
Proof. destruct p; cbn; try discriminate. intros [= <- <-]. eauto. Qed.

Lemma stringBody_total fuel : forall s,
  List.length s < fuel ->
  stringBody fuel s <> POutOfFuel /\
  forall cs r, stringBody fuel s = POk cs r -> List.length r < List.length s.
Proof.
  induction fuel as [| fuel IH]; intros s Hlen; [lia |].
  destruct s as [| c rest]; cbn [stringBody]; [split; [discriminate | discriminate] |].
  cbn [List.length] in Hlen.
  destruct (c =? 34)%N.
  { split; [discriminate |]. intros cs r [= <- <-]. cbn. lia. }
  destruct (c =? 92)%N.
  { destruct rest as [| e rest']; [split; discriminate |].
    destruct (escape e rest') as [[u r0] |] eqn:Hesc; [| split; discriminate].
    apply escape_length in Hesc. cbn [List.length] in *.
    destruct (IH r0) as [Hfuel Hok]; [lia |].
    split.
    - intros H. apply mapParsed_fuel in H. contradiction.
    - intros cs r H. apply mapParsed_ok in H. destruct H as (a & H).
      apply Hok in H. lia. }
  destruct (c <? 32)%N; [split; discriminate |].
  destruct (IH rest) as [Hfuel Hok]; [lia |].
  split.
  - intros H. apply mapParsed_fuel in H. contradiction.
  - intros cs r H. apply mapParsed_ok in H. destruct H as (a & H).
    apply Hok in H. cbn. lia.
Qed.

Lemma stringLiteral_total s :
  stringLiteral s <> POutOfFuel /\
  forall cs r, stringLiteral s = POk cs r -> List.length r < List.length s.
Proof. apply stringBody_total. lia. Qed.


Lemma number_total s :
  number s <> POutOfFuel /\
  forall num r, number s = POk num r -> List.length r < List.length s.
Proof.
  unfold number.
  assert (Hsign : exists neg s1, (match expect 45 s with
                                  | Some r => (true, r)
                                  | None => (false, s)
                                  end) = (neg, s1) /\ List.length s1 <= List.length s).
  { destruct (expect 45 s) as [r |] eqn:E.
    - apply expect_length in E. exists true, r. split; [reflexivity | lia].
    - exists false, s. split; [reflexivity | lia]. }
  destruct Hsign as (neg & s1 & -> & Hs1).
  destruct (digits s1) as [ip s2] eqn:Hd. apply digits_length in Hd.
  destruct ip as [| d more]; [split; discriminate |].
  cbn [List.length] in Hd.
  destruct ((d =? 48)%N && negb match more with [] => true | _ :: _ => false end);
    [split; discriminate |].
  assert (Hfrac : forall fp s3,
            (match expect 46 s2 with
             | Some r => let (fp, s3) := digits r in
                         match fp with [] => None | _ :: _ => Some (fp, s3) end
             | None => Some ([], s2)
             end) = Some (fp, s3) -> List.length s3 <= List.length s2).
  { intros fp s3. destruct (expect 46 s2) as [r |] eqn:E.
    - apply expect_length in E. destruct (digits r) as [fp' s3'] eqn:Hd'.
      apply digits_length in Hd'. destruct fp'; [discriminate |].
      intros [= <- <-]. lia.
    - intros [= <- <-]. lia. }
  destruct (match expect 46 s2 with
            | Some r => let (fp, s3) := digits r in
                        match fp with [] => None | _ :: _ => Some (fp, s3) end
            | None => Some ([], s2)
            end) as [[fp s3] |]; [| split; discriminate].
  specialize (Hfrac fp s3 eq_refl).
  assert (Hexp : forall r,
            (match expect 101 s3, expect 69 s3 with
             | Some r, _ => Some r
             | None, Some r => Some r
             | None, None => None
             end) = Some r -> List.length r < List.length s3).
  { intros r. destruct (expect 101 s3) as [r1 |] eqn:E1.
    - apply expect_length in E1. intros [= <-]. lia.
    - destruct (expect 69 s3) as [r2 |] eqn:E2; [| discriminate].
      apply expect_length in E2. intros [= <-]. lia. }
  destruct (match expect 101 s3, expect 69 s3 with
            | Some r, _ => Some r
            | None, Some r => Some r
            | None, None => None
            end) as [r |].
  2:{ split; [discriminate |]. intros num r0 [= <- <-]. lia. }
  specialize (Hexp r eq_refl).
  assert (Hes : exists eneg r1, (match expect 45 r, expect 43 r with
                                 | Some r', _ => (true, r')
                                 | None, Some r' => (false, r')
                                 | None, None => (false, r)
                                 end) = (eneg, r1) /\ List.length r1 <= List.length r).
  { destruct (expect 45 r) as [r' |] eqn:E1.
    - apply expect_length in E1. exists true, r'. split; [reflexivity | lia].
    - destruct (expect 43 r) as [r' |] eqn:E2.
      + apply expect_length in E2. exists false, r'. split; [reflexivity | lia].
      + exists false, r. split; [reflexivity | lia]. }
  destruct Hes as (eneg & r1 & -> & Hr1).
  destruct (digits r1) as [ep s4] eqn:Hd4. apply digits_length in Hd4.
  destruct ep; [split; discriminate |].
  split; [discriminate |]. intros num r0 [= <- <-]. cbn [List.length] in *. lia.
Qed.

Lemma skipn_startsWith s p : startsWith s p = true -> List.length (skipn (List.length p) s) + List.length p = List.length s.
Proof.
  revert s. induction p as [| c p IH]; intros s H.
  - cbn. lia.
  - destruct s as [| d s]; [discriminate |]. cbn [startsWith] in H.
    apply andb_prop in H. destruct H as [_ H]. cbn [List.length skipn].
    specialize (IH s H). lia.
Qed.

Lemma reader_total fuel :
  (forall s, 2 * List.length s + 1 <= fuel -> value fuel s <> POutOfFuel) /\
  (forall s v r, value fuel s = POk v r -> List.length r < List.length s) /\
  (forall s, 2 * List.length s + 2 <= fuel -> elements fuel s <> POutOfFuel) /\
  (forall s vs r, elements fuel s = POk vs r -> List.length r < List.length s) /\
  (forall s, 2 * List.length s + 2 <= fuel -> members fuel s <> POutOfFuel) /\
  (forall s ms r, members fuel s = POk ms r -> List.length r < List.length s).
Proof.
  induction fuel as [| fuel (IHv & IHvl & IHe & IHel & IHm & IHml)].
  { repeat split; intros; try lia; discriminate. }
  assert (Hv : forall s, 2 * List.length s + 1 <= S fuel -> value (S fuel) s <> POutOfFuel).
  { intros s Hlen. cbn [value].
    pose proof (skipWs_length s) as Hws.
    destruct (skipWs s) as [| c rest]; [discriminate |]. cbn [List.length] in Hws.
    destruct (c =? 91)%N.
    { destruct (expect 93 (skipWs rest)); [discriminate |].
      intros H. apply mapParsed_fuel in H. revert H. apply IHe. lia. }
    destruct (c =? 123)%N.
    { destruct (expect 125 (skipWs rest)); [discriminate |].
      intros H. apply mapParsed_fuel in H. revert H. apply IHm. lia. }
    destruct (c =? 34)%N.
    { intros H. apply mapParsed_fuel in H. revert H. apply stringLiteral_total. }
    destruct (startsWith (c :: rest) (js "true")); [discriminate |].
    destruct (startsWith (c :: rest) (js "false")); [discriminate |].
    destruct (startsWith (c :: rest) (js "null")); [discriminate |].
    intros H. apply mapParsed_fuel in H. revert H. apply number_total. }
  assert (Hvl : forall s v r, value (S fuel) s = POk v r -> List.length r < List.length s).
  { intros s v r. cbn [value].
    pose proof (skipWs_length s) as Hws.
    destruct (skipWs s) as [| c rest]; [discriminate |]. cbn [List.length] in Hws.
    destruct (c =? 91)%N.
    { pose proof (skipWs_length rest) as Hws'.
      destruct (expect 93 (skipWs rest)) as [r' |] eqn:E.
      - apply expect_length in E. intros [= <- <-]. lia.
      - intros H. apply mapParsed_ok in H. destruct H as (a & H). apply IHel in H. lia. }
    destruct (c =? 123)%N.
    { pose proof (skipWs_length rest) as Hws'.
      destruct (expect 125 (skipWs rest)) as [r' |] eqn:E.
      - apply expect_length in E. intros [= <- <-]. lia.
      - intros H. apply mapParsed_ok in H. destruct H as (a & H). apply IHml in H. lia. }
    destruct (c =? 34)%N.
    { intros H. apply mapParsed_ok in H. destruct H as (a & H).
      apply stringLiteral_total in H. lia. }
    destruct (startsWith (c :: rest) (js "true")) eqn:Et.
    { intros [= <- <-]. apply skipn_startsWith in Et.
      change (List.length (js "true")) with 4 in Et. cbn [List.length skipn] in *. lia. }
    destruct (startsWith (c :: rest) (js "false")) eqn:Ef.
    { intros [= <- <-]. apply skipn_startsWith in Ef.
      change (List.length (js "false")) with 5 in Ef. cbn [List.length skipn] in *. lia. }
    destruct (startsWith (c :: rest) (js "null")) eqn:En.
    { intros [= <- <-]. apply skipn_startsWith in En.
      change (List.length (js "null")) with 4 in En. cbn [List.length skipn] in *. lia. }
    intros H. apply mapParsed_ok in H. destruct H as (a & H).
    apply number_total in H. cbn [List.length] in *. lia. }
  assert (He : forall s, 2 * List.length s + 2 <= S fuel -> elements (S fuel) s <> POutOfFuel).
  { intros s Hlen. cbn [elements].
    destruct (value fuel s) as [v r | |] eqn:E; [| discriminate | exfalso; revert E; apply IHv; lia].
    apply IHvl in E. pose proof (skipWs_length r) as Hws.
    destruct (skipWs r) as [| c r']; [discriminate |]. cbn [List.length] in Hws.
    destruct (c =? 93)%N; [discriminate |].
    destruct (c =? 44)%N; [| discriminate].
    unfold consParsed. intros H. apply mapParsed_fuel in H. revert H. apply IHe. lia. }
  assert (Hel : forall s vs r, elements (S fuel) s = POk vs r -> List.length r < List.length s).
  { intros s vs r0. cbn [elements].
    destruct (value fuel s) as [v r | |] eqn:E; [| discriminate | discriminate].
    apply IHvl in E. pose proof (skipWs_length r) as Hws.
    destruct (skipWs r) as [| c r']; [discriminate |]. cbn [List.length] in Hws.
    destruct (c =? 93)%N; [intros [= <- <-]; lia |].
    destruct (c =? 44)%N; [| discriminate].
    unfold consParsed. intros H. apply mapParsed_ok in H. destruct H as (a & H).
    apply IHel in H. lia. }
  assert (Hm : forall s, 2 * List.length s + 2 <= S fuel -> members (S fuel) s <> POutOfFuel).
  { intros s Hlen. cbn [members].
    pose proof (skipWs_length s) as Hws.
    destruct (expect 34 (skipWs s)) as [r0 |] eqn:E0; [| discriminate].
    apply expect_length in E0.
    destruct (stringLiteral r0) as [key r1 | |] eqn:Es;
      [| discriminate | exfalso; revert Es; apply stringLiteral_total].
    apply stringLiteral_total in Es. pose proof (skipWs_length r1) as Hws1.
    destruct (expect 58 (skipWs r1)) as [r2 |] eqn:E2; [| discriminate].
    apply expect_length in E2.
    destruct (value fuel r2) as [v r3 | |] eqn:Ev;
      [| discriminate | exfalso; revert Ev; apply IHv; lia].
    apply IHvl in Ev. pose proof (skipWs_length r3) as Hws3.
    destruct (skipWs r3) as [| c r4]; [discriminate |]. cbn [List.length] in Hws3.
    destruct (c =? 125)%N; [discriminate |].
    destruct (c =? 44)%N; [| discriminate].
    unfold consParsed. intros H. apply mapParsed_fuel in H. revert H. apply IHm. lia. }
  assert (Hml : forall s ms r, members (S fuel) s = POk ms r -> List.length r < List.length s).
  { intros s ms r. cbn [members].
    pose proof (skipWs_length s) as Hws.
    destruct (expect 34 (skipWs s)) as [r0 |] eqn:E0; [| discriminate].
    apply expect_length in E0.
    destruct (stringLiteral r0) as [key r1 | |] eqn:Es; [| discriminate | discriminate].
    apply stringLiteral_total in Es. pose proof (skipWs_length r1) as Hws1.
    destruct (expect 58 (skipWs r1)) as [r2 |] eqn:E2; [| discriminate].
    apply expect_length in E2.
    destruct (value fuel r2) as [v r3 | |] eqn:Ev; [| discriminate | discriminate].
    apply IHvl in Ev. pose proof (skipWs_length r3) as Hws3.
    destruct (skipWs r3) as [| c r4]; [discriminate |]. cbn [List.length] in Hws3.
    destruct (c =? 125)%N; [intros [= <- <-]; lia |].
    destruct (c =? 44)%N; [| discriminate].
    unfold consParsed. intros H. apply mapParsed_ok in H. destruct H as (a & H).
    apply IHml in H. lia. }
  repeat split; assumption.
Qed.

(** The reader is total: a text is parsed or has a syntax error. *)
Lemma document_total text : document text <> POutOfFuel.
Proof.
  unfold document.
  destruct (reader_total (2 * List.length text + 2)) as (Hv & _).
  destruct (value (2 * List.length text + 2) text) as [v r | |] eqn:E.
  - destruct (skipWs r); discriminate.
  - discriminate.
  - exfalso. revert E. apply Hv. lia.
Qed.

(** So [Json.parse] answers [None] only for a syntax error. *)
Lemma parse_none_iff text : parse text = None <-> document text = PSyntaxError.
Proof.
  unfold parse. pose proof (document_total text) as Htotal.
  destruct (document text); split; congruence.
Qed.

End JsonTotal.

(** * Concrete runs

    The service is [scripted], [JSON.parse] is [Json.parse]. *)

Ltac forall_chars :=
  repeat (constructor; [try split; discriminate |]); constructor.

Ltac below_length j :=
  repeat (destruct j as [| j]; [reflexivity |]); cbn in *; lia.

(** C1 at work: of three frames the middle one meets a server error; it
    repeats the payload of the frame before it, and the request of the
    last frame carries that payload. *)
Lemma C1_witness :
  1 < List.length ex_prompts /\
  exists c w1 t1,
    forFrames scripted Json.literal 1 ex_prompts 0 (initialChain ex_image)
      (mkWorld ex_script_stall emptyApp) = (Normal c, w1, t1) /\
    frameFailsAt scripted Json.literal ex_prompts 1 (currentImagePart c) (svc w1) = true /\
    exists frames w' t,
      generateFrames scripted Json.literal ex_image ex_prompts
        (mkWorld ex_script_stall emptyApp) = (Normal frames, w', t) /\
      nth_error frames 1 = Some (nth 0 frames None) /\
      Forall (fun req => inputPayload req = nth_error frames 1)
             (requestsOf (nth 2 (frameTraces t) [])) /\
      nth 0 frames None = Some (js "QUFB").
Proof.
  split; [cbn; lia |].
  destruct (@C1_fallback_reuses_previous_payload Script scripted Json.literal
              ex_image ex_prompts (mkWorld ex_script_stall emptyApp) 1)
    as (c & w1 & t1 & Hpre & Hthen); [cbn; lia |].
  exists c, w1, t1. split; [exact Hpre |].
  assert (Hfails : frameFailsAt scripted Json.literal ex_prompts 1 (currentImagePart c)
                     (svc w1) = true).
  { vm_compute in Hpre. inversion Hpre. reflexivity. }
  split; [exact Hfails |].
  destruct (Hthen Hfails) as (frames & w' & t & Hrun & _ & Hk & _ & Hnext & _).
  exists frames, w', t. repeat split; try assumption.
  assert (Hf : fst (fst (generateFrames scripted Json.literal ex_image ex_prompts
                           (mkWorld ex_script_stall emptyApp))) = Normal frames)
    by (rewrite Hrun; reflexivity).
  vm_compute in Hf. inversion Hf. reflexivity.
Defined.

(** C4 at work: three rate-limit errors in a row. *)
Lemma C4_witness :
  let c := initialChain ex_image in
  let w := mkWorld ex_script_throttled emptyApp in
  let req := frameRequest (js "tilt the head" ++ FRAMING_INSTRUCTION) (currentImagePart c) in
  generationPromptOf Json.literal ex_prompts 0 = inr (js "tilt the head" ++ FRAMING_INSTRUCTION) /\
  isRateLimited (fst (scripted (svc w) req)) = true /\
  exists c' w' msg body,
    frameIteration scripted Json.literal ex_prompts 0 c w
      = (Normal c', w', EvSetLoadingMessage msg :: body) /\
    schedule body = [Issue; Pause 2000; Issue; Pause 4000; Issue] /\
    fellBack body = true /\
    svc w' = [] /\
    allFrames c' = [Some (js "T1JJRw==")].
Proof.
  intros c w req. split; [reflexivity |]. split; [reflexivity |].
  destruct (@C4_backoff_schedule Script scripted Json.literal ex_prompts 0 c w)
    as (c' & w' & msg & body & Hrun & _ & _ & Hcase).
  change (generationPromptOf Json.literal ex_prompts 0)
    with (@inr JSError JSString (js "tilt the head" ++ FRAMING_INSTRUCTION)) in Hcase.
  cbv zeta in Hcase. destruct Hcase as (_ & Hthree).
  destruct Hthree as (Hsch & Hfb & Hsvc & Hall & _); [reflexivity | reflexivity | reflexivity |].
  exists c', w', msg, body. repeat split; assumption.
Defined.

(** C5 at work: a server error on the first attempt. *)
Lemma C5_witness :
  let c := initialChain ex_image in
  let w := mkWorld [serverError] emptyApp in
  let req := frameRequest (js "tilt the head" ++ FRAMING_INSTRUCTION) (currentImagePart c) in
  attemptResult (fst (scripted (svc w) req))
    = inl (mkError (js "got status: 500 Internal Server Error")) /\
  includes (js "got status: 500 Internal Server Error") (js "429") = false /\
  includes (js "got status: 500 Internal Server Error") (js "RESOURCE_EXHAUSTED") = false /\
  exists w' msg args,
    frameIteration scripted Json.literal ex_prompts 0 c w
      = (Normal (mkChain ex_image [Some (js "T1JJRw==")] (Some (js "T1JJRw=="))),
         w', [EvSetLoadingMessage msg; EvGenerateContent req; EvConsoleError args]) /\
    svc w' = [].
Proof.
  intros c w req. split; [reflexivity |]. split; [reflexivity |]. split; [reflexivity |].
  destruct (@C5_other_error_falls_back_at_once Script scripted Json.literal ex_prompts 0 c w
              (mkError (js "got status: 500 Internal Server Error")))
    as ((w' & msg & args & Hrun & Hsvc) & _); [reflexivity | reflexivity | reflexivity |].
  exists w', msg, args. split; [exact Hrun | exact Hsvc].
Defined.

(** C3 at work, part by part: a fenced answer after a line of prose; a
    bare array of prompts inside a sentence; a bare array of objects; an
    answer without any array; and answers whose extracted text is no
    JSON. *)
Lemma C3_witness :
  extractJsonText DETECT_PATTERN
    (js "Here you go:" ++ [LF] ++ FENCE_OPEN ++ ex_cat_text ++ FENCE_CLOSE ++ [LF] ++ js "Enjoy!")
    = Some ex_cat_text /\
  extractJsonText PROMPTS_PATTERN (js "The prompts are " ++ jq "['a', 'b']" ++ js " as asked.")
    = Some (jq "['a', 'b']") /\
  extractJsonText DETECT_PATTERN (js " Found: " ++ ex_cat_text ++ js " (1 object) ")
    = Some ex_cat_text /\
  extractJsonText PROMPTS_PATTERN (js "  no array here ") = Some (js "no array here") /\
  fst (fst (detectObjects scripted Json.parse ex_image
              (mkWorld [textAnswer (js "Sorry, I cannot help with that.")] emptyApp)))
    = Throw (mkError MSG_INVALID_DETECT) /\
  fst (fst (generatePrompts scripted Json.parse Json.literal (Some (JString (js "cat"))) ex_image
              (mkWorld [textAnswer (js "[oops]")] emptyApp)))
    = Throw (mkError MSG_INVALID_PROMPTS) /\
  generatePrompts scripted Json.parse Json.literal (Some ex_unconvertible) ex_image
    (mkWorld [textAnswer (js "[oops]")] emptyApp)
    = (Throw typeErrorConvert, mkWorld [textAnswer (js "[oops]")] emptyApp, []).
Proof.
  destruct (@C3_extraction_by_first_match Script scripted Json.parse Json.literal)
    as (Hfence & Hbare & Hdetect & Hnone & Hdparse & Hpparse).
  repeat apply conj.
  - apply (Hfence DETECT_PATTERN _ (js "Here you go:" ++ [LF]) ex_cat_text ([LF] ++ js "Enjoy!")).
    + left. reflexivity.
    + reflexivity.
    + forall_chars.
    + discriminate.
    + intros j Hj. below_length j.
  - apply (Hbare _ (js "The prompts are ") (jq "'a', 'b'") (js " as asked.")).
    + reflexivity.
    + forall_chars.
    + forall_chars.
  - apply (Hdetect _ (js "Found: ") [] 
             (jq "'name': 'cat', 'boundingBox': {'x': 0.1, 'y': 0.1, 'width': 0.3, 'height': 0.3}")
             [] (js " (1 object)")).
    + reflexivity.
    + forall_chars.
    + forall_chars.
    + repeat (constructor; [reflexivity |]); constructor.
    + forall_chars.
    + forall_chars.
  - apply Hnone. reflexivity.
  - eapply (Hdparse ex_image (mkWorld [textAnswer (js "Sorry, I cannot help with that.")] emptyApp));
      reflexivity.
  - pose proof (Hpparse (Some (JString (js "cat"))) ex_image
                  (mkWorld [textAnswer (js "[oops]")] emptyApp)) as Hcat.
    change (templateOf Json.literal (Some (JString (js "cat")))) with (@inr JSError _ (js "cat"))
      in Hcat.
    eapply Hcat; reflexivity.
  - exact (Hpparse (Some ex_unconvertible) ex_image
             (mkWorld [textAnswer (js "[oops]")] emptyApp)).
Defined.

(** C6 at work: the service answers with the empty array. *)
Lemma C6_witness :
  Json.parse (parseInput (extractJsonText DETECT_PATTERN (js "[]"))) = Some (JArray []) /\
  exists w' t msg,
    runObjectDetection scripted Json.parse ex_file (mkWorld [textAnswer (js "[]")] emptyApp)
      = (Normal tt, w', t) /\
    error (app w') = Some msg /\
    (msg = MSG_NO_OBJECTS \/ msg = MSG_DETECT_FORMAT) /\
    detectedObjects (app w') = [] /\
    selectedObject (app w') = None /\
    detectionComplete (app w') = false /\
    isLoading (app w') = false.
Proof.
  split; [reflexivity |].
  apply (@C6_no_empty_detection_success Script scripted Json.parse ex_file
           (mkWorld [textAnswer (js "[]")] emptyApp)
           (mkResponse (Some (js "[]")) None) (js "[]") [] (JArray [])).
  - reflexivity.
  - reflexivity.
  - reflexivity.
  - left. reflexivity.
Defined.

(** C7 at work: the answer of the end-to-end scenario of the
    specification. *)
Lemma C7_witness :
  Json.parse (parseInput (extractJsonText DETECT_PATTERN ex_cat_text)) = Some (JArray [ex_cat]) /\
  exists t,
    detectObjects scripted Json.parse ex_image (mkWorld [textAnswer ex_cat_text] emptyApp)
      = (Normal [ex_cat], mkWorld [] emptyApp, t).
Proof.
  split; [reflexivity |].
  apply (@C7_detectObjects_returns_parsed_array Script scripted Json.parse ex_image
           (mkWorld [textAnswer ex_cat_text] emptyApp)
           (mkResponse (Some ex_cat_text) None) ex_cat_text [] [ex_cat]).
  - reflexivity.
  - reflexivity.
  - reflexivity.
Defined.

(** C8 at work: six prompts, as asked. *)
Lemma C8_witness :
  (exists t,
     generatePrompts scripted Json.parse Json.literal (nameOf ex_cat) ex_image
       (mkWorld [textAnswer ex_six_prompts_text] emptyApp)
     = (Normal ex_six_prompts, mkWorld [] emptyApp, t)) /\
  generatePrompts scripted Json.parse Json.literal (Some ex_unconvertible) ex_image
    (mkWorld [textAnswer ex_six_prompts_text] emptyApp)
  = (Throw typeErrorConvert, mkWorld [textAnswer ex_six_prompts_text] emptyApp, []).
Proof.
  split.
  - pose proof (@C8_generatePrompts_outcome Script scripted Json.parse Json.literal
                  (nameOf ex_cat) ex_image
                  (mkWorld [textAnswer ex_six_prompts_text] emptyApp)) as Hcat.
    change (templateOf Json.literal (nameOf ex_cat)) with (@inr JSError _ (js "cat")) in Hcat.
    destruct (Hcat (mkResponse (Some ex_six_prompts_text) None) ex_six_prompts_text [])
      as (t & Hrun); [reflexivity | reflexivity |].
    exists t. exact Hrun.
  - exact (@C8_generatePrompts_outcome Script scripted Json.parse Json.literal
             (Some ex_unconvertible) ex_image
             (mkWorld [textAnswer ex_six_prompts_text] emptyApp)).
Defined.

(** C9 at work: the end-to-end scenario of the specification, six
    prompts and six generated frames. *)
Lemma C9_witness :
  exists w' t,
    handleGenerateAnimation scripted Json.parse Json.literal Json.isZero
      (mkWorld ex_script_animation ex_app_selected) = (Normal tt, w', t) /\
    List.length (generatedFrames (app w')) = 7 /\
    List.length (animationPrompts (app w')) = 7 /\
    nth_error (generatedFrames (app w')) 0 = Some (file_base64 ex_file) /\
    animationPrompts (app w') = JString ORIGINAL_IMAGE_LABEL :: ex_six_prompts /\
    error (app w') = None.
Proof.
  pose proof (@C9_presented_frames_and_prompts Script scripted Json.parse Json.literal
                Json.isZero (mkWorld ex_script_animation ex_app_selected) ex_cat
                (mkUploaded (js "blob:flickerfy/1") ex_file) eq_refl eq_refl eq_refl) as Hcat.
  change (templateOf Json.literal (nameOf ex_cat)) with (@inr JSError _ (js "cat")) in Hcat.
  destruct (Hcat (mkResponse (Some ex_six_prompts_text) None) ex_six_prompts_text
              (List.tl ex_script_animation) ex_six_prompts)
    as (frames & w' & t & w1 & w2 & t2 & Hrun & _ & _ & Hframes & Hprompts & Hlf & Hlp & Herr & _);
    try reflexivity; [discriminate |].
  exists w', t. rewrite Hframes in *. repeat split; assumption.
Defined.

(** A scenario of the specification: a frame is throttled twice and
    succeeds at the third attempt.  The waits are 2000 ms and 4000 ms and
    the payload is the new image, not the fallback. *)
Example scenario_throttled_twice_then_success :
  let run := frameIteration scripted Json.literal ex_prompts 0 (initialChain ex_image)
               (mkWorld [rateLimited; rateLimited; imageAnswer "TkVX" "image/png"] emptyApp) in
  option_map allFrames
    (match fst (fst run) with Normal c => Some c | _ => None end)
  = Some [Some (js "TkVX")] /\
  schedule (snd run) = [Issue; Pause 2000; Issue; Pause 4000; Issue] /\
  fellBack (snd run) = false.
Proof. repeat split. Qed.

(** A prompt that does not convert to a string: the answer with the
    prompts is [[{"toString": 1}, "wave"]].  The first frame makes no
    request and repeats the original image; the second one makes the one
    request of the run and takes its picture. *)
Example scenario_unconvertible_prompt :
  let run := generateFrames scripted Json.literal ex_image ex_prompts_odd
               (mkWorld [imageAnswer "QUFB" "image/png"] emptyApp) in
  Json.parse (jq "[{'toString': 1}, 'wave']") = Some (JArray ex_prompts_odd) /\
  fst (fst run) = Normal [Some (js "T1JJRw=="); Some (js "QUFB")] /\
  map promptTextOf (requestsOf (snd run)) = [Some (js "wave" ++ FRAMING_INSTRUCTION)] /\
  map fellBack (frameTraces (snd run)) = [true; false] /\
  svc (snd (fst run)) = [].
Proof. repeat split. Qed.

(** The texts rejected above are rejected for their syntax. *)
Example json_rejects_prose :
  Json.document (js "Sorry, I cannot help with that.") = Json.PSyntaxError.
Proof. reflexivity. Qed.

Example json_rejects_bare_word :
  Json.document (js "[oops]") = Json.PSyntaxError /\
  Json.document (js "[6 frames]") = Json.PSyntaxError /\
  Json.document (js "[[1]") = Json.PSyntaxError /\
  Json.document (js "undefined") = Json.PSyntaxError.
Proof. repeat split. Qed.

(** ** Where the claims as worded fail *)

(** C3 as worded fails.  A fenced array is there, yet the bracket in the
    prose before it is matched first and taken; an array with arrays
    inside is cut at the first closing bracket; and an answer in which
    the pattern of [detectObjects] finds nothing is parsed whole and
    returned, without an error. *)
Lemma C3_counterexample :
  extractJsonText PROMPTS_PATTERN ex_bracket_before_fence = Some (js "[6 frames]") /\
  extractJsonText PROMPTS_PATTERN ex_bracket_before_fence <> Some (jq "['a']") /\
  extractJsonText PROMPTS_PATTERN (js "[[1],[2]]") = Some (js "[[1]") /\
  exec DETECT_PATTERN (trim (js "[]")) = None /\
  fst (fst (detectObjects scripted Json.parse ex_image (mkWorld [textAnswer (js "[]")] emptyApp)))
    = Normal [].
Proof.
  repeat apply conj; try reflexivity.
  vm_compute. discriminate.
Qed.

(** C7 as worded fails: six objects come back, the first with a box
    outside the unit square. *)
Lemma C7_counterexample :
  exists objs first box,
    fst (fst (detectObjects scripted Json.parse ex_image
                (mkWorld [textAnswer ex_six_objects_text] emptyApp))) = Normal objs /\
    List.length objs = 6 /\
    ~ List.length objs <= 5 /\
    nth_error objs 0 = Some (JObject first) /\
    lookupMember (js "boundingBox") first = Some (JObject box) /\
    lookupMember (js "x") box = Some (JNum (mkJNumber false [49%N] [53%N] None)).
Proof.
  eexists. eexists. eexists.
  split; [vm_compute; reflexivity |].
  split; [reflexivity |].
  split; [cbn; lia |].
  split; [reflexivity |].
  split; reflexivity.
Qed.

(** C8 as worded fails: three values come back where six were asked
    for, one of them an empty string and one a number. *)
Lemma C8_counterexample :
  fst (fst (generatePrompts scripted Json.parse Json.literal (nameOf ex_cat) ex_image
              (mkWorld [textAnswer (jq "['only', '', 7]")] emptyApp)))
  = Normal [JString (js "only"); JString []; JNum (mkJNumber false [55%N] [] None)] /\
  List.length [JString (js "only"); JString []; JNum (mkJNumber false [55%N] [] None)]
  <> NUM_FRAMES_TO_GENERATE.
Proof.
  split; [reflexivity | discriminate].
Qed.

(** * More about the pipeline *)

Section MoreFacts.

Variable ServiceState : Type.
Variable service : ServiceState -> Request -> (JSError + Response) * ServiceState.
Variable JSON_parse : JSString -> option JSON.
Variable Number_toString : JNumber -> JSString.
Variable Number_isZero : JNumber -> bool.

(** ** What the frames are *)

Lemma imageDataOf_truthy response blob :
  imageDataOf response = inr blob -> isTruthyPayload (data blob) = true.
Proof.
  unfold imageDataOf. destruct (imagePartOf response) as [e | part]; [discriminate |].
  unfold truthyData. destruct part as [part |]; [| discriminate].
  destruct (part_inlineData part) as [b |]; [| discriminate].
  destruct (data b) as [[| ch d] |] eqn:Hd; try discriminate.
  intros [= <-]. rewrite Hd. reflexivity.
Qed.

Lemma attemptResult_truthy answer blob :
  attemptResult answer = inr blob -> isTruthyPayload (data blob) = true.
Proof.
  destruct answer as [e | response]; [discriminate | apply imageDataOf_truthy].
Qed.

(** The payload a frame pushes is the last good one or a fresh non-empty
    one. *)
Lemma whileAttempts_payload prompts i fuel :
  forall c a (w : World ServiceState) c' a' w' t,
    success a = false ->
    attempt a < maxRetries ->
    whileAttempts service Number_toString fuel prompts i c a w = (Normal (c', a'), w', t) ->
    lastSuccessfulBase64 c' = lastSuccessfulBase64 c \/
    isTruthyPayload (lastSuccessfulBase64 c') = true.
Proof.
  destruct (generationPromptOf Number_toString prompts i) as [e0 | text] eqn:Hconv.
  { intros c a w c' a' w' t Hs Ha Hrun. destruct fuel as [| fuel].
    - cbn [whileAttempts] in Hrun. rewrite Hs in Hrun.
      apply Nat.ltb_lt in Ha. rewrite Ha in Hrun. discriminate Hrun.
    - rewrite (whileAttempts_unconverted service Number_toString fuel prompts i c a w
                 Hconv Hs Ha) in Hrun.
      inversion Hrun. left. reflexivity. }
  induction fuel as [| fuel IH]; intros c a w c' a' w' t Hs Ha Hrun.
  { cbn [whileAttempts] in Hrun. rewrite Hs in Hrun.
    apply Nat.ltb_lt in Ha. rewrite Ha in Hrun. discriminate Hrun. }
  assert (Hcond : (attempt a <? maxRetries) && negb (success a) = true).
  { rewrite Hs. apply Nat.ltb_lt in Ha. rewrite Ha. reflexivity. }
  rewrite (whileAttempts_step service Number_toString _ _ _ _ _ _ Hcond) in Hrun.
  destruct (attempt_cases service Number_toString prompts i c a w Hconv)
    as (ca & t0 & Hstep & Hcase).
  rewrite Hstep in Hrun. clear Hstep.
  assert (Hstop : forall a1,
             ca = (c, a1) -> success a1 = true ->
             lastSuccessfulBase64 c' = lastSuccessfulBase64 c).
  { intros a1 -> Hs1. cbn [fst snd] in Hrun.
    rewrite whileAttempts_done in Hrun by (rewrite Hs1; apply andb_false_r).
    inversion Hrun. reflexivity. }
  destruct (attemptResult (fst (service (svc w)
              (frameRequest text (currentImagePart c))))) as [e | blob] eqn:Hres.
  - destruct (isRateLimit e).
    + destruct (maxRetries <=? S (attempt a)) eqn:Hmax.
      * left. eapply Hstop; [apply Hcase | reflexivity].
      * destruct Hcase as (-> & _). cbn [fst snd] in Hrun. apply Nat.leb_gt in Hmax.
        match type of Hrun with
        | context [whileAttempts _ _ _ _ _ ?c0 ?a0 ?w0] =>
            destruct (whileAttempts service Number_toString fuel prompts i c0 a0 w0)
              as [[r w2] t2] eqn:Hrest
        end.
        inversion Hrun; subst.
        eapply IH; [| | exact Hrest]; [exact Hs | exact Hmax].
    + left. eapply Hstop; [apply Hcase | reflexivity].
  - destruct Hcase as (-> & _). cbn [fst snd] in Hrun.
    rewrite whileAttempts_done in Hrun by apply andb_false_r.
    inversion Hrun. right. exact (attemptResult_truthy _ Hres).
Qed.

Lemma requestsOf_app t1 t2 : requestsOf (t1 ++ t2) = requestsOf t1 ++ requestsOf t2.
Proof.
  induction t1 as [| ev t1 IH]; [reflexivity |].
  destruct ev; cbn [List.app requestsOf]; rewrite IH; reflexivity.
Qed.

Lemma schedule_app t1 t2 : schedule (t1 ++ t2) = schedule t1 ++ schedule t2.
Proof.
  induction t1 as [| ev t1 IH]; [reflexivity |].
  destruct ev; cbn [List.app schedule]; rewrite IH; reflexivity.
Qed.

Lemma totalWait_app l1 l2 : (totalWait (l1 ++ l2) = totalWait l1 + totalWait l2)%N.
Proof.
  induction l1 as [| tick l1 IH]; [reflexivity |].
  destruct tick; cbn [List.app totalWait]; rewrite IH; lia.
Qed.

Lemma fellBack_app t1 t2 : fellBack (t1 ++ t2) = fellBack t1 || fellBack t2.
Proof. unfold fellBack. apply existsb_app. Qed.

(** All that one iteration of the loop does, seen from outside. *)
Lemma frameIteration_more prompts i c (w : World ServiceState) :
  exists d m w' body,
    frameIteration service Number_toString prompts i c w
      = (Normal (mkChain (base64ToGenerativePart d m) (allFrames c ++ [d]) d),
         w', EvSetLoadingMessage (frameProgressMessage prompts i) :: body) /\
    frameOk Number_toString prompts i c body d /\
    (d = lastSuccessfulBase64 c \/ isTruthyPayload d = true) /\
    sameButLoadingMessage (app w') (app w) /\
    loadingMessage (app w') = frameProgressMessage prompts i /\
    fellBack body
    = frameFailsAt service Number_toString prompts i (currentImagePart c) (svc w).
Proof.
  set (a0 := mkAttempt 0 2000 false None (mimeType (inlineData (currentImagePart c)))).
  set (w0 := snd (fst (setLoadingMessage (ServiceState := ServiceState)
                         (frameProgressMessage prompts i) w))).
  destruct (whileAttempts_spec service Number_toString prompts i maxRetries c a0 w0)
    as (c' & a' & w' & t & Hrun & Hs & Hnew & Hcur & Hall & Happ & Hfb & Hmk & Hreq & Hlen & Hsch);
    [reflexivity | cbn; unfold maxRetries; lia | cbn; lia |].
  pose proof (frameIteration_of_while service Number_toString prompts i c w Hrun Hs) as Hit.
  pose proof (whileAttempts_payload prompts i maxRetries c a0 w0 eq_refl
                ltac:(cbn; unfold maxRetries; lia) Hrun) as Hpay.
  destruct (frameIteration_fellBack service Number_toString prompts i c w)
    as (c2 & w2 & msg2 & body2 & Hit2 & Hfails).
  rewrite Hit in Hit2. inversion Hit2; subst c2 w2 msg2 body2. clear Hit2.
  exists (newBase64Data a'), (newMimeType a'), w', t.
  rewrite Hall, <- Hnew in Hit.
  split; [exact Hit |].
  cbn [attempt delay a0] in Hlen, Hsch. rewrite Nat.sub_0_r in Hlen, Hsch.
  split; [unfold frameOk; rewrite Hnew; auto |].
  split; [rewrite Hnew; exact Hpay |].
  split; [rewrite Happ; unfold sameButLoadingMessage; cbn; repeat split |].
  split; [rewrite Happ; reflexivity | exact Hfails].
Qed.

Lemma sameButLoadingMessage_trans a b c :
  sameButLoadingMessage a b -> sameButLoadingMessage b c -> sameButLoadingMessage a c.
Proof.
  unfold sameButLoadingMessage. intros H1 H2.
  destruct H1 as (? & ? & ? & ? & ? & ? & ? & ?), H2 as (? & ? & ? & ? & ? & ? & ? & ?).
  repeat split; congruence.
Qed.

Lemma totalWait_frame k due :
  due <= 1 ->
  due <= k <= maxRetries * due ->
  (totalWait (firstn (2 * k - 1) (backoffLadder maxRetries 2000)) <= 6000 * N.of_nat due)%N.
Proof.
  unfold maxRetries. intros Hdue Hk.
  assert (Hcases : (due = 0 /\ k = 0) \/ (due = 1 /\ (k = 1 \/ k = 2 \/ k = 3))) by lia.
  destruct Hcases as [(-> & ->) | (-> & [-> | [-> | ->]])]; cbn; lia.
Qed.

Lemma attemptsDue_le prompts i : attemptsDue Number_toString prompts i <= 1.
Proof. unfold attemptsDue. destruct (converts Number_toString prompts i); lia. Qed.

Lemma convertingFrames_prompts prompts : forall n i,
  i + n = List.length prompts ->
  convertingFrames Number_toString prompts i n
  = convertingPrompts Number_toString (skipn i prompts).
Proof.
  induction n as [| n IH]; intros i Hlen.
  - rewrite Nat.add_0_r in Hlen. subst i. rewrite skipn_all. reflexivity.
  - destruct (nth_error prompts i) as [prompt |] eqn:Hp.
    2:{ apply nth_error_None in Hp. lia. }
    rewrite (skipn_nth_error _ _ Hp). cbn [convertingFrames].
    rewrite IH by lia.
    unfold convertingPrompts, attemptsDue, converts, generationPromptOf, templateOf.
    rewrite Hp. cbn [filter].
    destruct (ToString Number_toString prompt); reflexivity.
Qed.

(** What the loop does over [n] frames, whatever the service answers. *)
Lemma forFrames_more n prompts :
  forall i c (w : World ServiceState),
  exists c' w' t frames,
    forFrames service Number_toString n prompts i c w = (Normal c', w', t) /\
    allFrames c' = allFrames c ++ frames /\
    List.length frames = n /\
    Forall (fun d => d = lastSuccessfulBase64 c \/ isTruthyPayload d = true) frames /\
    convertingFrames Number_toString prompts i n <= List.length (requestsOf t)
      <= 3 * convertingFrames Number_toString prompts i n /\
    (totalWait (schedule t)
     <= 6000 * N.of_nat (convertingFrames Number_toString prompts i n))%N /\
    sameButLoadingMessage (app w') (app w) /\
    match n with
    | O => w' = w /\ t = []
    | S m => loadingMessage (app w') = frameProgressMessage prompts (i + m)
    end.
Proof.
  induction n as [| n IH]; intros i c w.
  - exists c, w, [], []. cbn. rewrite app_nil_r.
    repeat split; auto; try lia. 
  - rewrite forFrames_S.
    destruct (frameIteration_more prompts i c w)
      as (d & m & w1 & body & Hit & Hok & Hpay & Hsame & Hmsg & _).
    rewrite Hit.
    destruct (IH (S i) (mkChain (base64ToGenerativePart d m) (allFrames c ++ [d]) d) w1)
      as (c' & w' & t & frames & Hrest & Hall & Hlen & Hpays & Hreqs & Hwait & Hsame' & Hlast).
    rewrite Hrest.
    exists c', w', ((EvSetLoadingMessage (frameProgressMessage prompts i) :: body) ++ t), (d :: frames).
    destruct Hok as (_ & _ & _ & Hcount & Hsch).
    split; [reflexivity |].
    split; [rewrite Hall; cbn [allFrames]; rewrite <- app_assoc; reflexivity |].
    split; [cbn; rewrite Hlen; reflexivity |].
    split.
    { constructor; [exact Hpay |].
      eapply Forall_impl; [| exact Hpays]. cbn [lastSuccessfulBase64].
      intros d' [-> | Ht]; [exact Hpay | right; exact Ht]. }
    cbn [List.app requestsOf schedule convertingFrames].
    rewrite requestsOf_app, schedule_app, length_app.
    split; [unfold maxRetries in Hcount; lia |].
    split.
    { rewrite totalWait_app, Hsch.
      pose proof (totalWait_frame (attemptsDue_le prompts i) Hcount). lia. }
    split; [eapply sameButLoadingMessage_trans; eassumption |].
    destruct n as [| n'].
    + destruct Hlast as (-> & _). rewrite Nat.add_0_r. exact Hmsg.
    + rewrite Hlast. f_equal. lia.
Qed.


(** X1.  Whatever the service does, every payload [generateFrames]
    returns is the data of the original image or a non-empty string: a
    frame is never [undefined] or empty unless the original image's data
    is. *)
Theorem generateFrames_payloads_defined initialImagePart prompts (w : World ServiceState) :
  exists frames w' t,
    generateFrames service Number_toString initialImagePart prompts w
      = (Normal frames, w', t) /\
    Forall (fun d => d = data (inlineData initialImagePart) \/ isTruthyPayload d = true)
           frames.
Proof.
  destruct (forFrames_more (List.length prompts) prompts 0 (initialChain initialImagePart) w)
    as (c' & w' & t & frames & Hrun & Hall & _ & Hpay & _).
  unfold generateFrames. fold (initialChain initialImagePart).
  unfold bind, ret. rewrite Hrun.
  exists frames, w', (t ++ []). rewrite Hall. split; [reflexivity | exact Hpay].
Qed.

Lemma convertingPrompts_all prompts :
  Forall (fun prompt => exists text, ToString Number_toString prompt = inr text) prompts ->
  convertingPrompts Number_toString prompts = List.length prompts.
Proof.
  unfold convertingPrompts.
  induction 1 as [| prompt rest (text & Hp) _ IH]; [reflexivity |].
  cbn [filter]. rewrite Hp. cbn [List.length]. rewrite IH. reflexivity.
Qed.

(** X2.  The cost of a chain, whatever the service does.  With [M] the
    number of prompts that convert to a string (all of them, unless an
    object with a member [toString] of its own is among them or inside
    an array): between [M] and [3 M] generation requests, and timer
    waits of at most [6000 M] ms in all; so at most three requests and
    6000 ms per prompt, and at least one request for each prompt when
    all convert. *)
Theorem generateFrames_budget initialImagePart prompts (w : World ServiceState) :
  exists frames w' t,
    generateFrames service Number_toString initialImagePart prompts w
      = (Normal frames, w', t) /\
    convertingPrompts Number_toString prompts <= List.length (requestsOf t)
      <= 3 * convertingPrompts Number_toString prompts /\
    (totalWait (schedule t) <= 6000 * N.of_nat (convertingPrompts Number_toString prompts))%N /\
    convertingPrompts Number_toString prompts <= List.length prompts /\
    (Forall (fun prompt => exists text, ToString Number_toString prompt = inr text) prompts ->
     convertingPrompts Number_toString prompts = List.length prompts).
Proof.
  destruct (forFrames_more (List.length prompts) prompts 0 (initialChain initialImagePart) w)
    as (c' & w' & t & frames & Hrun & _ & _ & _ & Hreq & Hwait & _).
  rewrite (convertingFrames_prompts prompts (List.length prompts) 0 eq_refl) in Hreq, Hwait.
  cbn [skipn] in Hreq, Hwait.
  unfold generateFrames. fold (initialChain initialImagePart).
  unfold bind, ret. rewrite Hrun.
  exists (allFrames c'), w', (t ++ []). rewrite app_nil_r.
  split; [reflexivity |]. split; [exact Hreq |]. split; [exact Hwait |].
  split; [apply filter_length_le | apply convertingPrompts_all].
Qed.






(** X5.  The success path of a frame.  When the prompt of the frame
    converts to a string and the first answer to the request made with
    it carries image data, the work on the frame is the progress message
    and that one request; the frame pushes the data of the answer, and
    the next chain image has that data and the MIME type of the
    answer. *)
Theorem frame_success_at_first_attempt prompts i c (w : World ServiceState) text blob :
  generationPromptOf Number_toString prompts i = inr text ->
  let req := frameRequest text (currentImagePart c) in
  attemptResult (fst (service (svc w) req)) = inr blob ->
  exists w',
    frameIteration service Number_toString prompts i c w
      = (Normal (mkChain (base64ToGenerativePart (data blob) (mimeType blob))
                         (allFrames c ++ [data blob])
                         (data blob)),
         w', [EvSetLoadingMessage (frameProgressMessage prompts i); EvGenerateContent req]) /\
    svc w' = snd (service (svc w) req).
Proof.
  intros Hconv req Hres.
  set (a0 := mkAttempt 0 2000 false None (mimeType (inlineData (currentImagePart c)))).
  set (w0 := snd (fst (setLoadingMessage (ServiceState := ServiceState)
                         (frameProgressMessage prompts i) w))).
  pose proof (whileAttempts_success service Number_toString 2 prompts i c a0 w0 (blob := blob)
                Hconv eq_refl ltac:(cbn; unfold maxRetries; lia) Hres) as Hw.
  pose proof (frameIteration_of_while service Number_toString prompts i c w Hw eq_refl) as Hrun.
  eexists. split; [exact Hrun | reflexivity].
Qed.

(** X6.  [generateFrames] writes no state of the component but the
    progress message; with no prompt it does nothing at all, and else it
    leaves the message of the last frame. *)
Theorem generateFrames_keeps_state initialImagePart prompts (w : World ServiceState) :
  exists frames w' t,
    generateFrames service Number_toString initialImagePart prompts w
      = (Normal frames, w', t) /\
    sameButLoadingMessage (app w') (app w) /\
    match prompts with
    | [] => frames = [] /\ w' = w /\ t = []
    | _ :: rest => loadingMessage (app w') = frameProgressMessage prompts (List.length rest)
    end.
Proof.
  destruct (forFrames_more (List.length prompts) prompts 0 (initialChain initialImagePart) w)
    as (c' & w' & t & frames & Hrun & Hall & Hlen & _ & _ & _ & Hsame & Hlast).
  unfold generateFrames. fold (initialChain initialImagePart).
  unfold bind, ret. rewrite Hrun.
  exists (allFrames c'), w', (t ++ []). rewrite app_nil_r.
  split; [reflexivity |]. split; [exact Hsame |].
  destruct prompts as [| p rest]; cbn [List.length] in *.
  - destruct Hlast as (-> & ->). rewrite Hall. destruct frames; [auto | discriminate].
  - exact Hlast.
Qed.

End MoreFacts.

(** ** Concrete runs of the chain *)



(** The first answer carries a picture. *)
Lemma frame_success_at_first_attempt_witness :
  let c := initialChain ex_image in
  let w := mkWorld [imageAnswer "QUFB" "image/webp"] emptyApp in
  let req := frameRequest (js "tilt the head" ++ FRAMING_INSTRUCTION) (currentImagePart c) in
  generationPromptOf Json.literal ex_prompts 0 = inr (js "tilt the head" ++ FRAMING_INSTRUCTION) /\
  attemptResult (fst (scripted (svc w) req))
    = inr (mkInlineData (Some (js "QUFB")) (Some (js "image/webp"))) /\
  exists w',
    frameIteration scripted Json.literal ex_prompts 0 c w
      = (Normal (mkChain (base64ToGenerativePart (Some (js "QUFB")) (Some (js "image/webp")))
                         [Some (js "QUFB")] (Some (js "QUFB"))),
         w', [EvSetLoadingMessage (frameProgressMessage ex_prompts 0); EvGenerateContent req]) /\
    svc w' = [].
Proof.
  intros c w req. split; [reflexivity |]. split; [reflexivity |].
  exact (@frame_success_at_first_attempt Script scripted Json.literal ex_prompts 0 c w
           (js "tilt the head" ++ FRAMING_INSTRUCTION)
           (mkInlineData (Some (js "QUFB")) (Some (js "image/webp"))) eq_refl eq_refl).
Defined.

(** * The handlers, for any service *)

Ltac run_effects :=
  cbv beta iota zeta delta
    [bind ret throw diverge try_catch try_finally emit modifyApp readApp
     wait console_error console_warn
     setUploadedImage setDetectedObjects setAnimationPrompts setGeneratedFrames
     setIsLoading setLoadingMessage setError setSelectedObject setDetectionComplete].

Ltac read_state :=
  cbn [svc app uploadedImage detectedObjects animationPrompts generatedFrames
       isLoading loadingMessage error selectedObject detectionComplete
       requestsOf List.app List.length fst snd] in *.

Section Handlers.

Variable ServiceState : Type.
Variable service : ServiceState -> Request -> (JSError + Response) * ServiceState.
Variable JSON_parse : JSString -> option JSON.
Variable Number_toString : JNumber -> JSString.
Variable Number_isZero : JNumber -> bool.

Lemma detectObjects_any imagePart (w : World ServiceState) :
  exists r t,
    detectObjects service JSON_parse imagePart w
      = (r, mkWorld (snd (service (svc w) (detectRequest imagePart))) (app w), t) /\
    requestsOf t = [detectRequest imagePart] /\
    r <> Diverge.
Proof.
  unfold detectObjects, generateContent. run_effects.
  destruct (service (svc w) (detectRequest imagePart)) as [[e | response] s'].
  - eexists. eexists. repeat split; discriminate.
  - destruct (resp_text response) as [text |].
    + destruct (JSON_parse (parseInput (extractJsonText DETECT_PATTERN text))) as [v |].
      * destruct v; eexists; eexists; (repeat split; discriminate).
      * eexists. eexists. repeat split; discriminate.
    + eexists. eexists. repeat split; discriminate.
Qed.

Lemma generatePrompts_any prominentObjectName imagePart (w : World ServiceState) :
  exists r s' t,
    generatePrompts service JSON_parse Number_toString prominentObjectName imagePart w
      = (r, mkWorld s' (app w), t) /\
    List.length (requestsOf t) <= 1 /\
    match r with
    | Normal prompts => prompts <> []
    | Throw _ => True
    | Diverge => False
    end.
Proof.
  unfold generatePrompts, generateContent.
  destruct (templateOf Number_toString prominentObjectName) as [typeError | name].
  { exists (Throw typeError), (svc w), []. destruct w. repeat split. cbn. lia. }
  run_effects.
  destruct (service (svc w) (promptsRequest name imagePart)) as [[e | response] s'].
  - eexists. eexists. eexists. repeat split. cbn. lia.
  - destruct (resp_text response) as [text |].
    + destruct (JSON_parse (parseInput (extractJsonText PROMPTS_PATTERN text))) as [v |].
      * destruct v as [| | | | [| p ps] |]; eexists; eexists; eexists;
          (repeat split; try discriminate; cbn; lia).
      * eexists. eexists. eexists. repeat split. cbn. lia.
    + eexists. eexists. eexists. repeat split. cbn. lia.
Qed.

Lemma generateFrames_any initialImagePart prompts (w : World ServiceState) :
  exists frames w' t,
    generateFrames service Number_toString initialImagePart prompts w
      = (Normal frames, w', t) /\
    List.length frames = List.length prompts /\
    sameButLoadingMessage (app w') (app w).
Proof.
  destruct (forFrames_more service Number_toString (List.length prompts) prompts 0
              (initialChain initialImagePart) w)
    as (c' & w' & t & frames & Hrun & Hall & Hlen & _ & _ & _ & Hsame & _).
  unfold generateFrames. fold (initialChain initialImagePart).
  unfold bind, ret. rewrite Hrun.
  exists (allFrames c'), w', (t ++ []). rewrite Hall.
  repeat split; try apply Hsame. exact Hlen.
Qed.

Lemma runObjectDetection_any file (w : World ServiceState) :
  exists w' t,
    runObjectDetection service JSON_parse file w = (Normal tt, w', t) /\
    requestsOf t = [detectRequest (fileToGenerativePart file)] /\
    svc w' = snd (service (svc w) (detectRequest (fileToGenerativePart file))) /\
    isLoading (app w') = false /\
    loadingMessage (app w') = [] /\
    uploadedImage (app w') = uploadedImage (app w) /\
    animationPrompts (app w') = animationPrompts (app w) /\
    generatedFrames (app w') = generatedFrames (app w) /\
    ((exists first rest,
         detectedObjects (app w') = first :: rest /\
         selectedObject (app w') = Some first /\
         detectionComplete (app w') = true /\
         error (app w') = error (app w))
     \/
     (exists msg,
         error (app w') = Some msg /\
         detectedObjects (app w') = detectedObjects (app w) /\
         selectedObject (app w') = selectedObject (app w) /\
         detectionComplete (app w') = detectionComplete (app w))).
Proof.
  unfold runObjectDetection. run_effects.
  match goal with
  | |- context [detectObjects _ _ ?ip ?w0] =>
      destruct (detectObjects_any ip w0) as (r & t & Hrun & Hreq & Hr)
  end.
  rewrite Hrun. read_state.
  destruct r as [[| first rest] | e |]; [| | | congruence];
    eexists; eexists; (split; [reflexivity |]); read_state;
    rewrite ?requestsOf_app, Hreq; read_state;
    repeat (split; [reflexivity |]).
  - right. eexists. repeat split; reflexivity.
  - left. eexists. eexists. repeat split; reflexivity.
  - right. eexists. repeat split; reflexivity.
Qed.

Lemma handleGenerateAnimation_any (w : World ServiceState) :
  exists w' t,
    handleGenerateAnimation service JSON_parse Number_toString Number_isZero w
      = (Normal tt, w', t) /\
    uploadedImage (app w') = uploadedImage (app w) /\
    detectedObjects (app w') = detectedObjects (app w) /\
    selectedObject (app w') = selectedObject (app w) /\
    detectionComplete (app w') = detectionComplete (app w) /\
    ((exists uploaded prompts frames,
         uploadedImage (app w) = Some uploaded /\
         prompts <> [] /\
         List.length frames = List.length prompts /\
         animationPrompts (app w') = JString ORIGINAL_IMAGE_LABEL :: prompts /\
         generatedFrames (app w') = file_base64 (up_file uploaded) :: frames /\
         error (app w') = None /\
         isLoading (app w') = false /\
         loadingMessage (app w') = [])
     \/
     (exists msg,
         error (app w') = Some msg /\
         animationPrompts (app w') = animationPrompts (app w) /\
         generatedFrames (app w') = generatedFrames (app w) /\
         (isLoading (app w') = false \/ isLoading (app w') = isLoading (app w)) /\
         List.length (requestsOf t) <= 1)).
Proof.
  unfold handleGenerateAnimation. run_effects.
  destruct (selectedObject (app w)) as [selected |] eqn:Hsel;
    [destruct (uploadedImage (app w)) as [uploaded |] eqn:Hup;
     [destruct (truthy Number_isZero selected) eqn:Htruthy |] |].
  2-4: eexists; eexists; (split; [reflexivity |]); read_state;
       rewrite ?Hsel, ?Hup; repeat (split; [reflexivity |]);
       right; eexists; repeat split; [right; reflexivity | lia].
  destruct (templateOf Number_toString (nameOf selected)) as [typeError | name].
  { eexists. eexists. split; [reflexivity |]. read_state.
    rewrite ?Hsel, ?Hup. repeat (split; [reflexivity |]).
    right. eexists. repeat split; [left; reflexivity | lia]. }
  run_effects.
  match goal with
  | |- context [generatePrompts _ _ _ ?nm ?ip ?w0] =>
      destruct (generatePrompts_any nm ip w0) as (r & s1 & tp & Hrun & Hreq & Hr)
  end.
  rewrite Hrun. read_state.
  destruct r as [prompts | e |]; [| | contradiction].
  - match goal with
    | |- context [generateFrames _ _ ?ip ?ps0 ?w1] =>
        destruct (generateFrames_any ip ps0 w1)
          as (frames & w2 & t2 & Hframes & Hlen & Hsame)
    end.
    rewrite Hframes.
    destruct Hsame as (Hu & Hd & Hp & Hf & Hl & He & Hs & Hc). read_state.
    eexists. eexists. split; [reflexivity |]. read_state.
    rewrite Hu, Hd, Hs, Hc, Hsel, Hup.
    repeat (split; [reflexivity |]).
    left. exists uploaded, prompts, frames.
    repeat split; try assumption; try reflexivity.
  - eexists. eexists. split; [reflexivity |]. read_state.
    rewrite ?Hsel, ?Hup. repeat (split; [reflexivity |]).
    right. eexists. repeat split; [left; reflexivity |].
    rewrite !requestsOf_app, !length_app. read_state. lia.
Qed.

(** X7.  [runObjectDetection] never throws, whatever the service and
    [JSON.parse] do.  It makes exactly one request, ends with the loading
    flag off and the progress message empty, and leaves the image, the
    prompts and the frames alone.  Either it stores a non-empty list of
    objects, selects the first one and marks the detection complete (the
    error message as it was), or it sets an error message and leaves the
    objects, the selection and the completion flag as they were. *)
Theorem runObjectDetection_outcome file (w : World ServiceState) :
  exists w' t,
    runObjectDetection service JSON_parse file w = (Normal tt, w', t) /\
    requestsOf t = [detectRequest (fileToGenerativePart file)] /\
    svc w' = snd (service (svc w) (detectRequest (fileToGenerativePart file))) /\
    isLoading (app w') = false /\
    loadingMessage (app w') = [] /\
    uploadedImage (app w') = uploadedImage (app w) /\
    animationPrompts (app w') = animationPrompts (app w) /\
    generatedFrames (app w') = generatedFrames (app w) /\
    ((exists first rest,
         detectedObjects (app w') = first :: rest /\
         selectedObject (app w') = Some first /\
         detectionComplete (app w') = true /\
         error (app w') = error (app w))
     \/
     (exists msg,
         error (app w') = Some msg /\
         detectedObjects (app w') = detectedObjects (app w) /\
         selectedObject (app w') = selectedObject (app w) /\
         detectionComplete (app w') = detectionComplete (app w))).
Proof.
  destruct (runObjectDetection_any file w) as (w' & t & Hrun & Hrest).
  exists w', t. split; [exact Hrun | exact Hrest].
Qed.

(** X8.  [handleGenerateAnimation] never throws, and a failed run costs
    nothing of what is on screen.  Either the run ends without an error
    message, the loading flag off, and presents the label and the
    prompts, the original data and one frame per prompt; or it ends with
    an error message, the prompts and frames presented before untouched
    and the loading flag off or as it was, after one request at most.
    The image, the objects, the selection and the completion flag are
    never written. *)
Theorem handleGenerateAnimation_outcome (w : World ServiceState) :
  exists w' t,
    handleGenerateAnimation service JSON_parse Number_toString Number_isZero w
      = (Normal tt, w', t) /\
    uploadedImage (app w') = uploadedImage (app w) /\
    detectedObjects (app w') = detectedObjects (app w) /\
    selectedObject (app w') = selectedObject (app w) /\
    detectionComplete (app w') = detectionComplete (app w) /\
    ((exists uploaded prompts frames,
         uploadedImage (app w) = Some uploaded /\
         prompts <> [] /\
         List.length frames = List.length prompts /\
         animationPrompts (app w') = JString ORIGINAL_IMAGE_LABEL :: prompts /\
         generatedFrames (app w') = file_base64 (up_file uploaded) :: frames /\
         error (app w') = None /\
         isLoading (app w') = false /\
         loadingMessage (app w') = [])
     \/
     (exists msg,
         error (app w') = Some msg /\
         animationPrompts (app w') = animationPrompts (app w) /\
         generatedFrames (app w') = generatedFrames (app w) /\
         (isLoading (app w') = false \/ isLoading (app w') = isLoading (app w)) /\
         List.length (requestsOf t) <= 1)).
Proof.
  destruct (handleGenerateAnimation_any w) as (w' & t & Hrun & Hrest).
  exists w', t. split; [exact Hrun | exact Hrest].
Qed.

(** X9.  Without a selection, with a selection that is falsy, or without
    an image, [handleGenerateAnimation] sets the message that asks for a
    selection and does nothing else: no request is made and no other
    state is written. *)
Theorem handleGenerateAnimation_guard (w : World ServiceState) :
  selectedObject (app w) = None \/
  uploadedImage (app w) = None \/
  (exists selected,
      selectedObject (app w) = Some selected /\ truthy Number_isZero selected = false) ->
  handleGenerateAnimation service JSON_parse Number_toString Number_isZero w
  = (Normal tt,
     mkWorld (svc w)
       (mkApp (uploadedImage (app w)) (detectedObjects (app w)) (animationPrompts (app w))
              (generatedFrames (app w)) (isLoading (app w)) (loadingMessage (app w))
              (Some MSG_SELECT_OBJECT) (selectedObject (app w)) (detectionComplete (app w))),
     []).
Proof.
  intros Hguard. unfold handleGenerateAnimation. run_effects.
  destruct w as [s [up objs prompts frames loading msg err [selected |] done]];
    destruct up as [uploaded |]; read_state; try reflexivity.
  destruct Hguard as [Hnone | [Hnone | (v & [= <-] & Hfalsy)]]; try discriminate.
  rewrite Hfalsy. reflexivity.
Qed.

End Handlers.

(** A selection that is the number zero counts as none. *)
Lemma handleGenerateAnimation_guard_witness :
  let zero := JNum (mkJNumber false [48%N] [] None) in
  let w := mkWorld ex_script_animation
             (mkApp (Some (mkUploaded (js "blob:flickerfy/1") ex_file)) [zero] [] []
                    false [] None (Some zero) true) in
  truthy Json.isZero zero = false /\
  exists w',
    handleGenerateAnimation scripted Json.parse Json.literal Json.isZero w = (Normal tt, w', []) /\
    svc w' = ex_script_animation /\
    error (app w') = Some MSG_SELECT_OBJECT.
Proof.
  intros zero w. split; [reflexivity |].
  eexists. split.
  - exact (@handleGenerateAnimation_guard Script scripted Json.parse Json.literal Json.isZero w
             (or_intror (or_intror (ex_intro _ zero (conj eq_refl eq_refl))))).
  - split; reflexivity.
Defined.

(** * The upload area *)

Ltac run_page :=
  cbv beta iota zeta delta
    [pbind pret ptry_catch pemit readPage modifyPage liftCore withCore
     setIsDragging setIsGeneratingGif setCopiedPromptIndex setGifProgress
     URL_createObjectURL resetState
     bind ret throw emit modifyApp readApp console_error
     setUploadedImage setDetectedObjects setAnimationPrompts setGeneratedFrames
     setIsLoading setLoadingMessage setError setSelectedObject setDetectionComplete].

Ltac read_page :=
  cbn [psvc minted browser page core isDragging isGeneratingGif copiedPromptIndex gifFps
       gifProgress gifWorkerUrl
       svc app uploadedImage detectedObjects animationPrompts generatedFrames
       isLoading loadingMessage error selectedObject detectionComplete
       coreEvents requestsOf List.app List.map List.length fst snd] in *.

Ltac split_refl :=
  repeat match goal with
         | |- _ /\ _ => split; [solve [repeat split] |]
         end.

Section PageFacts.

Variable ServiceState : Type.
Variable service : ServiceState -> Request -> (JSError + Response) * ServiceState.
Variable JSON_parse : JSString -> option JSON.
Variable Number_toString : JNumber -> JSString.
Variable Number_isZero : JNumber -> bool.
Variable createObjectURL : nat -> File -> JSString.
Variable createBlobURL : nat -> list N -> JSString.
Variable BrowserState : Type.
Variable decodeImage : BrowserState -> JSString -> (JSError + N * N) * BrowserState.
Variable getContext : BrowserState -> bool.
Variable browserCall : BrowserState -> BrowserCall -> option JSError * BrowserState.

Lemma coreEvents_app t1 t2 : coreEvents (t1 ++ t2) = coreEvents t1 ++ coreEvents t2.
Proof.
  induction t1 as [| ev t1 IH]; [reflexivity |].
  destruct ev; cbn [coreEvents List.app]; rewrite ?IH; reflexivity.
Qed.

Lemma coreEvents_map t : coreEvents (map PCore t) = t.
Proof.
  induction t as [| ev t IH]; cbn [coreEvents map]; rewrite ?IH; reflexivity.
Qed.

Lemma resetState_run (pw : PageWorld ServiceState BrowserState) :
  resetState pw
  = (Normal tt,
     mkPageWorld (psvc pw) (minted pw) (browser pw)
       (mkPage emptyApp (isDragging (page pw)) false (-1) (gifFps (page pw)) 0
               (gifWorkerUrl (page pw))),
     [PCore (EvSetLoadingMessage [])]).
Proof.
  destruct pw as [s n b [a d g c f pr u]]. reflexivity.
Qed.

Lemma processUploadedFile_any file (pw : PageWorld ServiceState BrowserState) :
  startsWith (file_type file) (js "image/") = true ->
  exists pw' t,
    processUploadedFile service JSON_parse createObjectURL (Some file) pw
      = (Normal tt, pw', t) /\
    requestsOf (coreEvents t) = [detectRequest (fileToGenerativePart file)] /\
    uploadedImage (core (page pw'))
      = Some (mkUploaded (createObjectURL (minted pw) file) file) /\
    animationPrompts (core (page pw')) = [] /\
    generatedFrames (core (page pw')) = [] /\
    isLoading (core (page pw')) = false /\
    loadingMessage (core (page pw')) = [] /\
    isGeneratingGif (page pw') = false /\
    copiedPromptIndex (page pw') = (-1)%Z /\
    gifProgress (page pw') = 0%Z /\
    isDragging (page pw') = isDragging (page pw) /\
    ((exists first rest,
         detectedObjects (core (page pw')) = first :: rest /\
         selectedObject (core (page pw')) = Some first /\
         detectionComplete (core (page pw')) = true /\
         error (core (page pw')) = None)
     \/
     (exists msg,
         error (core (page pw')) = Some msg /\
         detectedObjects (core (page pw')) = [] /\
         selectedObject (core (page pw')) = None /\
         detectionComplete (core (page pw')) = false)).
Proof.
  intros Himage. unfold processUploadedFile. rewrite Himage. cbn [negb].
  unfold pbind at 1. rewrite resetState_run.
  run_page. read_page.
  match goal with
  | |- context [runObjectDetection _ _ file ?w0] =>
      destruct (runObjectDetection_any service JSON_parse file w0)
        as (w' & t & Hrun & Hreq & _ & Hload & Hmsg & Hup & Hpr & Hfr & Hcase)
  end.
  rewrite Hrun. read_page.
  eexists. eexists. split; [reflexivity |]. read_page.
  rewrite coreEvents_map, Hreq, Hload, Hmsg, Hup, Hpr, Hfr.
  repeat (split; [reflexivity |]).
  destruct Hcase as [(first & rest & Hobjs & Hsel & Hdone & Herr)
                    | (msg & Herr & Hobjs & Hsel & Hdone)].
  - left. exists first, rest. rewrite Hobjs, Hsel, Hdone, Herr. repeat split.
  - right. exists msg. rewrite Hobjs, Hsel, Hdone, Herr. repeat split.
Qed.

(** X10.  A file that is missing, or whose type does not start with
    [image/], is refused: [processUploadedFile] sets the message that
    asks for an image and nothing else.  What was on the page stays, and
    no request is made. *)
Theorem processUploadedFile_rejects file (pw : PageWorld ServiceState BrowserState) :
  (forall f, file = Some f -> startsWith (file_type f) (js "image/") = false) ->
  processUploadedFile service JSON_parse createObjectURL file pw
  = (Normal tt,
     mkPageWorld (psvc pw) (minted pw) (browser pw)
       (withCore
          (mkApp (uploadedImage (core (page pw))) (detectedObjects (core (page pw)))
                 (animationPrompts (core (page pw))) (generatedFrames (core (page pw)))
                 (isLoading (core (page pw))) (loadingMessage (core (page pw)))
                 (Some MSG_VALID_IMAGE)
                 (selectedObject (core (page pw))) (detectionComplete (core (page pw))))
          (page pw)),
     []).
Proof.
  intros Hfile. unfold processUploadedFile.
  destruct file as [f |]; [rewrite (Hfile f eq_refl); cbn [negb] |]; reflexivity.
Qed.

(** X11.  An image file is taken in from a clean slate.
    [processUploadedFile] never throws and makes one request, the
    detection request for the file.  Afterwards the page holds the new
    image under the URL just minted, no prompts and no frames, the
    loading flag off, the GIF flags reset; and either a non-empty list of
    objects with the first one selected, the detection complete and no
    error message, or an error message with no objects, no selection and
    the detection not complete.  Nothing of an earlier image is left. *)
Theorem processUploadedFile_valid file (pw : PageWorld ServiceState BrowserState) :
  startsWith (file_type file) (js "image/") = true ->
  exists pw' t,
    processUploadedFile service JSON_parse createObjectURL (Some file) pw
      = (Normal tt, pw', t) /\
    requestsOf (coreEvents t) = [detectRequest (fileToGenerativePart file)] /\
    uploadedImage (core (page pw'))
      = Some (mkUploaded (createObjectURL (minted pw) file) file) /\
    animationPrompts (core (page pw')) = [] /\
    generatedFrames (core (page pw')) = [] /\
    isLoading (core (page pw')) = false /\
    loadingMessage (core (page pw')) = [] /\
    isGeneratingGif (page pw') = false /\
    copiedPromptIndex (page pw') = (-1)%Z /\
    gifProgress (page pw') = 0%Z /\
    isDragging (page pw') = isDragging (page pw) /\
    ((exists first rest,
         detectedObjects (core (page pw')) = first :: rest /\
         selectedObject (core (page pw')) = Some first /\
         detectionComplete (core (page pw')) = true /\
         error (core (page pw')) = None)
     \/
     (exists msg,
         error (core (page pw')) = Some msg /\
         detectedObjects (core (page pw')) = [] /\
         selectedObject (core (page pw')) = None /\
         detectionComplete (core (page pw')) = false)).
Proof.
  intros Himage.
  destruct (processUploadedFile_any file pw Himage) as (pw' & t & Hrun & Hrest).
  exists pw', t. split; [exact Hrun | exact Hrest].
Qed.

(** X12.  While the page is loading the drop area is inert: a drop only
    takes the highlight off, whatever files it carries, and a drag over
    the area does not put the highlight on.  No file is processed and no
    request is made. *)
Theorem drop_area_inert_while_loading files (pw : PageWorld ServiceState BrowserState) :
  isLoading (core (page pw)) = true ->
  handleDrop service JSON_parse createObjectURL files pw
  = (Normal tt,
     mkPageWorld (psvc pw) (minted pw) (browser pw)
       (mkPage (core (page pw)) false (isGeneratingGif (page pw))
               (copiedPromptIndex (page pw)) (gifFps (page pw)) (gifProgress (page pw))
               (gifWorkerUrl (page pw))),
     [PPreventDefault; PStopPropagation]) /\
  handleDragOver pw = (Normal tt, pw, [PPreventDefault; PStopPropagation]).
Proof.
  intros Hloading. unfold handleDrop, handleDragOver. run_page.
  rewrite Hloading. destruct pw as [s n b st]. split; reflexivity.
Qed.

(** ** [handleDownloadGif] *)

Lemma startLoads_run frames (pw : PageWorld ServiceState BrowserState) :
  startLoads frames pw = (Normal tt, pw, map (fun base64 => PLoadImage (pngDataUrl base64)) frames).
Proof.
  induction frames as [| base64 rest IH]; [reflexivity |].
  cbn [startLoads map]. unfold pbind, pemit. rewrite IH. reflexivity.
Qed.

Lemma browserCalls_app t1 t2 : browserCalls (t1 ++ t2) = browserCalls t1 ++ browserCalls t2.
Proof.
  induction t1 as [| ev t1 IH]; [reflexivity |].
  destruct ev; cbn [browserCalls List.app]; rewrite ?IH; reflexivity.
Qed.

Lemma browserCalls_loads frames :
  browserCalls (map (fun base64 => PLoadImage (pngDataUrl base64)) frames) = [].
Proof. induction frames as [| base64 rest IH]; [reflexivity | exact IH]. Qed.

Lemma coreEvents_loads frames :
  coreEvents (map (fun base64 => PLoadImage (pngDataUrl base64)) frames) = [].
Proof. induction frames as [| base64 rest IH]; [reflexivity | exact IH]. Qed.

Lemma awaitLoads_any frames : forall (pw : PageWorld ServiceState BrowserState),
  exists r b,
    awaitLoads decodeImage frames pw
      = (r, mkPageWorld (psvc pw) (minted pw) b (page pw), []) /\
    match r with
    | Normal imageElements => map img_src imageElements = map pngDataUrl frames
    | Throw _ => True
    | Diverge => False
    end.
Proof.
  induction frames as [| base64 rest IH]; intros pw.
  - exists (Normal []), (browser pw). destruct pw. split; reflexivity.
  - cbn [awaitLoads]. unfold pbind at 1.
    destruct (decodeImage (browser pw) (pngDataUrl base64)) as [[e | [width height]] b1].
    + exists (Throw e), b1. split; [reflexivity | exact I].
    + match goal with
      | |- context [pbind (awaitLoads _ rest) _ ?pw1] =>
          destruct (IH pw1) as (r & b2 & Hrun & Hr)
      end.
      unfold pbind. rewrite Hrun. read_page.
      destruct r as [imgs | e |]; [| | contradiction].
      * eexists. exists b2. split; [reflexivity |]. cbn [map img_src]. rewrite Hr. reflexivity.
      * exists (Throw e), b2. split; [reflexivity | exact I].
Qed.

Lemma call_any c (pw : PageWorld ServiceState BrowserState) :
  exists r b,
    call browserCall c pw = (r, mkPageWorld (psvc pw) (minted pw) b (page pw), [PBrowser c]) /\
    (r = Normal tt \/ exists e, r = Throw e).
Proof.
  unfold call. destruct (browserCall (browser pw) c) as [[e |] b].
  - exists (Throw e), b. split; [reflexivity | right; eauto].
  - exists (Normal tt), b. split; [reflexivity | left; reflexivity].
Qed.

Lemma addFrames_any imageElements width height frameDelay :
  forall (pw : PageWorld ServiceState BrowserState),
  exists r b t,
    addFrames browserCall imageElements width height frameDelay pw
      = (r, mkPageWorld (psvc pw) (minted pw) b (page pw), t) /\
    coreEvents t = [] /\
    match r with
    | Normal _ =>
        browserCalls t
        = flat_map (fun img => [CanvasDrawImage img 0 0 width height;
                                GifAddFrame true frameDelay]) imageElements
    | Throw _ => True
    | Diverge => False
    end.
Proof.
  induction imageElements as [| img rest IH]; intros pw.
  - exists (Normal tt), (browser pw), []. destruct pw. repeat split.
  - cbn [addFrames]. unfold pbind at 1.
    destruct (call_any (CanvasDrawImage img 0 0 width height) pw)
      as (r1 & b1 & Hdraw & [-> | (e & ->)]); rewrite Hdraw.
    2: { exists (Throw e), b1. eexists. repeat split. }
    unfold pbind at 1.
    match goal with
    | |- context [call _ (GifAddFrame _ _) ?pw1] =>
        destruct (call_any (GifAddFrame true frameDelay) pw1)
          as (r2 & b2 & Hadd & [-> | (e & ->)]); rewrite Hadd
    end.
    2: { exists (Throw e), b2. eexists. repeat split. }
    read_page.
    match goal with
    | |- context [addFrames _ rest _ _ _ ?pw2] =>
        destruct (IH pw2) as (r & b3 & t & Hrest & Hcore & Hr)
    end.
    rewrite Hrest. read_page.
    exists r, b3. eexists. split; [reflexivity |].
    cbn [coreEvents browserCalls List.app flat_map]. split; [exact Hcore |].
    destruct r as [[] | e |]; [| exact I | contradiction].
    rewrite Hr. reflexivity.
Qed.

(** The block of [handleDownloadGif] that feeds the encoder. *)
Ltac quiet_trace H :=
  repeat (progress cbn [coreEvents requestsOf List.app] || rewrite coreEvents_app
          || rewrite coreEvents_loads || rewrite H).

Lemma encoding_any workerScript firstImage rest fps
    (pw : PageWorld ServiceState BrowserState) :
  exists r b t,
    pbind (canvas_getContext getContext)
      (fun ctx : bool =>
         if negb ctx then
           pthrow (mkError (js "Could not create canvas context to generate GIF."))
         else
           pbind (call browserCall
                    (GifNew 2 10 workerScript (naturalWidth firstImage)
                            (naturalHeight firstImage)))
             (fun _ =>
                pbind (addFrames browserCall (firstImage :: rest) (naturalWidth firstImage)
                         (naturalHeight firstImage) (mkQuotient 1000 fps))
                  (fun _ =>
                     pbind (call browserCall (GifOn (js "progress")))
                       (fun _ =>
                          pbind (call browserCall (GifOn (js "finished")))
                            (fun _ => call browserCall GifRender))))) pw
    = (r, mkPageWorld (psvc pw) (minted pw) b (page pw), t) /\
    coreEvents t = [] /\
    match r with
    | Normal _ =>
        browserCalls t
        = GifNew 2 10 workerScript (naturalWidth firstImage) (naturalHeight firstImage)
          :: flat_map (fun img =>
                         [CanvasDrawImage img 0 0 (naturalWidth firstImage)
                                          (naturalHeight firstImage);
                          GifAddFrame true (mkQuotient 1000 fps)])
                      (firstImage :: rest)
          ++ [GifOn (js "progress"); GifOn (js "finished"); GifRender]
    | Throw _ => True
    | Diverge => False
    end.
Proof.
  unfold pbind at 1. unfold canvas_getContext.
  destruct (getContext (browser pw)); cbn [negb].
  2: { exists (Throw (mkError (js "Could not create canvas context to generate GIF."))),
         (browser pw), [].
       destruct pw. repeat split. }
  unfold pbind at 1.
  match goal with
  | |- context [call _ ?c pw] =>
      destruct (call_any c pw) as (r1 & b1 & Hnew & [-> | (e & ->)]); rewrite Hnew
  end.
  2: { exists (Throw e), b1. eexists. repeat split. }
  unfold pbind at 1.
  match goal with
  | |- context [addFrames _ ?imgs ?w ?h ?d ?pw1] =>
      destruct (addFrames_any imgs w h d pw1) as (r2 & b2 & t2 & Hadd & Hcore & Hr2)
  end.
  rewrite Hadd. read_page.
  destruct r2 as [[] | e |]; [| | contradiction].
  2: { exists (Throw e), b2. eexists. split; [reflexivity |].
       quiet_trace Hcore. repeat split. }
  unfold pbind at 1.
  match goal with
  | |- context [call _ (GifOn (js "progress")) ?pw2] =>
      destruct (call_any (GifOn (js "progress")) pw2) as (r3 & b3 & Hon1 & [-> | (e & ->)]);
      rewrite Hon1
  end.
  2: { exists (Throw e), b3. eexists. split; [reflexivity |].
       quiet_trace Hcore. repeat split. }
  unfold pbind at 1.
  match goal with
  | |- context [call _ (GifOn (js "finished")) ?pw3] =>
      destruct (call_any (GifOn (js "finished")) pw3) as (r4 & b4 & Hon2 & [-> | (e & ->)]);
      rewrite Hon2
  end.
  2: { exists (Throw e), b4. eexists. split; [reflexivity |].
       quiet_trace Hcore. repeat split. }
  match goal with
  | |- context [call _ GifRender ?pw4] =>
      destruct (call_any GifRender pw4) as (r5 & b5 & Hrender & Hr5); rewrite Hrender
  end.
  read_page. exists r5, b5. eexists. split; [reflexivity |].
  quiet_trace Hcore. split; [reflexivity |].
  destruct Hr5 as [-> | (e & ->)]; [| exact I].
  repeat (progress cbn [browserCalls List.app] || rewrite browserCalls_app).
  rewrite Hr2. reflexivity.
Qed.

Lemma handleDownloadGif_any (pw : PageWorld ServiceState BrowserState) :
  exists pw' t,
    handleDownloadGif decodeImage getContext browserCall pw = (Normal tt, pw', t) /\
    psvc pw' = psvc pw /\
    minted pw' = minted pw /\
    sameButError (core (page pw')) (core (page pw)) /\
    requestsOf (coreEvents t) = [] /\
    isDragging (page pw') = isDragging (page pw) /\
    copiedPromptIndex (page pw') = copiedPromptIndex (page pw) /\
    gifFps (page pw') = gifFps (page pw) /\
    gifWorkerUrl (page pw') = gifWorkerUrl (page pw) /\
    ((pw' = pw /\ t = [] /\
      (isGeneratingGif (page pw) = true \/ generatedFrames (core (page pw)) = []))
     \/
     (isGeneratingGif (page pw) = false /\
      isGeneratingGif (page pw') = true /\
      gifProgress (page pw') = 0%Z /\
      error (core (page pw')) = error (core (page pw)) /\
      exists workerScript firstImage rest,
        gifWorkerUrl (page pw) = Some workerScript /\
        map img_src (firstImage :: rest) = map pngDataUrl (generatedFrames (core (page pw))) /\
        browserCalls t
        = GifNew 2 10 workerScript (naturalWidth firstImage) (naturalHeight firstImage)
          :: flat_map (fun img =>
                         [CanvasDrawImage img 0 0 (naturalWidth firstImage)
                                          (naturalHeight firstImage);
                          GifAddFrame true (mkQuotient 1000 (gifFps (page pw)))])
                      (firstImage :: rest)
          ++ [GifOn (js "progress"); GifOn (js "finished"); GifRender])
     \/
     (isGeneratingGif (page pw) = false /\
      isGeneratingGif (page pw') = false /\
      ((error (core (page pw')) = Some MSG_GIF_LOADING /\
        gifProgress (page pw') = gifProgress (page pw) /\
        browserCalls t = [])
       \/
       (error (core (page pw')) = Some MSG_GIF_FAILED /\
        gifProgress (page pw') = 0%Z)))).
Proof.
  destruct pw as [s n b [[up objs prompts frames loading msg err sel done] drag busy copied
                         fps progress worker]].
  unfold handleDownloadGif. unfold pbind at 1. unfold readPage. read_page.
  destruct busy.
  { eexists. eexists. cbn [orb]. split; [reflexivity |]. split_refl. left. auto. }
  destruct frames as [| frame frames].
  { eexists. eexists. cbn [orb List.length Nat.eqb]. split; [reflexivity |]. split_refl.
    left. auto. }
  cbn [orb List.length Nat.eqb].
  destruct worker as [[| ch url] |].
  1, 3: run_page; read_page; eexists; eexists; (split; [reflexivity |]); read_page;
    split_refl; right; right; split_refl; left; repeat split.
  unfold pbind at 1. unfold setIsGeneratingGif at 1. unfold modifyPage at 1.
  unfold pbind at 1. unfold setGifProgress at 1. unfold modifyPage at 1.
  read_page. unfold ptry_catch. unfold pbind at 1. rewrite startLoads_run.
  unfold pbind at 1.
  match goal with
  | |- context [awaitLoads _ _ ?pw1] =>
      destruct (awaitLoads_any (frame :: frames) pw1) as (r & b1 & Hload & Hr)
  end.
  rewrite Hload. read_page.
  destruct r as [[| firstImage rest] | e |]; [discriminate Hr | | | contradiction].
  - match goal with
    | |- context [pbind (canvas_getContext _) _ ?pw2] =>
        destruct (encoding_any (ch :: url) firstImage rest fps pw2)
          as (r2 & b2 & t2 & Henc & Hcore & Hr2)
    end.
    rewrite Henc. read_page.
    destruct r2 as [[] | e |]; [| | contradiction].
    + eexists. eexists. split; [reflexivity |]. read_page.
      quiet_trace Hcore.
      split_refl. right. left. split_refl.
      exists (ch :: url), firstImage, rest. split_refl. split; [exact Hr |].
      repeat (progress cbn [browserCalls List.app] || rewrite browserCalls_app
              || rewrite browserCalls_loads).
      rewrite Hr2. reflexivity.
    + run_page. read_page. eexists. eexists. split; [reflexivity |]. read_page.
      quiet_trace Hcore.
      split_refl. right. right. split_refl. right. split; reflexivity.
  - run_page. read_page. eexists. eexists. split; [reflexivity |]. read_page.
    quiet_trace I.
    split_refl. right. right. split_refl. right. split; reflexivity.
Qed.

(** X17.  [handleDownloadGif] does nothing at all while a GIF is being
    generated, and when there are no frames: no state is written, nothing
    is loaded and the encoder is not touched. *)
Theorem handleDownloadGif_guard (pw : PageWorld ServiceState BrowserState) :
  isGeneratingGif (page pw) = true \/ generatedFrames (core (page pw)) = [] ->
  handleDownloadGif decodeImage getContext browserCall pw = (Normal tt, pw, []).
Proof.
  intros Hguard. unfold handleDownloadGif. unfold pbind at 1. unfold readPage.
  destruct Hguard as [-> | ->]; [reflexivity |].
  rewrite orb_true_r. reflexivity.
Qed.

(** X18.  [handleDownloadGif] never throws, whatever the browser does,
    and it leaves the busy flag on only if the encoder was started.  It
    writes nothing of the state of the pipeline but the error message,
    and makes no request.  A run is one of three: it is held back by the
    guard and does nothing; or the flag is on, the progress at 0, the
    error message as it was, and the calls into the encoder are: a new
    encoder of the size of the first image, for every frame in order a
    draw and an added frame with the delay [1000 / gifFps], the two
    callbacks, and the render; or the flag is off and an error message is
    set (the components are missing and the encoder is untouched, or the
    processing failed and the progress is back at 0). *)
Theorem handleDownloadGif_outcome (pw : PageWorld ServiceState BrowserState) :
  exists pw' t,
    handleDownloadGif decodeImage getContext browserCall pw = (Normal tt, pw', t) /\
    psvc pw' = psvc pw /\
    minted pw' = minted pw /\
    sameButError (core (page pw')) (core (page pw)) /\
    requestsOf (coreEvents t) = [] /\
    isDragging (page pw') = isDragging (page pw) /\
    copiedPromptIndex (page pw') = copiedPromptIndex (page pw) /\
    gifFps (page pw') = gifFps (page pw) /\
    gifWorkerUrl (page pw') = gifWorkerUrl (page pw) /\
    ((pw' = pw /\ t = [] /\
      (isGeneratingGif (page pw) = true \/ generatedFrames (core (page pw)) = []))
     \/
     (isGeneratingGif (page pw) = false /\
      isGeneratingGif (page pw') = true /\
      gifProgress (page pw') = 0%Z /\
      error (core (page pw')) = error (core (page pw)) /\
      exists workerScript firstImage rest,
        gifWorkerUrl (page pw) = Some workerScript /\
        map img_src (firstImage :: rest) = map pngDataUrl (generatedFrames (core (page pw))) /\
        browserCalls t
        = GifNew 2 10 workerScript (naturalWidth firstImage) (naturalHeight firstImage)
          :: flat_map (fun img =>
                         [CanvasDrawImage img 0 0 (naturalWidth firstImage)
                                          (naturalHeight firstImage);
                          GifAddFrame true (mkQuotient 1000 (gifFps (page pw)))])
                      (firstImage :: rest)
          ++ [GifOn (js "progress"); GifOn (js "finished"); GifRender])
     \/
     (isGeneratingGif (page pw) = false /\
      isGeneratingGif (page pw') = false /\
      ((error (core (page pw')) = Some MSG_GIF_LOADING /\
        gifProgress (page pw') = gifProgress (page pw) /\
        browserCalls t = [])
       \/
       (error (core (page pw')) = Some MSG_GIF_FAILED /\
        gifProgress (page pw') = 0%Z)))).
Proof.
  destruct (handleDownloadGif_any pw) as (pw' & t & Hrun & Hrest).
  exists pw', t. split; [exact Hrun | exact Hrest].
Qed.

Lemma awaitLoads_ok frames : forall (pw : PageWorld ServiceState BrowserState),
  (forall b src, exists size, fst (decodeImage b src) = inr size) ->
  exists imageElements b,
    awaitLoads decodeImage frames pw
      = (Normal imageElements, mkPageWorld (psvc pw) (minted pw) b (page pw), []) /\
    List.length imageElements = List.length frames.
Proof.
  intros pw Hdecode. revert pw.
  induction frames as [| base64 rest IH]; intros pw.
  - exists [], (browser pw). destruct pw. split; reflexivity.
  - cbn [awaitLoads]. unfold pbind at 1.
    destruct (Hdecode (browser pw) (pngDataUrl base64)) as ([width height] & Hsize).
    destruct (decodeImage (browser pw) (pngDataUrl base64)) as [answer b1].
    cbn [fst] in Hsize. subst answer.
    match goal with
    | |- context [pbind (awaitLoads _ rest) _ ?pw1] =>
        destruct (IH pw1) as (imgs & b2 & Hrun & Hlen)
    end.
    unfold pbind. rewrite Hrun. read_page.
    eexists. exists b2. split; [reflexivity |]. cbn [List.length]. rewrite Hlen. reflexivity.
Qed.

Lemma addFrames_ok imageElements width height frameDelay :
  (forall b c, fst (browserCall b c) = None) ->
  forall (pw : PageWorld ServiceState BrowserState),
  exists b t,
    addFrames browserCall imageElements width height frameDelay pw
      = (Normal tt, mkPageWorld (psvc pw) (minted pw) b (page pw), t).
Proof.
  intros Hcalls. induction imageElements as [| img rest IH]; intros pw.
  - exists (browser pw), []. destruct pw. reflexivity.
  - cbn [addFrames]. unfold pbind at 1. unfold call at 1.
    pose proof (Hcalls (browser pw) (CanvasDrawImage img 0 0 width height)) as H1.
    destruct (browserCall (browser pw) (CanvasDrawImage img 0 0 width height)) as [r1 b1].
    cbn [fst] in H1. subst r1.
    unfold pbind at 1. unfold call at 1. read_page.
    pose proof (Hcalls b1 (GifAddFrame true frameDelay)) as H2.
    destruct (browserCall b1 (GifAddFrame true frameDelay)) as [r2 b2].
    cbn [fst] in H2. subst r2. read_page.
    match goal with
    | |- context [addFrames _ rest _ _ _ ?pw2] => destruct (IH pw2) as (b3 & t & Hrest)
    end.
    rewrite Hrest. eexists. eexists. reflexivity.
Qed.

(** X19.  With the worker script in place, frames on the page and no
    GIF under way, in a browser that decodes every image, has a canvas
    context and throws in no call, [handleDownloadGif] starts the
    encoder: one frame is added per generated frame, the render is the
    last call, no error message is set, and the busy flag stays on until
    the encoder calls back. *)
Theorem handleDownloadGif_starts_encoder (pw : PageWorld ServiceState BrowserState)
    workerScript :
  isGeneratingGif (page pw) = false ->
  generatedFrames (core (page pw)) <> [] ->
  gifWorkerUrl (page pw) = Some workerScript ->
  workerScript <> [] ->
  (forall b src, exists size, fst (decodeImage b src) = inr size) ->
  (forall b, getContext b = true) ->
  (forall b c, fst (browserCall b c) = None) ->
  exists pw' t,
    handleDownloadGif decodeImage getContext browserCall pw = (Normal tt, pw', t) /\
    isGeneratingGif (page pw') = true /\
    gifProgress (page pw') = 0%Z /\
    error (core (page pw')) = error (core (page pw)) /\
    List.length (filter (fun c => match c with GifAddFrame _ _ => true | _ => false end)
                        (browserCalls t))
    = List.length (generatedFrames (core (page pw))) /\
    last (browserCalls t) (GifOn []) = GifRender.
Proof.
  intros Hbusy Hframes Hurl Hscript Hdecode Hctx Hcalls.
  destruct (handleDownloadGif_any pw)
    as (pw' & t & Hrun & _ & _ & _ & _ & _ & _ & _ & _ & Hcase).
  exists pw', t. split; [exact Hrun |].
  destruct Hcase as [(-> & -> & [Hb | Hf]) | [Hstarted | Hfailed]]; [congruence.. | |].
  - destruct Hstarted as (_ & Hon & Hprogress & Herr & url & firstImage & rest & _ & Hsrc
                          & Hbrowser).
    split_refl. repeat (split; [assumption |]).
    rewrite Hbrowser. split.
    + apply (f_equal (@List.length _)) in Hsrc. rewrite !length_map in Hsrc.
      rewrite <- Hsrc. clear.
      cbn [filter]. rewrite filter_app. cbn [filter List.app].
      rewrite app_nil_r.
      generalize (firstImage :: rest) as imgs.
      induction imgs as [| img imgs IH]; [reflexivity |].
      cbn [flat_map List.app filter List.length]. rewrite IH. reflexivity.
    + match goal with
      | |- last (?new :: ?adds ++ _) _ = _ =>
          replace (new :: adds ++ [GifOn (js "progress"); GifOn (js "finished"); GifRender])
            with ((new :: adds ++ [GifOn (js "progress"); GifOn (js "finished")])
                    ++ [GifRender])
            by (cbn [List.app]; rewrite <- app_assoc; reflexivity)
      end.
      apply last_last.
  - exfalso. revert Hrun.
    unfold handleDownloadGif. unfold pbind at 1. unfold readPage. rewrite Hbusy, Hurl.
    destruct (generatedFrames (core (page pw))) as [| frame frames] eqn:Hgen; [congruence |].
    destruct workerScript as [| ch url]; [congruence |].
    cbn [orb List.length Nat.eqb].
    unfold pbind at 1. unfold setIsGeneratingGif at 1. unfold modifyPage at 1.
    unfold pbind at 1. unfold setGifProgress at 1. unfold modifyPage at 1.
    read_page. unfold ptry_catch. unfold pbind at 1. rewrite startLoads_run.
    unfold pbind at 1.
    match goal with
    | |- context [awaitLoads _ _ ?pw1] =>
        destruct (awaitLoads_ok (frame :: frames) pw1 Hdecode) as (imgs & b1 & Hload & Hlen)
    end.
    rewrite Hload. read_page.
    destruct imgs as [| firstImage rest]; [discriminate Hlen |].
    unfold pbind at 1. unfold canvas_getContext. read_page. rewrite Hctx. cbn [negb].
    unfold pbind at 1. unfold call at 1. read_page.
    match goal with
    | |- context [browserCall ?b ?c] =>
        pose proof (Hcalls b c) as H1; destruct (browserCall b c) as [r1 b2];
        cbn [fst] in H1; subst r1
    end.
    unfold pbind at 1.
    match goal with
    | |- context [addFrames _ ?l ?w ?h ?d ?pw2] =>
        destruct (addFrames_ok l w h d Hcalls pw2) as (b3 & t3 & Hadd)
    end.
    rewrite Hadd. read_page.
    unfold pbind at 1. unfold call at 1. read_page.
    match goal with
    | |- context [browserCall ?b ?c] =>
        pose proof (Hcalls b c) as H2; destruct (browserCall b c) as [r2 b4];
        cbn [fst] in H2; subst r2
    end.
    unfold pbind at 1. unfold call at 1. read_page.
    match goal with
    | |- context [browserCall ?b ?c] =>
        pose proof (Hcalls b c) as H3; destruct (browserCall b c) as [r3 b5];
        cbn [fst] in H3; subst r3
    end.
    unfold call. read_page.
    match goal with
    | |- context [browserCall ?b ?c] =>
        pose proof (Hcalls b c) as H4; destruct (browserCall b c) as [r4 b6];
        cbn [fst] in H4; subst r4
    end.
    read_page. intros [= <- _]. destruct Hfailed as (_ & Hoff & _). discriminate Hoff.
Qed.

(** ** The page stays consistent *)

Lemma consistent_withCore a (st : PageState) d g c f pr u :
  pageConsistent (withCore a st) -> pageConsistent (mkPage a d g c f pr u).
Proof. exact (fun H => H). Qed.

Lemma processUploadedFile_consistent file (pw : PageWorld ServiceState BrowserState) :
  pageConsistent (page pw) ->
  exists pw' t,
    processUploadedFile service JSON_parse createObjectURL (Some file) pw
      = (Normal tt, pw', t) /\
    pageConsistent (page pw').
Proof.
  intros Hinv.
  destruct (startsWith (file_type file) (js "image/")) eqn:Himage.
  - destruct (processUploadedFile_any file pw Himage)
      as (pw' & t & Hrun & _ & Hup & Hpr & Hfr & Hload & _ & _ & _ & _ & _ & Hcase).
    exists pw', t. split; [exact Hrun |].
    unfold pageConsistent. rewrite Hup, Hpr, Hfr, Hload.
    repeat split; try discriminate.
    + destruct Hcase as [(first & rest & -> & _) | (msg & _ & _ & _ & Hdone)];
        [discriminate | congruence].
    + destruct Hcase as [(first & rest & -> & -> & _) | (msg & _ & _ & _ & Hdone)];
        [exists first; split; [reflexivity | left; reflexivity] | congruence].
  - unfold processUploadedFile. rewrite Himage. cbn [negb].
    eexists. eexists. split; [reflexivity |]. exact Hinv.
Qed.

Lemma perform_consistent a (pw : PageWorld ServiceState BrowserState) :
  pageConsistent (page pw) ->
  exists pw' t,
    perform service JSON_parse Number_toString Number_isZero createObjectURL createBlobURL
      decodeImage getContext browserCall a pw
      = (Normal tt, pw', t) /\
    pageConsistent (page pw').
Proof.
  intros Hinv. destruct a as [files | | | files | | i | | | blob]; cbn [perform].
  - destruct files as [| file files]; cbn [handleImageUpload].
    + eexists. eexists. split; [reflexivity | exact Hinv].
    + apply processUploadedFile_consistent. exact Hinv.
  - unfold handleDragOver. run_page.
    destruct (negb (isLoading (core (page pw))));
      eexists; eexists; (split; [reflexivity | exact Hinv]).
  - eexists. eexists. split; [reflexivity | exact Hinv].
  - unfold handleDrop. unfold pbind at 1. unfold readPage.
    unfold pbind at 1. unfold pemit at 1. unfold pbind at 1. unfold pemit at 1.
    unfold pbind at 1. unfold setIsDragging, modifyPage.
    destruct Hinv as (Hload & Hrest). rewrite Hload.
    destruct files as [| file files].
    + eexists. eexists. split; [reflexivity |]. split; assumption.
    + match goal with
      | |- context [processUploadedFile _ _ _ _ ?pw0] =>
          destruct (processUploadedFile_consistent file pw0) as (pw' & t & Hrun & Hinv');
          [split; assumption |]
      end.
      rewrite Hrun. eexists. eexists. split; [reflexivity | exact Hinv'].
  - rewrite resetState_run. eexists. eexists. split; [reflexivity |].
    unfold pageConsistent. read_page. cbn. repeat split; congruence.
  - unfold clickObject. run_page.
    destruct (nth_error (detectedObjects (core (page pw))) i) as [obj |] eqn:Hobj.
    + eexists. eexists. split; [reflexivity |].
      destruct Hinv as (Hload & Hdone & Hlen & Hframes).
      unfold pageConsistent. read_page. repeat split; try assumption; try apply Hdone;
        try assumption.
      exists obj. split; [reflexivity |]. eapply nth_error_In. exact Hobj.
    + eexists. eexists. split; [reflexivity | exact Hinv].
  - unfold liftCore.
    destruct (handleGenerateAnimation_any service JSON_parse Number_toString Number_isZero
                (mkWorld (psvc pw) (core (page pw))))
      as (w' & t & Hrun & Hup & Hobjs & Hsel & Hdone & Hcase).
    rewrite Hrun. eexists. eexists. split; [reflexivity |]. read_page.
    destruct Hinv as (Hload & Hcomplete & Hlen & Hframes).
    unfold pageConsistent, withCore. read_page.
    rewrite Hup, Hobjs, Hsel, Hdone.
    destruct Hcase as [(uploaded & prompts & frames & Hsome & _ & Hn & -> & -> & _ & -> & _)
                      | (msg & _ & -> & -> & Hl & _)].
    + repeat split; try apply Hcomplete; try assumption.
      * cbn [List.length]. rewrite Hn. reflexivity.
      * rewrite Hsome. discriminate.
    + repeat split; try apply Hcomplete; try assumption.
      destruct Hl as [-> | ->]; [reflexivity | exact Hload].
  - destruct (handleDownloadGif_any pw) as (pw' & t & Hrun & _ & _ & Hsame & _).
    exists pw', t. split; [exact Hrun |].
    destruct Hsame as (Hu & Hd & Hp & Hf & Hl & _ & Hs & Hc).
    unfold pageConsistent. rewrite Hu, Hd, Hp, Hf, Hl, Hs, Hc. exact Hinv.
  - unfold onGifFinished, URL_createBlobURL. run_page.
    eexists. eexists. split; [reflexivity | exact Hinv].
Qed.

Lemma performAll_consistent actions : forall (pw : PageWorld ServiceState BrowserState),
  pageConsistent (page pw) ->
  exists pw' t,
    performAll service JSON_parse Number_toString Number_isZero createObjectURL createBlobURL
      decodeImage getContext browserCall actions pw
      = (Normal tt, pw', t) /\
    pageConsistent (page pw').
Proof.
  induction actions as [| a rest IH]; intros pw Hinv; cbn [performAll].
  - eexists. eexists. split; [reflexivity | exact Hinv].
  - destruct (perform_consistent a pw Hinv) as (pw1 & t1 & Hrun1 & Hinv1).
    destruct (IH pw1 Hinv1) as (pw2 & t2 & Hrun2 & Hinv2).
    unfold pbind. rewrite Hrun1, Hrun2.
    eexists. eexists. split; [reflexivity | exact Hinv2].
Qed.

(** X13.  Whatever the user does on the fresh page (uploads, drags and
    drops with any files, Start Over, clicks on detected objects,
    Generate Animation, Download as GIF, and the encoder calling back,
    in any order and number, each handler run to its end before the next
    action), whatever the service and the browser answer and
    [JSON.parse] yields: no handler throws, and between two actions the
    page is consistent.  The loading flag is off; when the detection is
    complete there is an uploaded image, at least one detected object,
    and the selection is one of the detected objects; and there are as
    many frames as prompts, with an image whenever there are frames.
    The detected objects, and with them the selection, are whatever the
    service answered: an answer [[null]] gives a page whose one object,
    and selection, is [null]. *)
Theorem page_stays_consistent actions (s : ServiceState) (n : nat) (b : BrowserState) :
  exists pw' t,
    performAll service JSON_parse Number_toString Number_isZero createObjectURL createBlobURL
      decodeImage getContext browserCall actions
      (mkPageWorld s n b initialPage) = (Normal tt, pw', t) /\
    pageConsistent (page pw').
Proof.
  apply performAll_consistent.
  unfold pageConsistent. cbn. repeat split; congruence.
Qed.

End PageFacts.

(** ** Concrete runs of the upload area *)

(** A PDF is refused, and the frames on the page stay. *)
Lemma processUploadedFile_rejects_witness :
  let pdf := mkFile (js "application/pdf") (Some (js "JVBERi0=")) in
  let shown := mkApp (Some (mkUploaded (js "blob:flickerfy/0") ex_file)) [ex_cat]
                     [JString (js "Original Image"); JString (js "blink")]
                     [Some (js "T1JJRw=="); Some (js "QUFB")]
                     false [] None (Some ex_cat) true in
  let pw := mkPageWorld ex_script_animation 1 tt (withCore shown initialPage) in
  startsWith (file_type pdf) (js "image/") = false /\
  exists pw',
    processUploadedFile scripted Json.parse numberedURL (Some pdf) pw = (Normal tt, pw', []) /\
    error (core (page pw')) = Some MSG_VALID_IMAGE /\
    generatedFrames (core (page pw')) = [Some (js "T1JJRw=="); Some (js "QUFB")] /\
    psvc pw' = ex_script_animation.
Proof.
  intros pdf shown pw. split; [reflexivity |].
  eexists. split.
  - apply (processUploadedFile_rejects scripted Json.parse numberedURL (file := Some pdf) pw).
    intros f [= <-]. reflexivity.
  - repeat split; reflexivity.
Defined.

(** A picture of a cat is uploaded and the service lists the cat. *)
Lemma processUploadedFile_valid_witness :
  let pw := mkPageWorld [textAnswer ex_cat_text] 0 tt initialPage in
  startsWith (file_type ex_file) (js "image/") = true /\
  exists pw' t,
    processUploadedFile scripted Json.parse numberedURL (Some ex_file) pw
      = (Normal tt, pw', t) /\
    uploadedImage (core (page pw')) = Some (mkUploaded (js "blob:flickerfy/0") ex_file) /\
    isLoading (core (page pw')) = false.
Proof.
  intros pw. split; [reflexivity |].
  destruct (processUploadedFile_valid scripted Json.parse numberedURL ex_file pw eq_refl)
    as (pw' & t & Hrun & _ & Hup & _ & _ & Hload & _).
  exists pw', t. repeat split; assumption.
Defined.

(** The service answers [[null]]: the detection completes with that one
    object, and it is the selection. *)
Example detection_of_null :
  let pw := mkPageWorld [textAnswer (js "[null]")] 0 tt initialPage in
  let run := processUploadedFile scripted Json.parse numberedURL (Some ex_file) pw in
  fst (fst run) = Normal tt /\
  detectionComplete (core (page (snd (fst run)))) = true /\
  detectedObjects (core (page (snd (fst run)))) = [JNull] /\
  selectedObject (core (page (snd (fst run)))) = Some JNull /\
  error (core (page (snd (fst run)))) = None.
Proof. repeat split. Qed.

(** A drop while the detection is running. *)
Lemma drop_area_inert_while_loading_witness :
  let loading := mkApp None [] [] [] true (js "Analyzing image to find prominent objects...")
                       None None false in
  let pw := mkPageWorld [textAnswer ex_cat_text] 1 tt
              (mkPage loading true false (-1) 10 0 None) in
  isLoading (core (page pw)) = true /\
  handleDrop scripted Json.parse numberedURL [ex_file] pw
  = (Normal tt,
     mkPageWorld [textAnswer ex_cat_text] 1 tt (mkPage loading false false (-1) 10 0 None),
     [PPreventDefault; PStopPropagation]).
Proof.
  intros loading pw. split; [reflexivity |].
  exact (proj1 (drop_area_inert_while_loading scripted Json.parse numberedURL
                  [ex_file] pw eq_refl)).
Defined.

(** * The player *)

Lemma playerStep_shows ev p :
  raisable ev p = true ->
  (exists i, currentFrame p = Some (Z.of_nat i) /\ i < List.length (pl_frames p)) ->
  exists j, currentFrame (playerStep ev p) = Some (Z.of_nat j) /\
            j < List.length (pl_frames (playerStep ev p)).
Proof.
  intros Hev (i & Hi & Hlt).
  destruct ev as [| value | | | frames |]; cbn [playerStep raisable] in *.
  - destruct (isPlaying p); [| exists i; auto].
    cbn [currentFrame pl_frames]. rewrite Hi. unfold nextFrame.
    destruct (Nat.eqb_spec (List.length (pl_frames p)) 0) as [Hz | Hnz]; [lia |].
    exists ((i + 1) mod List.length (pl_frames p)). split.
    + f_equal. rewrite Z.rem_mod_nonneg by lia.
      rewrite Nat2Z.inj_mod, Nat2Z.inj_add. reflexivity.
    + apply Nat.mod_upper_bound. exact Hnz.
  - apply andb_prop in Hev. destruct Hev as (Hlo & Hhi).
    apply Z.leb_le in Hlo. apply Z.ltb_lt in Hhi.
    exists (Z.to_nat value). cbn [currentFrame pl_frames]. split.
    + rewrite Z2Nat.id by exact Hlo. reflexivity.
    + lia.
  - exists i. auto.
  - exists i. auto.
  - discriminate Hev.
  - discriminate Hev.
Qed.

Lemma raisableRun_control ev rest p :
  raisable ev p = true ->
  raisableRun (ev :: rest) p = raisableRun rest (playerStep ev p).
Proof.
  intros Hev. destruct ev; cbn [raisableRun]; rewrite ?Hev; try reflexivity;
    discriminate Hev.
Qed.

Lemma playerRun_shows_bounded n : forall events p,
  List.length events <= n ->
  raisableRun events p = true ->
  (exists i, currentFrame p = Some (Z.of_nat i) /\ i < List.length (pl_frames p)) ->
  exists j, currentFrame (playerRun events p) = Some (Z.of_nat j) /\
            j < List.length (pl_frames (playerRun events p)).
Proof.
  induction n as [| n IH]; intros events p Hlen Hrun Hshown.
  - destruct events; [exact Hshown | cbn in Hlen; lia].
  - destruct events as [| ev rest]; [exact Hshown |].
    cbn [List.length] in Hlen.
    destruct (raisable ev p) eqn:Hev.
    + rewrite (raisableRun_control ev rest p Hev) in Hrun. cbn [playerRun].
      apply IH; [lia | exact Hrun |]. apply playerStep_shows; assumption.
    + destruct ev as [| value | | | frames |]; try discriminate Hev.
      * cbn [raisableRun] in Hrun. rewrite Hev in Hrun. discriminate Hrun.
      * destruct rest as [| ev' rest']; [discriminate Hrun |].
        destruct ev'; try discriminate Hrun.
        cbn [raisableRun] in Hrun. apply andb_prop in Hrun. destruct Hrun as (Hne & Hrest).
        cbn [List.length] in Hlen. cbn [playerRun].
        apply IH; [lia | exact Hrest |].
        exists 0. cbn [playerStep currentFrame pl_frames]. split; [reflexivity |].
        destruct frames; [discriminate Hne | cbn; lia].
      * discriminate Hrun.
Qed.

Lemma playerRun_shows events p :
  raisableRun events p = true ->
  (exists i, currentFrame p = Some (Z.of_nat i) /\ i < List.length (pl_frames p)) ->
  exists j, currentFrame (playerRun events p) = Some (Z.of_nat j) /\
            j < List.length (pl_frames (playerRun events p)).
Proof. apply (playerRun_shows_bounded (n := List.length events)). lia. Qed.

(** X14.  Once the effects have run, the player has a picture to show.
    Mounted with at least one frame, after any run of ticks, scrubber
    moves within the range of the scrubber, presses on play and mute,
    and changes to another non-empty list of frames each followed by the
    effect on [frames], the index [i] on display is in range and
    [frames[i]] is one of the current frames.  The render in between is
    another matter: when the list of frames changes, the component is
    rendered once with the new frames and the index [i] it had, so what
    it shows then is [frames'[i]], which is [undefined] when the new
    list has no more than [i] frames; only the effect after that render
    sets the index to 0. *)
Theorem player_always_shows_a_frame frames events :
  frames <> [] ->
  raisableRun events (mountPlayer frames) = true ->
  exists i d,
    currentFrame (playerRun events (mountPlayer frames)) = Some (Z.of_nat i) /\
    shownFrame (playerRun events (mountPlayer frames)) = Some d /\
    nth_error (pl_frames (playerRun events (mountPlayer frames))) i = Some d /\
    (forall frames',
       shownFrame (playerStep (NewFrames frames') (playerRun events (mountPlayer frames)))
         = nth_error frames' i /\
       (List.length frames' <= i ->
        shownFrame (playerStep (NewFrames frames') (playerRun events (mountPlayer frames)))
          = None) /\
       shownFrame (playerStep FramesEffect
                     (playerStep (NewFrames frames') (playerRun events (mountPlayer frames))))
         = nth_error frames' 0).
Proof.
  intros Hne Hrun.
  destruct (playerRun_shows events (mountPlayer frames) Hrun) as (j & Hj & Hlt).
  { exists 0. split; [reflexivity |]. destruct frames; [congruence | cbn; lia]. }
  assert (Hshow : forall l, (if (Z.of_nat j <? 0)%Z then None
                             else nth_error l (Z.to_nat (Z.of_nat j)))
                            = nth_error l j :> option Payload).
  { intros l. destruct (Z.ltb_spec (Z.of_nat j) 0) as [Hneg | _]; [lia |].
    rewrite Nat2Z.id. reflexivity. }
  destruct (nth_error (pl_frames (playerRun events (mountPlayer frames))) j) as [d |] eqn:Hd.
  - exists j, d. split; [exact Hj |]. split; [| split; [exact Hd |]].
    + unfold shownFrame. rewrite Hj, Hshow. exact Hd.
    + intros frames'. unfold shownFrame. cbn [playerStep currentFrame pl_frames].
      rewrite Hj, Hshow. split; [reflexivity |]. split; [| reflexivity].
      intros Hshort. apply nth_error_None. exact Hshort.
  - apply nth_error_None in Hd. lia.
Qed.

Lemma ticks_playing n : forall p i,
  isPlaying p = true ->
  currentFrame p = Some (Z.of_nat i) ->
  i < List.length (pl_frames p) ->
  playerRun (repeat Advance n) p
  = mkPlayer (pl_frames p) (Some (Z.of_nat ((i + n) mod List.length (pl_frames p))))
             true (isMuted p).
Proof.
  induction n as [| n IH]; intros p i Hplay Hi Hlt.
  - rewrite Nat.add_0_r, Nat.mod_small by exact Hlt.
    destruct p as [frames cur playing muted]. cbn in *. subst. reflexivity.
  - cbn [repeat playerRun playerStep]. rewrite Hplay, Hi. unfold nextFrame.
    destruct (Nat.eqb_spec (List.length (pl_frames p)) 0) as [Hz | Hnz]; [lia |].
    rewrite Z.rem_mod_nonneg by lia.
    replace ((Z.of_nat i + 1) mod Z.of_nat (List.length (pl_frames p)))%Z
      with (Z.of_nat ((i + 1) mod List.length (pl_frames p)))
      by (rewrite Nat2Z.inj_mod, Nat2Z.inj_add; reflexivity).
    match goal with
    | |- playerRun _ ?p1 = _ =>
        rewrite (IH p1 ((i + 1) mod List.length (pl_frames p)) eq_refl eq_refl)
          by (apply Nat.mod_upper_bound; exact Hnz)
    end.
    cbn [pl_frames isMuted]. do 3 f_equal.
    rewrite Nat.Div0.add_mod_idemp_l. f_equal. lia.
Qed.

(** X15.  Playback is a loop, and a move of the scrubber stops it.  On a
    playing player that shows frame [i] of [len] frames, [n] ticks lead
    to frame [(i + n) mod len], so [len] ticks lead back to frame [i];
    the player keeps playing.  After a move of the scrubber the player
    is paused on the frame chosen, and ticks do not move it. *)
Theorem playback_loops p i n value :
  isPlaying p = true ->
  currentFrame p = Some (Z.of_nat i) ->
  i < List.length (pl_frames p) ->
  currentFrame (playerRun (repeat Advance n) p)
    = Some (Z.of_nat ((i + n) mod List.length (pl_frames p))) /\
  currentFrame (playerRun (repeat Advance (List.length (pl_frames p))) p)
    = Some (Z.of_nat i) /\
  isPlaying (playerRun (repeat Advance n) p) = true /\
  playerRun (Scrub value :: repeat Advance n) p
    = mkPlayer (pl_frames p) (Some value) false (isMuted p).
Proof.
  intros Hplay Hi Hlt. repeat split.
  - rewrite (ticks_playing n p Hplay Hi Hlt). reflexivity.
  - rewrite (ticks_playing _ p Hplay Hi Hlt). cbn [currentFrame]. do 2 f_equal.
    rewrite <- Nat.Div0.add_mod_idemp_r, Nat.Div0.mod_same, Nat.add_0_r.
    apply Nat.mod_small. exact Hlt.
  - rewrite (ticks_playing n p Hplay Hi Hlt). reflexivity.
  - cbn [playerRun playerStep].
    induction n as [| n IH]; [reflexivity | exact IH].
Qed.

(** Five frames: a run of the controls with a change to two frames and
    back, and a full turn of the loop. *)
Lemma player_always_shows_a_frame_witness :
  let frames := [Some (js "RjA="); Some (js "RjE="); Some (js "RjI=");
                 Some (js "RjM="); Some (js "RjQ=")] in
  let events := [Advance; Advance; Scrub 4; Advance;
                 NewFrames [Some (js "T1JJRw=="); Some (js "QUFB")]; FramesEffect;
                 Advance; NewFrames frames; FramesEffect;
                 Scrub 4; TogglePlay; Advance; Advance; ToggleMute] in
  frames <> [] /\
  raisableRun events (mountPlayer frames) = true /\
  exists i d,
    currentFrame (playerRun events (mountPlayer frames)) = Some (Z.of_nat i) /\
    shownFrame (playerRun events (mountPlayer frames)) = Some d.
Proof.
  intros frames events. split; [discriminate |]. split; [reflexivity |].
  destruct (@player_always_shows_a_frame frames events) as (i & d & Hi & Hd & _);
    [discriminate | reflexivity |].
  exists i, d. split; assumption.
Defined.

(** The render between a change of the frames and its effect: paused on
    the fifth of five frames, the player is handed two frames, and shows
    none of them until the effect has run. *)
Example player_render_before_effect :
  let frames := [Some (js "RjA="); Some (js "RjE="); Some (js "RjI=");
                 Some (js "RjM="); Some (js "RjQ=")] in
  let shorter := [Some (js "T1JJRw=="); Some (js "QUFB")] in
  let p := playerRun [Scrub 4] (mountPlayer frames) in
  shownFrame p = Some (Some (js "RjQ=")) /\
  shownFrame (playerStep (NewFrames shorter) p) = None /\
  shownFrame (playerStep FramesEffect (playerStep (NewFrames shorter) p))
    = Some (Some (js "T1JJRw==")).
Proof. repeat split. Qed.

Lemma playback_loops_witness :
  let p := mkPlayer [Some (js "RjA="); Some (js "RjE="); Some (js "RjI=")]
                    (Some 2%Z) true false in
  isPlaying p = true /\
  currentFrame p = Some (Z.of_nat 2) /\
  2 < List.length (pl_frames p) /\
  currentFrame (playerRun (repeat Advance 2) p) = Some 1%Z /\
  currentFrame (playerRun (repeat Advance 3) p) = Some 2%Z.
Proof.
  intros p.
  assert (Hlt : 2 < List.length (pl_frames p)) by (cbn; lia).
  destruct (@playback_loops p 2 2 0%Z eq_refl eq_refl Hlt) as (Hn & Hloop & _).
  split; [reflexivity |]. split; [reflexivity |]. split; [exact Hlt |].
  split; [exact Hn | exact Hloop].
Defined.

(** * Downloads *)

Lemma to_uint_nonnil n : Nat.to_uint n <> Decimal.Nil.
Proof.
  rewrite <- (DecimalNat.Unsigned.of_to n) at 1. rewrite DecimalNat.Unsigned.to_of.
  apply DecimalFacts.unorm_nonnil.
Qed.

Lemma js_inj a b : js a = js b -> a = b.
Proof.
  unfold js. intros H.
  rewrite <- (string_of_list_ascii_of_string a), <- (string_of_list_ascii_of_string b).
  f_equal. revert H.
  generalize (list_ascii_of_string a) (list_ascii_of_string b).
  induction l as [| x l IH]; intros [| y l']; cbn [map]; intros H; try discriminate;
    [reflexivity |].
  injection H as Hxy Hrest. f_equal; [| apply IH; exact Hrest].
  rewrite <- (ascii_N_embedding x), <- (ascii_N_embedding y), Hxy. reflexivity.
Qed.

Lemma nat_to_js_inj n m : nat_to_js n = nat_to_js m -> n = m.
Proof.
  unfold nat_to_js. intros H. apply js_inj in H.
  apply DecimalNat.Unsigned.to_uint_inj.
  assert (Hn := NilZero.usu _ (to_uint_nonnil n)).
  assert (Hm := NilZero.usu _ (to_uint_nonnil m)).
  rewrite H in Hn. congruence.
Qed.

Lemma frame_name_inj i j :
  js "frame_" ++ nat_to_js (i + 1) ++ js ".png" = js "frame_" ++ nat_to_js (j + 1) ++ js ".png" ->
  i = j.
Proof.
  intros H. apply app_inv_head in H. apply app_inv_tail in H.
  apply nat_to_js_inj in H. lia.
Qed.

Lemma NoDup_map_inj (A B : Type) (f : A -> B) (l : list A) :
  (forall x y, f x = f y -> x = y) -> NoDup l -> NoDup (map f l).
Proof.
  intros Hinj Hl. induction Hl as [| x l Hnotin Hl IH]; cbn [map]; constructor; [| exact IH].
  intros Hin. apply in_map_iff in Hin. destruct Hin as (y & Hy & Hiny).
  apply Hinj in Hy. subst y. contradiction.
Qed.

Lemma savedAs_app t1 t2 : savedAs (t1 ++ t2) = savedAs t1 ++ savedAs t2.
Proof.
  induction t1 as [| [l | l | l] t1 IH]; cbn [savedAs List.app]; rewrite ?IH; reflexivity.
Qed.

Lemma savedAs_downloadAll frames : forall index,
  savedAs (downloadAll frames index)
  = map (fun k => js "frame_" ++ nat_to_js (k + 1) ++ js ".png")
        (seq index (List.length frames)).
Proof.
  induction frames as [| frame rest IH]; intros index; [reflexivity |].
  cbn [downloadAll List.length seq map]. rewrite savedAs_app, IH. reflexivity.
Qed.

(** X16.  The frames of the gallery are saved under names of their own.
    Downloading every frame of the gallery saves one file per frame, and
    no two of them have the same name, whatever the frames hold: the name
    of the file of frame [k] (counted from 0) is [frame_], [k + 1] in
    decimal, [.png]. *)
Theorem gallery_downloads_distinct frames :
  List.length (savedAs (downloadAll frames 0)) = List.length frames /\
  NoDup (savedAs (downloadAll frames 0)) /\
  forall k, k < List.length frames ->
    nth_error (savedAs (downloadAll frames 0)) k
    = Some (js "frame_" ++ nat_to_js (k + 1) ++ js ".png").
Proof.
  rewrite savedAs_downloadAll. repeat split.
  - rewrite length_map, length_seq. reflexivity.
  - apply NoDup_map_inj; [| apply seq_NoDup].
    intros i j. apply frame_name_inj.
  - intros k Hk. rewrite nth_error_map, nth_error_seq.
    destruct (Nat.ltb_spec k (List.length frames)) as [_ | Hge]; [reflexivity | lia].
Qed.

(** ** Concrete runs of [handleDownloadGif] *)

(** A second press on the button while the first GIF is under way. *)
Lemma handleDownloadGif_guard_witness :
  let shown := mkApp (Some (mkUploaded (js "blob:flickerfy/0") ex_file)) [ex_cat]
                     [JString (js "Original Image"); JString (js "blink")]
                     [Some (js "T1JJRw=="); Some (js "QUFB")]
                     false [] None (Some ex_cat) true in
  let pw := mkPageWorld ex_script_animation 1 tt
              (mkPage shown false true (-1) 10 40 (Some (js "blob:flickerfy/worker"))) in
  isGeneratingGif (page pw) = true /\
  handleDownloadGif (plainDecode (64, 48)%N) (fun _ => true) (plainCall (fun _ => None)) pw
  = (Normal tt, pw, []).
Proof.
  intros shown pw. split; [reflexivity |].
  exact (handleDownloadGif_guard (plainDecode (64, 48)%N) (fun _ => true)
           (plainCall (fun _ => None)) pw (or_introl eq_refl)).
Defined.

(** Two frames, twelve frames per second, in a browser that plays along. *)
Lemma handleDownloadGif_starts_encoder_witness :
  let shown := mkApp (Some (mkUploaded (js "blob:flickerfy/0") ex_file)) [ex_cat]
                     [JString (js "Original Image"); JString (js "blink")]
                     [Some (js "T1JJRw=="); Some (js "QUFB")]
                     false [] None (Some ex_cat) true in
  let pw := mkPageWorld ex_script_animation 1 tt
              (mkPage shown false false (-1) 12 0 (Some (js "blob:flickerfy/worker"))) in
  (forall b src, exists size, fst (plainDecode (64, 48)%N b src) = inr size) /\
  (forall b c, fst (plainCall (fun _ => None) b c) = None) /\
  exists pw' t,
    handleDownloadGif (plainDecode (64, 48)%N) (fun _ => true) (plainCall (fun _ => None)) pw
      = (Normal tt, pw', t) /\
    isGeneratingGif (page pw') = true /\
    List.length (filter (fun c => match c with GifAddFrame _ _ => true | _ => false end)
                        (browserCalls t)) = 2.
Proof.
  intros shown pw.
  assert (Hdecode : forall (b : unit) src,
             exists size, fst (plainDecode (64, 48)%N b src) = inr size)
    by (intros b src; eexists; reflexivity).
  assert (Hcalls : forall (b : unit) c, fst (plainCall (fun _ => None) b c) = None)
    by (intros b c; reflexivity).
  split; [exact Hdecode |]. split; [exact Hcalls |].
  destruct (handleDownloadGif_starts_encoder (plainDecode (64, 48)%N) (fun _ => true)
              (plainCall (fun _ => None)) pw (workerScript := js "blob:flickerfy/worker")
              eq_refl ltac:(discriminate) eq_refl ltac:(discriminate)
              Hdecode (fun _ => eq_refl) Hcalls)
    as (pw' & t & Hrun & Hon & _ & _ & Hcount & _).
  exists pw', t. repeat split; assumption.
Defined.
